(** * UniTrack: the attendance projection and planning engine

    A shallow embedding of [src/lib/utils.ts], of [getVerdict] from
    [src/components/TodayCard.tsx] and of [src/lib/vacationPlanner.ts],
    followed by the properties stated about them.

    Modelling conventions

    - A TypeScript [number] is a value of [JS.number]: an exact rational,
      [+Infinity], [-Infinity] or [NaN].  Arithmetic on finite values is
      exact (no rounding, no overflow); the special values follow IEEE 754 as
      JavaScript exposes it (division by zero, [NaN] propagation, comparisons
      with [NaN] are false).  Negative zero is not represented: no divisor in
      the embedded functions can be [-0] unless an input already is.
    - A [Date] is the number of its local calendar day, counted from
      1970-01-01 (day 0, a Thursday).  [setDate(getDate() + n)] moves [n]
      calendar days, [setHours] stays inside the day, and two dates compare
      as their day numbers do.  [new Date()] is the parameter [today].
      Window sizes and [weeksAhead] are integers.
    - A loop of the source that is not bounded by a list is run on a budget
      of iterations; a lemma shows that the loop has left within it.
    - [Map<string, Subject>] is a finite map keyed by strings.  A plain
      object used as a dictionary ([subjectThresholds], [codeCount]) is its
      own properties together with what it inherits from
      [Object.prototype]: a read under [constructor], [toString] and the
      like finds the inherited member when the object has no property of
      its own there ([ObjectPrototype]).
    - [Array.prototype.sort] is the stable sort the language prescribes; it
      is embedded as a stable insertion sort, which yields the prescribed
      result whenever the comparator is a consistent ordering. *)

From Stdlib Require Import ZArith QArith Qround Lia Lqa List Bool Ascii String.
From stdpp Require Import gmap strings list pretty sorting.

(* ===================================================================== *)
(** * JavaScript numbers *)
(* ===================================================================== *)

Module JS.

Inductive number : Type :=
| Fin (q : Q)
| PosInf
| NegInf
| NaN.

Definition of_Z (z : Z) : number := Fin (inject_Z z).
Definition of_nat (n : nat) : number := of_Z (Z.of_nat n).

(** The infinity (or [NaN]) whose sign is that of a comparison with zero. *)
Definition inf_of_sign (c : comparison) : number :=
  match c with
  | Gt => PosInf
  | Lt => NegInf
  | Eq => NaN
  end.

Definition add (a b : number) : number :=
  match a, b with
  | NaN, _ | _, NaN => NaN
  | Fin x, Fin y => Fin (x + y)
  | PosInf, NegInf | NegInf, PosInf => NaN
  | PosInf, _ | _, PosInf => PosInf
  | NegInf, _ | _, NegInf => NegInf
  end.

Definition sub (a b : number) : number :=
  match a, b with
  | NaN, _ | _, NaN => NaN
  | Fin x, Fin y => Fin (x - y)
  | PosInf, PosInf | NegInf, NegInf => NaN
  | PosInf, _ | _, NegInf => PosInf
  | NegInf, _ | _, PosInf => NegInf
  end.

Definition mul (a b : number) : number :=
  match a, b with
  | NaN, _ | _, NaN => NaN
  | Fin x, Fin y => Fin (x * y)
  | Fin x, PosInf | PosInf, Fin x => inf_of_sign (x ?= 0)%Q
  | Fin x, NegInf | NegInf, Fin x => inf_of_sign (0 ?= x)%Q
  | PosInf, PosInf | NegInf, NegInf => PosInf
  | PosInf, NegInf | NegInf, PosInf => NegInf
  end.

(** Division; a zero divisor is [+0]. *)
Definition div (a b : number) : number :=
  match a, b with
  | NaN, _ | _, NaN => NaN
  | Fin x, Fin y =>
      if Qeq_bool y 0 then inf_of_sign (x ?= 0)%Q else Fin (x / y)
  | Fin _, (PosInf | NegInf) => Fin 0
  | (PosInf | NegInf), (PosInf | NegInf) => NaN
  | PosInf, Fin y => if Qle_bool 0 y then PosInf else NegInf
  | NegInf, Fin y => if Qle_bool 0 y then NegInf else PosInf
  end.

(** The order of two numbers; [None] when one of them is [NaN]. *)
Definition compare (a b : number) : option comparison :=
  match a, b with
  | NaN, _ | _, NaN => None
  | Fin x, Fin y => Some (x ?= y)%Q
  | PosInf, PosInf | NegInf, NegInf => Some Eq
  | PosInf, _ | _, NegInf => Some Gt
  | NegInf, _ | _, PosInf => Some Lt
  end.

(** [a < b], [a <= b], [a > b], [a >= b] and [a === b]. *)
Definition ltb (a b : number) : bool :=
  match compare a b with Some Lt => true | _ => false end.
Definition leb (a b : number) : bool :=
  match compare a b with Some Lt | Some Eq => true | _ => false end.
Definition gtb (a b : number) : bool :=
  match compare a b with Some Gt => true | _ => false end.
Definition geb (a b : number) : bool :=
  match compare a b with Some Gt | Some Eq => true | _ => false end.
Definition eqb (a b : number) : bool :=
  match compare a b with Some Eq => true | _ => false end.

(** [Math.floor], [Math.ceil] and the binary [Math.max]. *)
Definition floor (a : number) : number :=
  match a with
  | Fin x => Fin (inject_Z (Qfloor x))
  | _ => a
  end.

Definition ceil (a : number) : number :=
  match a with
  | Fin x => Fin (inject_Z (Qceiling x))
  | _ => a
  end.

Definition max (a b : number) : number :=
  match compare a b with
  | None => NaN
  | Some Lt => b
  | Some _ => a
  end.

(** Equality of the values denoted: rationals are compared by [Qeq]. *)
Definition num_eq (a b : number) : Prop :=
  match a, b with
  | Fin x, Fin y => (x == y)%Q
  | PosInf, PosInf | NegInf, NegInf | NaN, NaN => True
  | _, _ => False
  end.

End JS.

Declare Scope js_scope.
Delimit Scope js_scope with js.
Bind Scope js_scope with JS.number.
Infix "+" := JS.add : js_scope.
Infix "-" := JS.sub : js_scope.
Infix "*" := JS.mul : js_scope.
Infix "/" := JS.div : js_scope.
Infix "<?" := JS.ltb : js_scope.
Infix "<=?" := JS.leb : js_scope.
Infix ">?" := JS.gtb : js_scope.
Infix ">=?" := JS.geb : js_scope.
Infix "===" := JS.eqb (at level 70, no associativity) : js_scope.
Infix "≈" := JS.num_eq (at level 70, no associativity) : js_scope.
Notation "# z" := (JS.of_Z z) (at level 1, format "# z") : js_scope.

(* ===================================================================== *)
(** * [src/lib/utils.ts] *)
(* ===================================================================== *)

Record Subject : Type := mkSubject {
  name : string;
  code : string;
  attended : JS.number;
  total : JS.number;
  percentage : JS.number
}.

Inductive Status : Type := safe | critical | low | no_data.

(** The properties that every plain object inherits. *)
Module ObjectPrototype.

(** The function-valued properties of [Object.prototype]. *)
Definition methods : list string :=
  [ "constructor"; "hasOwnProperty"; "isPrototypeOf"; "propertyIsEnumerable";
    "toLocaleString"; "toString"; "valueOf"; "__defineGetter__";
    "__defineSetter__"; "__lookupGetter__"; "__lookupSetter__" ].

Definition isMethod (key : string) : bool := bool_decide (key ∈ methods).

(** [__proto__] is an accessor: a read gives the prototype, and a write of
    a value that is neither an object nor [null] changes nothing. *)
Definition isProto (key : string) : bool := bool_decide (key = "__proto__").

(** What [key in o] and [o[key]] find when [o] has no property [key] of
    its own. *)
Definition inherits (key : string) : bool := isMethod key || isProto key.

End ObjectPrototype.

Module Utils.
Import JS.
Local Open Scope js_scope.

Definition BUFFER : number := #5.

(** The parameter [total] is optional and defaults to [-1]. *)
Definition calculateStatus
    (percentage threshold : number) (total : option number) : Status :=
  let total := default #(-1) total in
  if total === #0 then no_data
  else if percentage >=? threshold + BUFFER then safe
  else if percentage >=? threshold then critical
  else low.

Definition calculateClassesToBunk (attended total threshold : number) : number :=
  let canBunk := floor ((attended * #100) / threshold - total) in
  max #0 canBunk.

Definition calculateClassesToAttend (attended total threshold : number) : number :=
  if threshold >=? #100 then PosInf
  else
    let needed :=
      ceil ((total * threshold - attended * #100) / (#100 - threshold)) in
    max #0 needed.

(** [subject.code || subject.name]: the empty string is falsy. *)
Definition getSubjectKey (subject : Subject) : string :=
  if decide (code subject = "") then name subject else code subject.

(** [subjectThresholds[key] ?? globalThreshold], [subjectThresholds]
    being the own properties of the object.  Under a key without an own
    property that [Object.prototype] defines, the read gives the inherited
    member, which is neither [null] nor [undefined] and is returned as the
    threshold; it is a function or an object, and the arithmetic and the
    comparisons that take a threshold convert it to [NaN]. *)
Definition getEffectiveThreshold
    (subject : Subject) (globalThreshold : number)
    (subjectThresholds : gmap string number) : number :=
  let key := getSubjectKey subject in
  match subjectThresholds !! key with
  | Some threshold => threshold
  | None => if ObjectPrototype.inherits key then NaN else globalThreshold
  end.

End Utils.

(* ===================================================================== *)
(** * [getVerdict] of [src/components/TodayCard.tsx] *)
(* ===================================================================== *)

(** The verdict ['no_data'] is [verdict_no_data], [no_data] being the
    status. *)
Inductive Verdict : Type := skip | risky | attend | verdict_no_data.

Module TodayCard.
Import JS Utils.
Local Open Scope js_scope.

Definition is_safe (s : Status) : bool :=
  match s with safe => true | _ => false end.
Definition is_low (s : Status) : bool :=
  match s with low => true | _ => false end.
Definition is_no_data (s : Status) : bool :=
  match s with no_data => true | _ => false end.

Definition getVerdict (subject : Subject) (threshold : number) : Verdict :=
  let status :=
    calculateStatus (percentage subject) threshold (Some (total subject)) in
  if is_no_data status then verdict_no_data
  else
    (* the first [if] either returns [skip] or falls through *)
    let skipped :=
      if is_safe status then
        let classesToBunk :=
          calculateClassesToBunk (attended subject) (total subject) threshold in
        classesToBunk >? #0
      else false in
    if skipped then skip
    else if is_low status then attend
    else risky.

End TodayCard.

(* ===================================================================== *)
(** * Calendar days *)
(* ===================================================================== *)

Module Calendar.
Local Open Scope Z_scope.

(** [Date.prototype.getDay]: 0 is Sunday; day 0 is a Thursday. *)
Definition getDay (d : Z) : Z := (d + 4) mod 7.

(** Year, month (1..12) and day of the month of a day number, in the
    proleptic Gregorian calendar that [Date] uses. *)
Definition civil (d : Z) : Z * Z * Z :=
  let z := d + 719468 in
  let era := z / 146097 in
  let doe := z mod 146097 in
  let yoe := (doe - doe / 1460 + doe / 36524 - doe / 146096) / 365 in
  let doy := doe - (365 * yoe + yoe / 4 - yoe / 100) in
  let mp := (5 * doy + 2) / 153 in
  let dd := doy - (153 * mp + 2) / 5 + 1 in
  let m := if mp <? 10 then mp + 3 else mp - 9 in
  let y := yoe + era * 400 + (if m <=? 2 then 1 else 0) in
  (y, m, dd).

(** [String(n).padStart(2, '0')] *)
Definition pad2 (n : Z) : string :=
  let s := pretty n in
  if (String.length s <? 2)%nat then "0" +:+ s else s.

End Calendar.

(* ===================================================================== *)
(** * [src/lib/vacationPlanner.ts] *)
(* ===================================================================== *)

Record VacationDay : Type := mkVacationDay {
  date : Z;
  dateStr : string;
  jsDay : Z;
  timetableDayIndex : Z;
  isSunday : bool;
  isHoliday : bool
}.

(** What a property of the tally [codeCount] holds.  Its type says a
    number; under a key that names a method of [Object.prototype] it is a
    string: the source text of that method, which the engine words within
    [function ... { [native code] }], followed by one digit [1] for every
    class counted. *)
Inductive Count : Type :=
| count_number (n : nat)
| count_text (method : string) (ones : nat).

(** [SubjectImpact] is declared in [skipPlanner.ts]; its fields are those
    of the two object literals of [calculateVacationImpact].  The fields
    [code] and [name] are [impactCode] and [impactName] here, and the field
    [totalClasses] of a window is [windowClasses]. *)
Record SubjectImpact : Type := mkSubjectImpact {
  impactCode : string;
  impactName : string;
  classCount : Count;
  currentPct : JS.number;
  projectedPct : JS.number;
  drop : JS.number;
  currentBunkable : JS.number;
  projectedBunkable : JS.number;
  breachesThreshold : bool;
  isNoData : bool
}.

Record VacationImpactResult : Type := mkVacationImpactResult {
  impacts : list SubjectImpact;
  totalClasses : nat;
  activeDays : nat;
  totalDays : nat
}.

Record VacationWindow : Type := mkVacationWindow {
  startDate : Z;
  endDate : Z;
  duration : Z;
  windowClasses : nat;
  atRiskCount : nat;
  penalty : JS.number
}.

(** The weekly timetable: day index (0 = Monday .. 5 = Saturday) to the
    subject keys scheduled that day. *)
Abbreviation Timetable := (gmap Z (list string)).

(** ** Built-ins used by the planner *)

Module Builtins.
Import JS.
Local Open Scope js_scope.

Section Sort.
Context {A : Type} (comparator : A -> A -> number).

(** [x] is placed after [y] only when [comparator x y > 0]; a [NaN]
    result counts as [+0]. *)
Fixpoint sort_insert (x : A) (l : list A) : list A :=
  match l with
  | [] => [x]
  | y :: ys =>
      if comparator x y >? #0 then y :: sort_insert x ys else x :: y :: ys
  end.

(** [Array.prototype.sort(comparator)] *)
Definition sort (l : list A) : list A := foldr sort_insert [] l.
End Sort.

(** An array index is the canonical decimal numeral of an integer below
    [2^32 - 1]. *)
Definition digit_of (c : ascii) : option N :=
  let n := N_of_ascii c in
  if ((48 <=? n) && (n <=? 57))%N then Some (n - 48)%N else None.

Fixpoint digits_value (acc : N) (s : string) : option N :=
  match s with
  | EmptyString => Some acc
  | String c r =>
      match digit_of c with
      | Some d => digits_value (acc * 10 + d)%N r
      | None => None
      end
  end.

Definition array_index (key : string) : option N :=
  match key with
  | EmptyString => None
  | String "0" (String _ _) => None
  | _ =>
      match digits_value 0%N key with
      | Some n => if (n <? 2 ^ 32 - 1)%N then Some n else None
      | None => None
      end
  end.

(** A plain object used as a dictionary: its own string keys in the order
    of their creation. *)
Section Object.
Context {V : Type}.

Fixpoint obj_get (key : string) (o : list (string * V)) : option V :=
  match o with
  | [] => None
  | (k, v) :: r => if decide (k = key) then Some v else obj_get key r
  end.

(** Assignment keeps the place of an existing key and appends a new one. *)
Fixpoint obj_set (key : string) (v : V) (o : list (string * V))
    : list (string * V) :=
  match o with
  | [] => [(key, v)]
  | (k, w) :: r =>
      if decide (k = key) then (k, v) :: r else (k, w) :: obj_set key v r
  end.

Definition index_entry (e : string * V) : option (N * (string * V)) :=
  match array_index e.1 with
  | Some n => Some (n, e)
  | None => None
  end.

Definition is_named (e : string * V) : bool :=
  match array_index e.1 with
  | Some _ => false
  | None => true
  end.

(** [Object.entries]: array indices in ascending order, then the other
    keys in the order of their creation. *)
Definition entries (o : list (string * V)) : list (string * V) :=
  let indexed := omap index_entry o in
  let ascending :=
    sort (fun a b => #(Z.of_N a.1) - #(Z.of_N b.1)) indexed in
  map snd ascending ++ List.filter is_named o.
End Object.

End Builtins.

Module VacationPlanner.
Import JS Utils Builtins Calendar.
Local Open Scope js_scope.

Definition formatDateStr (d : Z) : string :=
  let '(y, m, day) := civil d in
  pretty y +:+ "-" +:+ pad2 m +:+ "-" +:+ pad2 day.

Definition vacationDay (current : Z) (holidays : gset string) : VacationDay :=
  let jsDay := getDay current in
  let dateStr := formatDateStr current in
  {| date := current;
     dateStr := dateStr;
     jsDay := jsDay;
     timetableDayIndex := if (jsDay =? 0)%Z then (-1)%Z else (jsDay - 1)%Z;
     isSunday := (jsDay =? 0)%Z;
     isHoliday := bool_decide (dateStr ∈ holidays) |}.

(** The loop [while (current <= end)] of [getVacationDays], run for at most
    [fuel] iterations. *)
Fixpoint getVacationDays_loop
    (fuel : nat) (current end_ : Z) (holidays : gset string)
    : list VacationDay :=
  match fuel with
  | O => []
  | S fuel' =>
      if (current <=? end_)%Z then
        vacationDay current holidays
          :: getVacationDays_loop fuel' (current + 1)%Z end_ holidays
      else []
  end.

(** The loop leaves after [end - start + 1] iterations
    ([getVacationDays_loop_stable]). *)
Definition getVacationDays
    (startDate endDate : Z) (holidays : gset string) : list VacationDay :=
  getVacationDays_loop (Z.to_nat (endDate - startDate + 1)) startDate endDate
    holidays.

(** ** [calculateVacationImpact] *)

(** The tallies of the first loop: [codeCount], [totalClasses] and
    [activeDays]. *)
Record Tally : Type := mkTally {
  codeCount : list (string * Count);
  tallyClasses : nat;
  tallyDays : nat
}.

(** [codeCount[code] = (codeCount[code] || 0) + 1], [codeCount] being the
    own properties of an object created as [{}].  An own number is
    incremented, and an own string, which is not empty, gets a digit [1]
    appended.  Without an own property the read finds what the object
    inherits: nothing under most keys, so that the count is [0 + 1]; a
    method, which is truthy, so that [+] appends [1] to its source text;
    and under [__proto__] the prototype, but there the assignment goes to
    the setter of the accessor, which ignores a string: no property is
    created. *)
Definition countCode (codeCount : list (string * Count)) (code : string)
    : list (string * Count) :=
  match obj_get code codeCount with
  | Some (count_number n) => obj_set code (count_number (n + 1)) codeCount
  | Some (count_text method ones) =>
      obj_set code (count_text method (ones + 1)) codeCount
  | None =>
      if ObjectPrototype.isProto code then codeCount
      else if ObjectPrototype.isMethod code then
        obj_set code (count_text code 1) codeCount
      else obj_set code (count_number 1) codeCount
  end.

(** [subject.total + count]: the sum of two numbers, or, when [count] is
    a string, the numeral of [subject.total] followed by that string.  The
    division and the subtraction that take the result convert it to a
    number, and such a string, which holds the text of a function, is no
    numeral: it converts to [NaN]. *)
Definition plusCount (total : number) (count : Count) : number :=
  match count with
  | count_number n => total + of_nat n
  | count_text _ _ => NaN
  end.

(** A count as the multiplication of the scoring loop reads it. *)
Definition countNumber (count : Count) : number :=
  match count with
  | count_number n => of_nat n
  | count_text _ _ => NaN
  end.

Definition tallyDay (timetable : Timetable) (t : Tally) (day : VacationDay)
    : Tally :=
  if isSunday day || isHoliday day then t
  else
    let codes := default [] (timetable !! timetableDayIndex day) in
    if (length codes =? 0)%nat then t
    else
      {| codeCount := foldl countCode (codeCount t) codes;
         tallyClasses := (tallyClasses t + length codes)%nat;
         tallyDays := (tallyDays t + 1)%nat |}.

Definition noDataImpact (code : string) (subject : Subject) (count : Count)
    : SubjectImpact :=
  {| impactCode := code;
     impactName := name subject;
     classCount := count;
     currentPct := #0;
     projectedPct := #0;
     drop := #0;
     currentBunkable := #0;
     projectedBunkable := #0;
     breachesThreshold := false;
     isNoData := true |}.

Definition dataImpact
    (code : string) (subject : Subject) (count : Count) (threshold : number)
    : SubjectImpact :=
  let currentPct := (attended subject / total subject) * #100 in
  let projectedPct :=
    (attended subject / plusCount (total subject) count) * #100 in
  let drop := currentPct - projectedPct in
  let currentBunkable :=
    calculateClassesToBunk (attended subject) (total subject) threshold in
  let projectedBunkable :=
    calculateClassesToBunk (attended subject)
      (plusCount (total subject) count) threshold in
  let breachesThreshold := projectedPct <? threshold in
  {| impactCode := code;
     impactName := name subject;
     classCount := count;
     currentPct := currentPct;
     projectedPct := projectedPct;
     drop := drop;
     currentBunkable := currentBunkable;
     projectedBunkable := projectedBunkable;
     breachesThreshold := breachesThreshold;
     isNoData := false |}.

(** One iteration of the loop over [Object.entries(codeCount)]. *)
Definition pushImpact
    (subjectMap : gmap string Subject) (globalThreshold : number)
    (subjectThresholds : gmap string number)
    (impacts : list SubjectImpact) (entry : string * Count)
    : list SubjectImpact :=
  let '(code, count) := entry in
  match subjectMap !! code with
  | None => impacts
  | Some subject =>
      let threshold :=
        getEffectiveThreshold subject globalThreshold subjectThresholds in
      let isNoData := total subject === #0 in
      if isNoData then impacts ++ [noDataImpact code subject count]
      else impacts ++ [dataImpact code subject count threshold]
  end.

(** The comparator of [impacts.sort]. *)
Definition compareImpacts (a b : SubjectImpact) : number :=
  if xorb (isNoData a) (isNoData b) then
    if isNoData a then #1 else #(-1)
  else if xorb (breachesThreshold a) (breachesThreshold b) then
    if breachesThreshold a then #(-1) else #1
  else drop b - drop a.

Definition calculateVacationImpact
    (vacationDays : list VacationDay) (timetable : Timetable)
    (subjectMap : gmap string Subject) (globalThreshold : number)
    (subjectThresholds : gmap string number) : VacationImpactResult :=
  let t := foldl (tallyDay timetable) (mkTally [] 0 0) vacationDays in
  let impacts :=
    foldl (pushImpact subjectMap globalThreshold subjectThresholds) []
      (entries (codeCount t)) in
  {| impacts := sort compareImpacts impacts;
     totalClasses := tallyClasses t;
     activeDays := tallyDays t;
     totalDays := length vacationDays |}.

(** ** [findBestVacationWindows] *)

Definition weightOf (margin : number) : number :=
  if margin <? #0 then #3
  else if margin <? #5 then #2
  else #1.

(** The scoring loop over [result.impacts], started with the running
    [penalty].  [None] is the [TypeError] that [getEffectiveThreshold]
    raises when [subjectMap.get(impact.code)!] is [undefined]. *)
Fixpoint scoreImpacts
    (subjectMap : gmap string Subject) (globalThreshold : number)
    (subjectThresholds : gmap string number)
    (penalty : number) (impacts : list SubjectImpact) : option number :=
  match impacts with
  | [] => Some penalty
  | impact :: rest =>
      if isNoData impact then
        scoreImpacts subjectMap globalThreshold subjectThresholds penalty rest
      else
        match subjectMap !! impactCode impact with
        | None => None
        | Some subject =>
            let threshold :=
              getEffectiveThreshold subject globalThreshold subjectThresholds in
            let margin := currentPct impact - threshold in
            let weight := weightOf margin in
            scoreImpacts subjectMap globalThreshold subjectThresholds
              (penalty + drop impact * weight * countNumber (classCount impact))
              rest
        end
  end.

Definition isAtRisk (i : SubjectImpact) : bool :=
  breachesThreshold i && negb (isNoData i).

(** The loop [while (true)] for one window size, run for at most [fuel]
    iterations; [current] is the first day of the window. *)
Fixpoint scanWindows
    (fuel : nat) (timetable : Timetable) (subjectMap : gmap string Subject)
    (globalThreshold : number) (subjectThresholds : gmap string number)
    (size endScan current : Z) (candidates : list VacationWindow)
    : option (list VacationWindow) :=
  match fuel with
  | O => Some candidates
  | S fuel' =>
      let windowEnd := (current + size - 1)%Z in
      if (windowEnd >? endScan)%Z then Some candidates
      else
        let days := getVacationDays current windowEnd ∅ in
        let result :=
          calculateVacationImpact days timetable subjectMap globalThreshold
            subjectThresholds in
        match
          scoreImpacts subjectMap globalThreshold subjectThresholds #0
            (impacts result)
        with
        | None => None
        | Some penalty =>
            let atRiskCount :=
              length (List.filter isAtRisk (impacts result)) in
            scanWindows fuel' timetable subjectMap globalThreshold
              subjectThresholds size endScan (current + 1)%Z
              (candidates ++
                 [ {| startDate := current;
                      endDate := windowEnd;
                      duration := size;
                      windowClasses := totalClasses result;
                      atRiskCount := atRiskCount;
                      penalty := penalty |} ])
        end
  end.

(** Iterations after which the loop for [size] has left
    ([scanWindows_stable]): the windows start at [today + 1] and the last
    one ends on [endScan]. *)
Definition scanBudget (today endScan size : Z) : nat :=
  Z.to_nat (endScan - (today + size) + 1).

(** The loop [for (const size of windowSizes)]. *)
Fixpoint scanSizes
    (timetable : Timetable) (subjectMap : gmap string Subject)
    (globalThreshold : number) (subjectThresholds : gmap string number)
    (today endScan : Z) (windowSizes : list Z)
    (candidates : list VacationWindow) : option (list VacationWindow) :=
  match windowSizes with
  | [] => Some candidates
  | size :: rest =>
      match
        scanWindows (scanBudget today endScan size) timetable subjectMap
          globalThreshold subjectThresholds size endScan (today + 1)%Z
          candidates
      with
      | None => None
      | Some candidates' =>
          scanSizes timetable subjectMap globalThreshold subjectThresholds
            today endScan rest candidates'
      end
  end.

Definition comparePenalty (a b : VacationWindow) : number :=
  penalty a - penalty b.

(** [c.startDate <= r.endDate && c.endDate >= r.startDate] *)
Definition overlapsWith (c r : VacationWindow) : bool :=
  (startDate c <=? endDate r)%Z && (endDate c >=? startDate r)%Z.

(** The selection loop: the first three candidates that overlap none of
    the windows already selected. *)
Fixpoint selectWindows (results candidates : list VacationWindow)
    : list VacationWindow :=
  match candidates with
  | [] => results
  | c :: rest =>
      let overlaps := existsb (overlapsWith c) results in
      if overlaps then selectWindows results rest
      else
        let results' := results ++ [c] in
        if (3 <=? length results')%nat then results'
        else selectWindows results' rest
  end.

Definition defaultWindowSizes : list Z := [3; 5; 7]%Z.
Definition defaultWeeksAhead : Z := 3.

(** The candidates collected by the two nested loops, before sorting. *)
Definition candidateWindows
    (today : Z) (timetable : Timetable) (subjectMap : gmap string Subject)
    (globalThreshold : number) (subjectThresholds : gmap string number)
    (windowSizes : option (list Z)) (weeksAhead : option Z)
    : option (list VacationWindow) :=
  let windowSizes := default defaultWindowSizes windowSizes in
  let weeksAhead := default defaultWeeksAhead weeksAhead in
  let endScan := (today + weeksAhead * 7)%Z in
  scanSizes timetable subjectMap globalThreshold subjectThresholds today
    endScan windowSizes [].

Definition findBestVacationWindows
    (today : Z) (timetable : Timetable) (subjectMap : gmap string Subject)
    (globalThreshold : number) (subjectThresholds : gmap string number)
    (windowSizes : option (list Z)) (weeksAhead : option Z)
    : option (list VacationWindow) :=
  match
    candidateWindows today timetable subjectMap globalThreshold
      subjectThresholds windowSizes weeksAhead
  with
  | None => None
  | Some candidates => Some (selectWindows [] (sort comparePenalty candidates))
  end.

End VacationPlanner.


From Stdlib Require Import Qabs.

(* ===================================================================== *)
(** * More built-ins *)
(* ===================================================================== *)

Module JSMath.
Import JS.
Local Open Scope js_scope.

(** The binary [Math.min]. *)
Definition min (a b : number) : number :=
  match compare a b with
  | None => NaN
  | Some Gt => b
  | Some _ => a
  end.

(** [Math.round]: the nearest integer, a tie going up. *)
Definition round (a : number) : number :=
  match a with
  | Fin x => Fin (inject_Z (Qfloor (x + Qmake 1 2)))
  | _ => a
  end.

Definition isNaN (a : number) : bool :=
  match a with
  | NaN => true
  | _ => false
  end.

(** [parseFloat(x.toFixed(1))]: the nearest multiple of one tenth, a tie
    going away from zero; values of magnitude [10^21] and beyond, and the
    special values, come out as they are. *)
Definition toFixed1 (a : number) : number :=
  match a with
  | Fin x =>
      if Qle_bool (inject_Z (10 ^ 21)) (Qabs x) then a
      else
        let n := Qfloor (Qabs x * inject_Z 10 + Qmake 1 2) in
        if Qle_bool 0 x then Fin (inject_Z n / inject_Z 10)
        else Fin (- (inject_Z n / inject_Z 10))
  | _ => a
  end.

End JSMath.

(* ===================================================================== *)
(** * The handlers of the application component *)
(* ===================================================================== *)

Module App.
Import JS.

(** [value === null] removes the override of [subjectKey]; any other value
    replaces it.  The copy [{ ...prev }] has the own properties of [prev];
    under [__proto__] an assignment reaches the setter of the accessor,
    which ignores a number, unless the copy has a property of its own
    there. *)
Definition handleSubjectThresholdChange
    (subjectKey : string) (value : option number)
    (prev : gmap string number) : gmap string number :=
  match value with
  | None => delete subjectKey prev
  | Some v =>
      if ObjectPrototype.isProto subjectKey
         && bool_decide (prev !! subjectKey = None)
      then prev
      else <[subjectKey := v]> prev
  end.

End App.

(* ===================================================================== *)
(** * The dashboard screen and the status filter *)
(* ===================================================================== *)

Record StatusCounts : Type := mkStatusCounts {
  count_safe : nat;
  count_critical : nat;
  count_low : nat;
  count_no_data : nat
}.

(** ['all'] or one of the four statuses. *)
Inductive StatusFilterKey : Type :=
| filter_all
| filter_status (s : Status).

Module Dashboard.
Import JS Utils.

Definition getSubjectStatus
    (threshold : number) (subjectThresholds : gmap string number)
    (subject : Subject) : Status :=
  let t := getEffectiveThreshold subject threshold subjectThresholds in
  calculateStatus (percentage subject) t (Some (total subject)).

(** [acc[status]++] *)
Definition countStatus (acc : StatusCounts) (status : Status) : StatusCounts :=
  match status with
  | safe =>
      mkStatusCounts (count_safe acc + 1) (count_critical acc)
        (count_low acc) (count_no_data acc)
  | critical =>
      mkStatusCounts (count_safe acc) (count_critical acc + 1)
        (count_low acc) (count_no_data acc)
  | low =>
      mkStatusCounts (count_safe acc) (count_critical acc)
        (count_low acc + 1) (count_no_data acc)
  | no_data =>
      mkStatusCounts (count_safe acc) (count_critical acc)
        (count_low acc) (count_no_data acc + 1)
  end.

Definition statusCounts
    (threshold : number) (subjectThresholds : gmap string number)
    (subjects : list Subject) : StatusCounts :=
  foldl
    (fun acc subject =>
       countStatus acc (getSubjectStatus threshold subjectThresholds subject))
    (mkStatusCounts 0 0 0 0) subjects.

Definition status_eqb (a b : Status) : bool :=
  match a, b with
  | safe, safe | critical, critical | low, low | no_data, no_data => true
  | _, _ => false
  end.

Definition filteredSubjects
    (threshold : number) (subjectThresholds : gmap string number)
    (activeFilter : StatusFilterKey) (subjects : list Subject)
    : list Subject :=
  match activeFilter with
  | filter_all => subjects
  | filter_status f =>
      List.filter
        (fun s =>
           status_eqb (getSubjectStatus threshold subjectThresholds s) f)
        subjects
  end.

(** [new Map(subjects.map(s => [getSubjectKey(s), s]))]: a later subject
    replaces an earlier one with the same key. *)
Definition subjectMap (subjects : list Subject) : gmap string Subject :=
  foldl (fun m s => <[getSubjectKey s := s]> m) ∅ subjects.

(** [key in subjectThresholds]: an own or an inherited property. *)
Definition hasCustomThreshold
    (subjectThresholds : gmap string number) (subject : Subject) : bool :=
  bool_decide (is_Some (subjectThresholds !! getSubjectKey subject))
  || ObjectPrototype.inherits (getSubjectKey subject).

End Dashboard.

Module StatusFilter.

Definition totalCount (counts : StatusCounts) : nat :=
  count_safe counts + count_critical counts + count_low counts
  + count_no_data counts.

Definition getCount (counts : StatusCounts) (key : StatusFilterKey) : nat :=
  match key with
  | filter_all => totalCount counts
  | filter_status safe => count_safe counts
  | filter_status critical => count_critical counts
  | filter_status low => count_low counts
  | filter_status no_data => count_no_data counts
  end.

End StatusFilter.

(* ===================================================================== *)
(** * The overall statistics card *)
(* ===================================================================== *)

Record Stats : Type := mkStats {
  overallPercentage : JS.number;
  overallStatus : Status;
  totalBunkable : JS.number;
  totalNeeded : JS.number;
  safeCount : nat;
  criticalCount : nat;
  lowCount : nat;
  afterAttendAll : JS.number;
  afterSkipAll : JS.number
}.

Module OverallStatsCard.
Import JS Utils JSMath.
Local Open Scope js_scope.

(** The accumulators of the [forEach] loop. *)
Record Totals : Type := mkTotals {
  accBunkable : number;
  accNeeded : number;
  accSafe : nat;
  accCritical : nat;
  accLow : nat
}.

Definition addSubject
    (globalThreshold : number) (subjectThresholds : gmap string number)
    (acc : Totals) (subject : Subject) : Totals :=
  let threshold :=
    getEffectiveThreshold subject globalThreshold subjectThresholds in
  let status :=
    calculateStatus (percentage subject) threshold (Some (total subject)) in
  let bunkable :=
    calculateClassesToBunk (attended subject) (total subject) threshold in
  let needed :=
    calculateClassesToAttend (attended subject) (total subject) threshold in
  {| accBunkable := accBunkable acc + bunkable;
     accNeeded := accNeeded acc + needed;
     accSafe := match status with safe => accSafe acc + 1 | _ => accSafe acc end;
     accCritical :=
       match status with
       | critical => accCritical acc + 1
       | _ => accCritical acc
       end;
     accLow := match status with low => accLow acc + 1 | _ => accLow acc end |}.

Definition stats
    (subjects : list Subject) (globalThreshold : number)
    (subjectThresholds : gmap string number) : Stats :=
  let activeSubjects := List.filter (fun s => total s >? #0) subjects in
  let totalAttended :=
    foldl (fun sum s => sum + attended s) #0 activeSubjects in
  let totalClasses := foldl (fun sum s => sum + total s) #0 activeSubjects in
  let overallPercentage :=
    if totalClasses >? #0 then round ((totalAttended / totalClasses) * #100)
    else #0 in
  let acc :=
    foldl (addSubject globalThreshold subjectThresholds)
      (mkTotals #0 #0 0 0 0) activeSubjects in
  let totalActiveSubjects := of_nat (length activeSubjects) in
  let afterAttendAll :=
    if totalClasses + totalActiveSubjects >? #0 then
      round (((totalAttended + totalActiveSubjects)
              / (totalClasses + totalActiveSubjects)) * #100)
    else #0 in
  let afterSkipAll :=
    if totalClasses + totalActiveSubjects >? #0 then
      round ((totalAttended / (totalClasses + totalActiveSubjects)) * #100)
    else #0 in
  let overallStatus := calculateStatus overallPercentage globalThreshold None in
  {| overallPercentage := overallPercentage;
     overallStatus := overallStatus;
     totalBunkable := accBunkable acc;
     totalNeeded := accNeeded acc;
     safeCount := accSafe acc;
     criticalCount := accCritical acc;
     lowCount := accLow acc;
     afterAttendAll := afterAttendAll;
     afterSkipAll := afterSkipAll |}.

End OverallStatsCard.

(* ===================================================================== *)
(** * [parseInt] *)
(* ===================================================================== *)

Module Parse.
Import JS.
Local Open Scope Z_scope.

Definition isDigit (c : ascii) : bool :=
  let n := Z.of_N (N_of_ascii c) in (48 <=? n) && (n <=? 57).

(** Space, tab, line feed, vertical tab, form feed and carriage return. *)
Definition isWhiteSpace (c : ascii) : bool :=
  let n := Z.of_N (N_of_ascii c) in (n =? 32) || ((9 <=? n) && (n <=? 13)).

(** [text.replace(/[^0-9]/g, '')] *)
Fixpoint keepDigits (text : string) : string :=
  match text with
  | EmptyString => EmptyString
  | String c r => if isDigit c then String c (keepDigits r) else keepDigits r
  end.

Fixpoint trimStart (s : string) : string :=
  match s with
  | EmptyString => EmptyString
  | String c r => if isWhiteSpace c then trimStart r else s
  end.

(** The value of the leading decimal digits of [s], after [acc]. *)
Fixpoint digitsValue (acc : Z) (s : string) : Z :=
  match s with
  | EmptyString => acc
  | String c r =>
      if isDigit c then digitsValue (10 * acc + (Z.of_N (N_of_ascii c) - 48)) r
      else acc
  end.

(** The number that the leading digits of [s] denote, with the sign
    [sign]; [NaN] without a leading digit. *)
Definition signedDigits (sign : Z) (s : string) : number :=
  match s with
  | EmptyString => NaN
  | String c _ => if isDigit c then of_Z (sign * digitsValue 0 s) else NaN
  end.

(** [parseInt(s, 10)]: leading white space, a sign, then decimal digits up
    to the first other character. *)
Definition parseInt10 (s : string) : number :=
  match trimStart s with
  | String "-" r => signedDigits (-1) r
  | String "+" r => signedDigits 1 r
  | t => signedDigits 1 t
  end.

End Parse.

(* ===================================================================== *)
(** * [src/components/ThresholdModal.tsx] *)
(* ===================================================================== *)

Module ThresholdModal.
Import JS JSMath.
Local Open Scope js_scope.

Definition PRESETS : list number :=
  [ #50; #60; #65; #70; #75; #80; #85; #90; #95 ].
Definition MIN_THRESHOLD : number := #50.
Definition MAX_THRESHOLD : number := #95.

Definition increment (prev : number) : number := min (prev + #1) MAX_THRESHOLD.
Definition decrement (prev : number) : number := max (prev - #1) MIN_THRESHOLD.

(** The controls that set the threshold of the dialog: the two step
    buttons and the pill of a preset [value]. *)
Inductive Press : Type :=
| press_increment
| press_decrement
| press_preset (value : number).

Definition setThreshold (threshold : number) (p : Press) : number :=
  match p with
  | press_increment => increment threshold
  | press_decrement => decrement threshold
  | press_preset value => value
  end.

(** [handleSave] hands the threshold of the dialog, opened at
    [currentThreshold], to [onSave] after the presses. *)
Definition handleSave (currentThreshold : number) (presses : list Press)
    : number :=
  foldl setThreshold currentThreshold presses.

End ThresholdModal.

(* ===================================================================== *)
(** * [src/components/AttendanceCard.tsx] *)
(* ===================================================================== *)

Module AttendanceCard.
Import JS JSMath Parse.
Local Open Scope js_scope.

Definition SLIDER_MIN : number := #50.
Definition SLIDER_MAX : number := #95.

Definition clamp (value min_ max_ : number) : number :=
  min (max value min_) max_.

(** The percentage after the next class, attended or skipped. *)
Definition attendNext (subject : Subject) : number :=
  if total subject >? #0 then
    toFixed1 (((attended subject + #1) / (total subject + #1)) * #100)
  else #100.

Definition skipNext (subject : Subject) : number :=
  if total subject >? #0 then
    toFixed1 ((attended subject / (total subject + #1)) * #100)
  else #0.

Definition handleSliderGesture (sliderWidth locationX : number) : number :=
  let ratio := clamp (locationX / sliderWidth) #0 #1 in
  let raw := SLIDER_MIN + ratio * (SLIDER_MAX - SLIDER_MIN) in
  round raw.

Definition onChangeText (text : string) (sliderValue : number) : number :=
  let num := parseInt10 (keepDigits text) in
  if negb (isNaN num) then clamp num SLIDER_MIN SLIDER_MAX
  else if String.eqb text "" then SLIDER_MIN
  else sliderValue.

(** The controls of the threshold editor that set [sliderValue]; a
    gesture comes with the [sliderWidth] of the moment. *)
Inductive EditorEvent : Type :=
| step_down
| step_up
| change_text (text : string)
| gesture (sliderWidth locationX : number).

Definition setSliderValue (v : number) (e : EditorEvent) : number :=
  match e with
  | step_down => max SLIDER_MIN (v - #1)
  | step_up => min SLIDER_MAX (v + #1)
  | change_text text => onChangeText text v
  | gesture sliderWidth locationX => handleSliderGesture sliderWidth locationX
  end.

End AttendanceCard.

(* ===================================================================== *)
(** * [src/components/TimetableSetup.tsx] *)
(* ===================================================================== *)

Module TimetableSetup.

Definition toggleSubjectForDay
    (activeDay : Z) (subjectKey : string) (prev : Timetable) : Timetable :=
  let dayCodes := default [] (prev !! activeDay) in
  let exists_ := bool_decide (subjectKey ∈ dayCodes) in
  let updated :=
    if exists_ then
      List.filter (fun c => negb (String.eqb c subjectKey)) dayCodes
    else dayCodes ++ [subjectKey] in
  <[activeDay := updated]> prev.

End TimetableSetup.

(* ===================================================================== *)
(** * The card of the day with its three tabs *)
(* ===================================================================== *)

Module DayCard.
Import JS Utils.

Definition targetJsDay (todayJsDay selectedDay : Z) : Z :=
  Z.rem (todayJsDay + selectedDay) 7.

Definition timetableDayIndex (targetJsDay : Z) : Z :=
  if (targetJsDay =? 0)%Z then (-1)%Z else (targetJsDay - 1)%Z.

(** [codes.map(code => subjectMap.get(code)).filter(s => !!s)] *)
Definition subjects
    (timetable : Timetable) (subjectMap : gmap string Subject)
    (timetableDayIndex : Z) : list Subject :=
  let codes :=
    if (timetableDayIndex >=? 0)%Z then
      default [] (timetable !! timetableDayIndex)
    else [] in
  omap (fun code => subjectMap !! code) codes.

End DayCard.

(* ===================================================================== *)
(** * [src/components/CalendarPicker.tsx] *)
(* ===================================================================== *)

Module CalendarPicker.
Import Calendar.
Local Open Scope Z_scope.

Definition tapCount (startDate endDate : option Z) : nat :=
  match startDate with
  | None => 0
  | Some _ => match endDate with None => 1 | Some _ => 2 end
  end.

(** The two arguments [handleTapDate] gives to [onSelectDate].  The count
    of taps is 1 only with a start date, so the last case is not
    reached. *)
Definition handleTapDate (startDate endDate : option Z) (date : Z)
    : option Z * option Z :=
  let n := tapCount startDate endDate in
  if (n =? 0)%nat || (n =? 2)%nat then (Some date, None)
  else
    match startDate with
    | Some s => if date <? s then (Some date, Some s) else (Some s, Some date)
    | None => (None, Some date)
    end.

(** A cell is disabled on a Sunday and before [minDate]. *)
Definition disabled (date minDate : Z) : bool :=
  (getDay date =? 0) || (date <? minDate).

End CalendarPicker.

(* ===================================================================== *)
(** * The screen of the vacation planner *)
(* ===================================================================== *)

Module PlannerScreen.
Import JS VacationPlanner.

Record State : Type := mkState {
  startDate : option Z;
  endDate : option Z;
  holidays : gset string;
  showCalendar : bool;
  suggestions : option (list VacationWindow);
  showSuggestions : bool
}.

Definition initial : State := mkState None None ∅ false None false.

Definition handleSelectDate (s e : option Z) (st : State) : State :=
  {| startDate := s;
     endDate := e;
     holidays := ∅;
     showCalendar := showCalendar st;
     suggestions := None;
     showSuggestions := false |}.

Definition handleToggleHoliday (dateStr : string) (st : State) : State :=
  {| startDate := startDate st;
     endDate := endDate st;
     holidays :=
       if bool_decide (dateStr ∈ holidays st) then holidays st ∖ {[dateStr]}
       else holidays st ∪ {[dateStr]};
     showCalendar := showCalendar st;
     suggestions := suggestions st;
     showSuggestions := showSuggestions st |}.

Definition toggleCalendar (st : State) : State :=
  {| startDate := startDate st;
     endDate := endDate st;
     holidays := holidays st;
     showCalendar := negb (showCalendar st);
     suggestions := suggestions st;
     showSuggestions := showSuggestions st |}.

Definition vacationDays (st : State) : list VacationDay :=
  match startDate st, endDate st with
  | Some s, Some e => getVacationDays s e (holidays st)
  | _, _ => []
  end.

Definition weekdaysInRange (st : State) : list VacationDay :=
  List.filter (fun d => negb (isSunday d)) (vacationDays st).

Section WithProps.
Variable timetable : Timetable.
Variable subjectMap : gmap string Subject.
Variable globalThreshold : number.
Variable subjectThresholds : gmap string number.

Definition impactResult (st : State) : option VacationImpactResult :=
  if (length (vacationDays st) =? 0)%nat then None
  else
    Some (calculateVacationImpact (vacationDays st) timetable subjectMap
            globalThreshold subjectThresholds).

Definition atRiskCount (st : State) : nat :=
  match impactResult st with
  | Some result =>
      length
        (List.filter (fun i => breachesThreshold i && negb (isNoData i))
           (impacts result))
  | None => 0
  end.

(** The search runs with its default sizes and horizon, from the day
    [now] of the press; an error of the search leaves no state. *)
Definition handleFindBest (now : Z) (st : State) : option State :=
  match
    findBestVacationWindows now timetable subjectMap globalThreshold
      subjectThresholds None None
  with
  | Some windows =>
      Some {| startDate := startDate st;
              endDate := endDate st;
              holidays := holidays st;
              showCalendar := showCalendar st;
              suggestions := Some windows;
              showSuggestions := true |}
  | None => None
  end.

Definition handleApplySuggestion (w : VacationWindow) (st : State) : State :=
  let '(mkVacationWindow windowStart windowEnd _ _ _ _) := w in
  {| startDate := Some windowStart;
     endDate := Some windowEnd;
     holidays := ∅;
     showCalendar := false;
     suggestions := None;
     showSuggestions := false |}.

(** What the user does: the controls of the screen and of the calendar
    it shows; a holiday switch and a suggestion are named by their row. *)
Inductive Event : Type :=
| press_dates
| press_clear
| tap_date (date : Z)
| toggle_holiday (idx : nat)
| press_find_best (now : Z)
| press_suggestion (idx : nat).

(** One event on the screen mounted on the day [today]: [None] when the
    control is not rendered or disabled in the state, or when the clock
    [now] of a search is before [today]. *)
Definition step (today : Z) (st : State) (e : Event) : option State :=
  match e with
  | press_dates => Some (toggleCalendar st)
  | press_clear =>
      if bool_decide (is_Some (startDate st) \/ is_Some (endDate st)) then
        Some (handleSelectDate None None st)
      else None
  | tap_date date =>
      if showCalendar st && negb (CalendarPicker.disabled date today) then
        let '(s, e) :=
          CalendarPicker.handleTapDate (startDate st) (endDate st) date in
        Some (handleSelectDate s e st)
      else None
  | toggle_holiday idx =>
      match startDate st, endDate st, weekdaysInRange st !! idx with
      | Some _, Some _, Some day =>
          Some (handleToggleHoliday (dateStr day) st)
      | _, _, _ => None
      end
  | press_find_best now =>
      if (today <=? now)%Z then handleFindBest now st else None
  | press_suggestion idx =>
      if showSuggestions st then
        match suggestions st with
        | Some windows =>
            match windows !! idx with
            | Some w => Some (handleApplySuggestion w st)
            | None => None
            end
        | None => None
        end
      else None
  end.

Fixpoint run (today : Z) (st : State) (events : list Event) : option State :=
  match events with
  | [] => Some st
  | e :: rest =>
      match step today st e with
      | Some st' => run today st' rest
      | None => None
      end
  end.

End WithProps.

End PlannerScreen.
(* ===================================================================== *)
(** * Definitions used to state the properties *)
(* ===================================================================== *)

Module Props.
Import JS Utils Builtins VacationPlanner.
Local Open Scope js_scope.

(** What [calculateStatus] answers when there is data: a function of the
    percentage and the threshold alone. *)
Definition standing (percentage threshold : number) : Status :=
  if percentage >=? threshold + #5 then safe
  else if percentage >=? threshold then critical
  else low.

(** [(attended + k) * 100 / (total + k) >= threshold], as JavaScript
    evaluates it. *)
Definition attains (a tot t : Q) (k : Z) : bool :=
  (Fin a + #k) * #100 / (Fin tot + #k) >=? Fin t.

(** The property stated of [calculateClassesToAttend] at one input. *)
Definition classesToAttend_spec (a tot t : Q) : Prop :=
  (calculateClassesToAttend (Fin a) (Fin tot) (Fin t) = PosInf
     <-> (100 <= t)%Q) /\
  ((t < 100)%Q ->
     exists k : Z,
       calculateClassesToAttend (Fin a) (Fin tot) (Fin t) = #k /\
       (0 <= k)%Z /\
       attains a tot t k = true /\
       forall j : Z, (0 <= j)%Z -> attains a tot t j = true -> (k <= j)%Z).

(** The property stated of [calculateClassesToBunk] at one input: the
    result [k] is [>= 0], it is the clamped floor, and when [k > 0] then
    [attended * 100 / (total + k) >= threshold]. *)
Definition classesToBunk_spec (a tot t : Q) : Prop :=
  let k := calculateClassesToBunk (Fin a) (Fin tot) (Fin t) in
  (k >=? #0) = true /\
  k = max #0 (floor (Fin a * #100 / Fin t - Fin tot)) /\
  ((k >? #0) = true -> (Fin a * #100 / (Fin tot + k) >=? Fin t) = true).

(** The impact pushed for a tallied code whose subject is [s]. *)
Definition impactOf
    (globalThreshold : number) (subjectThresholds : gmap string number)
    (code : string) (count : Count) (s : Subject) : SubjectImpact :=
  if total s === #0 then noDataImpact code s count
  else
    dataImpact code s count
      (getEffectiveThreshold s globalThreshold subjectThresholds).

(** [x] may stand before [y] in an array sorted by [comparator]. *)
Definition before {A : Type} (comparator : A -> A -> number) (x y : A) : Prop :=
  (comparator x y >? #0) = false.

(** The penalty of a window as the specification words it: the sum, over
    the impacts with data, of [drop * weight * classCount], the weight
    being 3 when the margin is negative, 2 when it lies in [0, 5), and 1
    otherwise; the margin is [currentPct] minus the effective threshold of
    the subject. *)
Definition weightSpec (margin : number) : number :=
  if margin <? #0 then #3
  else if (#0 <=? margin) && (margin <? #5) then #2
  else #1.

(** The effective threshold of the subject an impact stands for.  Every
    impact returned stands for a subject of the map
    ([impact_has_subject]). *)
Definition thresholdOf
    (subjectMap : gmap string Subject) (globalThreshold : number)
    (subjectThresholds : gmap string number) (i : SubjectImpact) : number :=
  match subjectMap !! impactCode i with
  | Some s => getEffectiveThreshold s globalThreshold subjectThresholds
  | None => NaN
  end.

Definition penaltyTerm
    (subjectMap : gmap string Subject) (globalThreshold : number)
    (subjectThresholds : gmap string number) (i : SubjectImpact) : number :=
  let margin :=
    currentPct i - thresholdOf subjectMap globalThreshold subjectThresholds i in
  drop i * weightSpec margin * countNumber (classCount i).

Definition penaltySpec
    (subjectMap : gmap string Subject) (globalThreshold : number)
    (subjectThresholds : gmap string number) (impacts : list SubjectImpact)
    : number :=
  foldr
    (fun i acc =>
       penaltyTerm subjectMap globalThreshold subjectThresholds i + acc)
    #0 (List.filter (fun i => negb (isNoData i)) impacts).

(** The impacts of the days from [startDate w] to [endDate w], no day of
    which is marked as a holiday. *)
Definition windowImpacts
    (timetable : Timetable) (subjectMap : gmap string Subject)
    (globalThreshold : number) (subjectThresholds : gmap string number)
    (w : VacationWindow) : list SubjectImpact :=
  impacts
    (calculateVacationImpact (getVacationDays (startDate w) (endDate w) ∅)
       timetable subjectMap globalThreshold subjectThresholds).

(** The penalty of [w] is the score of the impacts of its own days. *)
Definition scoredWindow
    (timetable : Timetable) (subjectMap : gmap string Subject)
    (globalThreshold : number) (subjectThresholds : gmap string number)
    (w : VacationWindow) : Prop :=
  scoreImpacts subjectMap globalThreshold subjectThresholds #0
    (windowImpacts timetable subjectMap globalThreshold subjectThresholds w)
  = Some (penalty w).

(** The largest of the window sizes. *)
Definition maxSize (windowSizes : list Z) : option Z :=
  match windowSizes with
  | [] => None
  | size :: rest => Some (foldl Z.max size rest)
  end.

(** The degenerate case as first worded: a horizon shorter than the
    largest window size leaves nothing to return. *)
Definition emptyBelowLargest
    (today : Z) (timetable : Timetable) (subjectMap : gmap string Subject)
    (globalThreshold : number) (subjectThresholds : gmap string number)
    (windowSizes : list Z) (weeksAhead : Z) : Prop :=
  forall largest : Z,
    maxSize windowSizes = Some largest ->
    (weeksAhead * 7 < largest)%Z ->
    findBestVacationWindows today timetable subjectMap globalThreshold
      subjectThresholds (Some windowSizes) (Some weeksAhead) = Some [].

(** Two windows overlap. *)
Definition overlap (a b : VacationWindow) : Prop :=
  (startDate a <= endDate b)%Z /\ (endDate a >= startDate b)%Z.

(** The classes missed on a day: none on a Sunday or a holiday. *)
Definition scheduled (timetable : Timetable) (day : VacationDay)
    : list string :=
  if isSunday day || isHoliday day then []
  else default [] (timetable !! timetableDayIndex day).

(** The code [c] is scheduled on one of the days. *)
Definition tallied (timetable : Timetable) (days : list VacationDay)
    (c : string) : Prop :=
  exists day, day ∈ days /\ c ∈ scheduled timetable day.

(** The counts of a subject are numbers and its total is not negative,
    as the data model requires. *)
Definition subject_ok (s : Subject) : Prop :=
  exists a t : Q, attended s = Fin a /\ total s = Fin t /\ (0 <= t)%Q.

Definition finite_drop (i : SubjectImpact) : Prop :=
  exists q : Q, drop i = Fin q.

(** An entry of the tally that holds a number. *)
Definition is_number (e : string * Count) : Prop :=
  exists n : nat, e.2 = count_number n.

(** No code scheduled on one of the days names a method that objects
    inherit from [Object.prototype]. *)
Definition plainCodes (timetable : Timetable) (days : list VacationDay)
    : Prop :=
  forall c, tallied timetable days c -> ObjectPrototype.isMethod c = false.


End Props.

(** Sample data: three subjects, one of them without classes yet, and a
    timetable for Monday and Wednesday that still lists the code [XX999] of
    a subject no longer in the map.  Day 20759 is Monday 2026-11-02. *)
Module Sample.
Import JS.
Local Open Scope js_scope.

Definition algorithms : Subject := mkSubject "Algorithms" "CS101" #10 #10 #100.
Definition biology : Subject := mkSubject "Biology" "CS102" #18 #25 #72.
Definition chemistry : Subject := mkSubject "Chemistry" "CS103" #0 #0 #0.

Definition subjects : gmap string Subject :=
  {[ "CS101" := algorithms; "CS102" := biology; "CS103" := chemistry ]}.

Definition timetable : Timetable :=
  {[ 0%Z := ["CS101"; "CS102"; "XX999"]; 2%Z := ["CS102"; "CS103"] ]}.

Definition monday : Z := 20759.







End Sample.


(* ===================================================================== *)
(** * Further definitions used to state properties *)
(* ===================================================================== *)

Module Props2.
Import JS Utils Builtins VacationPlanner Props.
Local Open Scope js_scope.

(** The number of times [k] occurs in [l]. *)
Fixpoint occurrences (k : string) (l : list string) : nat :=
  match l with
  | [] => O
  | c :: r => if decide (c = k) then S (occurrences k r) else occurrences k r
  end.

(** All the classes missed in a range, day after day. *)
Definition missedClasses (timetable : Timetable) (days : list VacationDay)
    : list string :=
  concat (scheduled timetable <$> days).

(** A day with at least one class that is neither a Sunday nor a
    holiday. *)
Definition isActive (timetable : Timetable) (day : VacationDay) : bool :=
  match scheduled timetable day with
  | [] => false
  | _ :: _ => true
  end.

(** The classes that a tally stands for: the number itself, or the
    digits appended to the text. *)
Definition classesOf (count : Count) : nat :=
  match count with
  | count_number n => n
  | count_text _ ones => ones
  end.

(** The tally of [k] in [codeCount], 0 without an own property. *)
Definition tallyOf (codeCount : list (string * Count)) (k : string) : nat :=
  match obj_get k codeCount with
  | Some count => classesOf count
  | None => 0%nat
  end.

(** No code of the list, or none scheduled on one of the days, or none of
    the timetable, is a name that objects inherit from
    [Object.prototype]. *)
Definition ownKeys (codes : list string) : Prop :=
  forall c, c ∈ codes -> ObjectPrototype.inherits c = false.

Definition ownCodes (timetable : Timetable) (days : list VacationDay)
    : Prop :=
  forall c, tallied timetable days c -> ObjectPrototype.inherits c = false.

Definition ownTimetable (timetable : Timetable) : Prop :=
  forall d codes, timetable !! d = Some codes -> ownKeys codes.

(** The code has a subject in the map. *)
Definition isKnown (subjectMap : gmap string Subject) (c : string) : bool :=
  match subjectMap !! c with
  | Some _ => true
  | None => false
  end.

(** The counts of a subject as the data model has them:
    [0 <= attended <= total]. *)
Definition subject_valid (s : Subject) : Prop :=
  exists a t : Q,
    attended s = Fin a /\ total s = Fin t /\ (0 <= a)%Q /\ (a <= t)%Q.

(** The key of the subject is no name that objects inherit from
    [Object.prototype]: without an override its threshold is the global
    one. *)
Definition own_subject (s : Subject) : Prop :=
  ObjectPrototype.inherits (getSubjectKey s) = false.


(** The candidate of [size] days that starts on [start].  The scoring loop
    raises no error on the impacts of a range ([scoreImpacts_window]), so
    the default is never taken. *)
Definition windowAt
    (timetable : Timetable) (subjectMap : gmap string Subject)
    (globalThreshold : number) (subjectThresholds : gmap string number)
    (size start : Z) : VacationWindow :=
  let windowEnd := (start + size - 1)%Z in
  let result :=
    calculateVacationImpact (getVacationDays start windowEnd ∅) timetable
      subjectMap globalThreshold subjectThresholds in
  {| startDate := start;
     endDate := windowEnd;
     duration := size;
     windowClasses := totalClasses result;
     atRiskCount := length (List.filter isAtRisk (impacts result));
     penalty :=
       default NaN
         (scoreImpacts subjectMap globalThreshold subjectThresholds #0
            (impacts result)) |}.

(** The candidates of one size, by first day from [today + 1] on, and the
    candidates of all sizes, size after size. *)
Definition windowsOfSize
    (timetable : Timetable) (subjectMap : gmap string Subject)
    (globalThreshold : number) (subjectThresholds : gmap string number)
    (today endScan size : Z) : list VacationWindow :=
  windowAt timetable subjectMap globalThreshold subjectThresholds size
    <$> seqZ (today + 1) (endScan - today - size + 1).

Definition allWindows
    (timetable : Timetable) (subjectMap : gmap string Subject)
    (globalThreshold : number) (subjectThresholds : gmap string number)
    (today endScan : Z) (windowSizes : list Z) : list VacationWindow :=
  concat
    (windowsOfSize timetable subjectMap globalThreshold subjectThresholds
       today endScan <$> windowSizes).

(** [a] costs no more than [b]. *)
Definition cheaper (a b : VacationWindow) : Prop :=
  (penalty a <=? penalty b) = true.

(** The class count of the impact is a number. *)
Definition numbered (i : SubjectImpact) : Prop :=
  exists n : nat, classCount i = count_number n.

Definition finite_penalty (w : VacationWindow) : Prop :=
  exists q : Q, penalty w = Fin q.

(** [attended * 100 / (total + j) >= threshold], as JavaScript evaluates
    it: missing [j] more classes keeps the subject at the threshold. *)
Definition stays (a tot th : Q) (j : Z) : bool :=
  Fin a * #100 / (Fin tot + #j) >=? Fin th.

(** What holds of the planner screen mounted on the day [today]: an end
    date comes with a start date, the start date is not before [today], the
    two dates are in order, every day marked as a holiday is a day of the
    range that is not a Sunday, and the suggestions are windows after
    [today] whose dates are in order. *)
Definition screen_ok (today : Z) (st : PlannerScreen.State) : Prop :=
  (PlannerScreen.startDate st = None -> PlannerScreen.endDate st = None) /\
  (forall s, PlannerScreen.startDate st = Some s -> (today <= s)%Z) /\
  (forall s e,
     PlannerScreen.startDate st = Some s ->
     PlannerScreen.endDate st = Some e -> (s <= e)%Z) /\
  (forall h, h ∈ PlannerScreen.holidays st ->
     exists s e d,
       PlannerScreen.startDate st = Some s /\
       PlannerScreen.endDate st = Some e /\
       (s <= d <= e)%Z /\ Calendar.getDay d <> 0%Z /\
       formatDateStr d = h) /\
  (forall ws, PlannerScreen.suggestions st = Some ws ->
     Forall (fun w => (today < startDate w)%Z /\ (startDate w <= endDate w)%Z)
       ws).

(** A whole number from [lo] to [hi]. *)
Definition whole_in (lo hi : Z) (v : number) : Prop :=
  exists z : Z, v ≈ #z /\ (lo <= z <= hi)%Z.

(** A gesture on a slider comes with numbers as width and position, and
    not with both at 0. *)
Definition gesture_defined (e : AttendanceCard.EditorEvent) : Prop :=
  match e with
  | AttendanceCard.gesture sliderWidth locationX =>
      exists w x : Q,
        sliderWidth = Fin w /\ locationX = Fin x /\
        ~ ((w == 0)%Q /\ (x == 0)%Q)
  | _ => True
  end.

(** The pill pressed is one of the presets. *)
Definition preset_shown (p : ThresholdModal.Press) : Prop :=
  match p with
  | ThresholdModal.press_preset value => value ∈ ThresholdModal.PRESETS
  | _ => True
  end.

End Props2.
(* ===================================================================== *)
(** * Properties of JavaScript numbers *)
(* ===================================================================== *)

Module NumberFacts.
Import JS.
Local Open Scope js_scope.

(** Splits on every comparison of rationals in the goal. *)
Ltac split_compare :=
  repeat match goal with
    | |- context [(?x ?= ?y)%Q] => destruct (Qcompare_spec x y)
    | H : context [(?x ?= ?y)%Q] |- _ => destruct (Qcompare_spec x y)
    end.

Lemma ltb_Fin x y : (Fin x <? Fin y) = true <-> (x < y)%Q.
Proof.
  unfold ltb, compare. split_compare; split; intros; try easy; lra.
Qed.

Lemma leb_Fin x y : (Fin x <=? Fin y) = true <-> (x <= y)%Q.
Proof.
  unfold leb, compare. split_compare; split; intros; try easy; lra.
Qed.

Lemma gtb_Fin x y : (Fin x >? Fin y) = true <-> (y < x)%Q.
Proof.
  unfold gtb, compare. split_compare; split; intros; try easy; lra.
Qed.

Lemma geb_Fin x y : (Fin x >=? Fin y) = true <-> (y <= x)%Q.
Proof.
  unfold geb, compare. split_compare; split; intros; try easy; lra.
Qed.

Lemma eqb_Fin x y : (Fin x === Fin y) = true <-> (x == y)%Q.
Proof.
  unfold eqb, compare. split_compare; split; intros; try easy; lra.
Qed.

Lemma compare_swap a b : compare b a = CompOpp <$> compare a b.
Proof.
  destruct a as [x| | |], b as [y| | |]; simpl; try reflexivity.
  now rewrite Qcompare_antisym.
Qed.

Lemma leb_geb a b : (a <=? b) = (b >=? a).
Proof.
  unfold leb, geb. rewrite (compare_swap a b).
  destruct (compare a b) as [[]|]; reflexivity.
Qed.

Lemma ltb_gtb a b : (a <? b) = (b >? a).
Proof.
  unfold ltb, gtb. rewrite (compare_swap a b).
  destruct (compare a b) as [[]|]; reflexivity.
Qed.

Lemma ltb_not_geb a b : (a <? b) = true -> (a >=? b) = false.
Proof. unfold ltb, geb. destruct (compare a b) as [[]|]; easy. Qed.

(** Below [t] is below [t + 5], also at the infinities. *)
Lemma ltb_add_5 p t : (p <? t) = true -> (p <? t + #5) = true.
Proof.
  destruct p as [x| | |], t as [y| | |]; simpl; try easy.
  rewrite !ltb_Fin. unfold inject_Z. lra.
Qed.

End NumberFacts.

(* ===================================================================== *)
(** * The status classifier *)
(* ===================================================================== *)

Import JS Utils TodayCard Props NumberFacts.
Local Open Scope js_scope.


Lemma standing_not_no_data p t : standing p t <> no_data.
Proof.
  unfold standing.
  destruct (p >=? t + #5); [easy|]. destruct (p >=? t); easy.
Qed.

Lemma calculateStatus_zero p t tot :
  (tot === #0) = true -> calculateStatus p t (Some tot) = no_data.
Proof. unfold calculateStatus. simpl. now intros ->. Qed.

Lemma calculateStatus_nonzero p t tot :
  (tot === #0) = false -> calculateStatus p t (Some tot) = standing p t.
Proof. unfold calculateStatus, standing. simpl. now intros ->. Qed.

(** C2. With [total = 0] the status is [no_data] whatever the percentage
    and the threshold; otherwise it is [safe] when
    [percentage >= threshold + 5], [critical] when
    [threshold <= percentage < threshold + 5], and [low] when
    [percentage < threshold]. *)
Theorem calculateStatus_classification (percentage threshold total : number) :
  ((total === #0) = true ->
     calculateStatus percentage threshold (Some total) = no_data) /\
  ((total === #0) = false ->
     ((percentage >=? threshold + #5) = true ->
        calculateStatus percentage threshold (Some total) = safe) /\
     ((threshold <=? percentage) = true ->
      (percentage <? threshold + #5) = true ->
        calculateStatus percentage threshold (Some total) = critical) /\
     ((percentage <? threshold) = true ->
        calculateStatus percentage threshold (Some total) = low)).
Proof.
  split; [apply calculateStatus_zero|].
  intros Hdata. rewrite (calculateStatus_nonzero _ _ _ Hdata).
  unfold standing. repeat split.
  - now intros ->.
  - intros Hge Hlt. rewrite leb_geb in Hge.
    now rewrite (ltb_not_geb _ _ Hlt), Hge.
  - intros Hlt.
    now rewrite (ltb_not_geb _ _ (ltb_add_5 _ _ Hlt)), (ltb_not_geb _ _ Hlt).
Qed.

(** The scenarios of the specification: 80 % against 75 is [safe], 77 % is
    [critical], 72 % is [low], and a subject without classes has no data. *)
Lemma calculateStatus_classification_witness :
  calculateStatus #50 #75 (Some #0) = no_data /\
  calculateStatus #80 #75 (Some #25) = safe /\
  calculateStatus #77 #75 (Some #100) = critical /\
  calculateStatus #72 #75 (Some #25) = low.
Proof.
  split; [|split; [|split]].
  - apply (proj1 (calculateStatus_classification #50 #75 #0)). reflexivity.
  - apply (proj2 (calculateStatus_classification #80 #75 #25));
      reflexivity.
  - apply (proj2 (calculateStatus_classification #77 #75 #100));
      reflexivity.
  - apply (proj2 (calculateStatus_classification #72 #75 #25));
      reflexivity.
Defined.

(** C10. [calculateStatus] answers [no_data] only when [total] is exactly
    0.  For a negative [total], and so for the default [-1] taken when the
    argument is omitted, the answer is [safe], [critical] or [low] and
    depends on the percentage and the threshold alone. *)
Theorem calculateStatus_no_data_only_at_zero
    (percentage threshold total : number) :
  (calculateStatus percentage threshold (Some total) = no_data <->
     (total === #0) = true) /\
  ((total <? #0) = true ->
     calculateStatus percentage threshold (Some total)
       = standing percentage threshold /\
     calculateStatus percentage threshold (Some total) <> no_data) /\
  calculateStatus percentage threshold None
    = calculateStatus percentage threshold (Some #(-1)) /\
  calculateStatus percentage threshold None = standing percentage threshold /\
  calculateStatus percentage threshold None <> no_data.
Proof.
  assert (Hneg : (total <? #0) = true -> (total === #0) = false).
  { unfold ltb, eqb. destruct (compare total #0) as [[]|]; easy. }
  repeat split.
  - intros H. destruct (total === #0) eqn:E; [easy|].
    rewrite (calculateStatus_nonzero _ _ _ E) in H.
    now apply standing_not_no_data in H.
  - apply calculateStatus_zero.
  - now apply calculateStatus_nonzero, Hneg.
  - rewrite (calculateStatus_nonzero _ _ _ (Hneg H)).
    apply standing_not_no_data.
  - apply standing_not_no_data.
Qed.

(** The overall attendance of 80 % against a threshold of 75, with and
    without a negative [total]. *)
Lemma calculateStatus_no_data_only_at_zero_witness :
  calculateStatus #80 #75 (Some #(-3)) = standing #80 #75 /\
  calculateStatus #80 #75 (Some #(-3)) <> no_data.
Proof.
  apply (proj1 (proj2 (calculateStatus_no_data_only_at_zero #80 #75 #(-3)))).
  reflexivity.
Defined.

(* ===================================================================== *)
(** * The verdict of a class slot *)
(* ===================================================================== *)

(** C7. The verdict is [no_data] when the subject has [total = 0];
    otherwise [skip] when the status is [safe] and
    [calculateClassesToBunk] is positive; otherwise [attend] when the
    status is [low]; otherwise [risky], which covers the status [critical]
    and the status [safe] without a positive number of classes to bunk. *)
Theorem getVerdict_cases (subject : Subject) (threshold : number) :
  let status :=
    calculateStatus (percentage subject) threshold (Some (total subject)) in
  let classesToBunk :=
    calculateClassesToBunk (attended subject) (total subject) threshold in
  getVerdict subject threshold =
    (if total subject === #0 then verdict_no_data
     else if is_safe status && (classesToBunk >? #0) then skip
     else if is_low status then attend
     else risky) /\
  ((total subject === #0) = false ->
     (status = critical -> getVerdict subject threshold = risky) /\
     (status = safe -> (classesToBunk >? #0) = false ->
        getVerdict subject threshold = risky)).
Proof.
  intros status classesToBunk.
  assert (Heq : getVerdict subject threshold =
    (if total subject === #0 then verdict_no_data
     else if is_safe status && (classesToBunk >? #0) then skip
     else if is_low status then attend
     else risky)).
  { unfold getVerdict. fold status. fold classesToBunk.
    destruct (total subject === #0) eqn:E.
    - unfold status. now rewrite (calculateStatus_zero _ _ _ E).
    - assert (Hs : status = standing (percentage subject) threshold)
        by now apply calculateStatus_nonzero.
      pose proof (standing_not_no_data (percentage subject) threshold) as Hn.
      rewrite <- Hs in Hn.
      destruct status; try easy; simpl; now destruct (classesToBunk >? #0). }
  split; [exact Heq|].
  intros E. rewrite Heq, E. split.
  - now intros ->.
  - now intros -> ->.
Qed.

(** 77 attended of 100 classes against a threshold of 75 is [critical],
    so the verdict is [risky]. *)
Lemma getVerdict_cases_witness :
  getVerdict (mkSubject "Algorithms" "CS101" #77 #100 #77) #75 = risky.
Proof.
  destruct (getVerdict_cases
              (mkSubject "Algorithms" "CS101" #77 #100 #77) #75) as [_ H].
  destruct (H eq_refl) as [Hcritical _].
  apply Hcritical. reflexivity.
Defined.

(* ===================================================================== *)
(** * Classes to bunk and classes to attend *)
(* ===================================================================== *)

Lemma max_zero_of_Z (c : Z) : max #0 #c = #(Z.max 0 c).
Proof.
  unfold max, compare, of_Z, Qcompare. simpl. rewrite Z.mul_1_r.
  now destruct c.
Qed.

Lemma inject_Z_le (x y : Z) : (x <= y)%Z <-> (inject_Z x <= inject_Z y)%Q.
Proof. now rewrite Zle_Qle. Qed.

Lemma inject_Z_lt (x y : Z) : (x < y)%Z <-> (inject_Z x < inject_Z y)%Q.
Proof. now rewrite Zlt_Qlt. Qed.

Lemma Qdiv_le_iff (n d y : Q) : (0 < d)%Q -> (n / d <= y <-> n <= y * d)%Q.
Proof.
  intros Hd. split; intros H.
  - assert (E : (n == n / d * d)%Q) by (field; intro; lra).
    rewrite E. apply Qmult_le_compat_r; lra.
  - apply Qle_shift_div_r; assumption.
Qed.

Lemma Qle_div_iff (n d y : Q) : (0 < d)%Q -> (y <= n / d <-> y * d <= n)%Q.
Proof.
  intros Hd. split; intros H.
  - assert (E : (n == n / d * d)%Q) by (field; intro; lra).
    rewrite E. apply Qmult_le_compat_r; lra.
  - apply Qle_shift_div_l; assumption.
Qed.

(** With a threshold other than zero the result is an integer. *)
Lemma classesToBunk_finite (a tot t : Q) :
  ~ (t == 0)%Q ->
  calculateClassesToBunk (Fin a) (Fin tot) (Fin t)
    = #(Z.max 0 (Qfloor (a * 100 / t - tot))).
Proof.
  intros Ht. unfold calculateClassesToBunk. simpl.
  destruct (Qeq_bool t 0) eqn:E; [now apply Qeq_bool_eq in E|].
  simpl. apply max_zero_of_Z.
Qed.

(** Below 100 the divisor [100 - threshold] is positive and the result is
    an integer. *)
Lemma classesToAttend_finite (a tot t : Q) :
  (t < 100)%Q ->
  calculateClassesToAttend (Fin a) (Fin tot) (Fin t)
    = #(Z.max 0 (Qceiling ((tot * t - a * 100) / (100 - t)))).
Proof.
  intros Ht. unfold calculateClassesToAttend.
  destruct (Fin t >=? #100) eqn:E.
  { apply geb_Fin in E. unfold inject_Z in E. lra. }
  simpl. destruct (Qeq_bool (inject_Z 100 - t) 0) eqn:E0.
  { apply Qeq_bool_eq in E0. unfold inject_Z in E0. lra. }
  simpl. apply max_zero_of_Z.
Qed.


Lemma classesToAttend_infinite_iff (a tot t : Q) :
  calculateClassesToAttend (Fin a) (Fin tot) (Fin t) = PosInf
    <-> (100 <= t)%Q.
Proof.
  destruct (Qlt_le_dec t 100) as [Hlt|Hge].
  - rewrite (classesToAttend_finite _ _ _ Hlt). split; [easy|lra].
  - split; [easy|]. intros _. unfold calculateClassesToAttend.
    assert (E : (Fin t >=? #100) = true) by now apply geb_Fin.
    now rewrite E.
Qed.

Lemma attains_iff (a tot t : Q) (j : Z) :
  (0 < tot + inject_Z j)%Q ->
  attains a tot t j = true
    <-> (t * (tot + inject_Z j) <= (a + inject_Z j) * 100)%Q.
Proof.
  intros Hpos. unfold attains. simpl.
  destruct (Qeq_bool (tot + inject_Z j) 0) eqn:E.
  { apply Qeq_bool_eq in E. lra. }
  rewrite geb_Fin. change (inject_Z 100) with 100%Q.
  apply Qle_div_iff. exact Hpos.
Qed.

(** With classes held and a threshold below 100, attending [j] more
    classes reaches the threshold exactly when [j] is at least the
    quotient that the code rounds up. *)
Lemma attains_iff_quotient (a tot t : Q) (j : Z) :
  (0 < tot)%Q -> (t < 100)%Q -> (0 <= j)%Z ->
  attains a tot t j = true
    <-> ((tot * t - a * 100) / (100 - t) <= inject_Z j)%Q.
Proof.
  intros Htot Ht Hj.
  assert (Hj' : (0 <= inject_Z j)%Q) by now apply (proj1 (inject_Z_le 0 j)).
  rewrite attains_iff by lra.
  rewrite Qdiv_le_iff by lra.
  split; intros H; lra.
Qed.

(** C3, as stated, fails for a subject without classes: with
    [attended = 0], [total = 0] and a threshold of 75 the function returns
    0, while [(0 + 0) * 100 / (0 + 0)] is [NaN] and not [>= 75]. *)
Lemma classesToAttend_spec_fails_without_classes :
  (0 <= 0)%Q /\ (0 <= 0)%Q /\
  calculateClassesToAttend #0 #0 #75 = #0 /\
  attains 0 0 75 0 = false /\
  ~ classesToAttend_spec 0 0 75.
Proof.
  repeat split; try easy.
  intros [_ H]. destruct (H eq_refl) as (k & Hk & _ & Hat & Hmin).
  assert (k = 0%Z) as ->.
  { change (calculateClassesToAttend (Fin 0) (Fin 0) (Fin 75)) with #0 in Hk.
    unfold of_Z in Hk. injection Hk as Hk. lia. }
  discriminate Hat.
Qed.

(** C3 (amended). [calculateClassesToAttend] returns [+Infinity] exactly
    when [threshold >= 100].  Below 100, for [attended >= 0] and
    [total >= attended] with [total > 0], it returns the least non-negative
    integer [k] with [(attended + k) * 100 / (total + k) >= threshold];
    with [total = 0] it returns 0, for which the quotient is [0 / 0]. *)
Theorem classesToAttend_minimal (a tot t : Q) :
  (0 <= a)%Q -> (a <= tot)%Q ->
  (calculateClassesToAttend (Fin a) (Fin tot) (Fin t) = PosInf
     <-> (100 <= t)%Q) /\
  ((0 < tot)%Q -> classesToAttend_spec a tot t) /\
  ((tot == 0)%Q -> (t < 100)%Q ->
     calculateClassesToAttend (Fin a) (Fin tot) (Fin t) = #0 /\
     attains a tot t 0 = false).
Proof.
  intros Ha Hat. split; [apply classesToAttend_infinite_iff|]. split.
  - intros Htot. split; [apply classesToAttend_infinite_iff|].
    intros Ht. rewrite (classesToAttend_finite _ _ _ Ht).
    set (x := ((tot * t - a * 100) / (100 - t))%Q).
    exists (Z.max 0 (Qceiling x)). split; [reflexivity|].
    split; [lia|]. split.
    + apply attains_iff_quotient; [assumption|assumption|lia|]. fold x.
      apply Qle_trans with (inject_Z (Qceiling x)); [apply Qle_ceiling|].
      apply (proj1 (inject_Z_le _ _)). lia.
    + intros j Hj Hj'.
      apply attains_iff_quotient in Hj'; [|assumption|assumption|assumption].
      fold x in Hj'.
      pose proof (Qceiling_lt x) as Hc.
      assert (Hlt : (inject_Z (Qceiling x - 1) < inject_Z j)%Q)
        by (apply Qlt_le_trans with x; assumption).
      apply (proj2 (inject_Z_lt _ _)) in Hlt. lia.
  - intros Htot Ht. assert (Ha0 : (a == 0)%Q) by lra. split.
    + rewrite (classesToAttend_finite _ _ _ Ht).
      assert (E : ((tot * t - a * 100) / (100 - t) == 0)%Q).
      { rewrite Htot, Ha0. field. intro. lra. }
      now rewrite E.
    + unfold attains. simpl.
      assert (E : Qeq_bool (tot + inject_Z 0) 0 = true).
      { apply Qeq_bool_iff. unfold inject_Z. lra. }
      rewrite E.
      destruct (Qcompare_spec ((a + inject_Z 0) * inject_Z 100) 0)
        as [_|H|H]; [reflexivity|..]; unfold inject_Z in H; lra.
Qed.

(** 18 of 25 classes attended against a threshold of 75: three more
    classes are needed, and no fewer will do. *)
Lemma classesToAttend_minimal_witness :
  classesToAttend_spec 18 25 75.
Proof.
  apply (proj1 (proj2 (classesToAttend_minimal 18 25 75
                         ltac:(easy) ltac:(easy)))).
  reflexivity.
Defined.

(** The scenarios of the specification. *)
Example classesToAttend_scenario :
  calculateStatus #72 #75 (Some #25) = low /\
  calculateClassesToAttend #18 #25 #75 = #3 /\
  calculateClassesToAttend #18 #25 #100 = PosInf.
Proof. repeat split. Qed.

Example classesToBunk_scenario :
  calculateStatus #80 #75 (Some #25) = safe /\
  calculateClassesToBunk #20 #25 #75 = #1.
Proof. repeat split. Qed.


(** C4, as stated, fails at the threshold 0, which lies in 0..100: with
    [attended = 0] the quotient [0 * 100 / 0] is [NaN], and so is the
    result, which is not [>= 0]. *)
Lemma classesToBunk_spec_fails_at_threshold_zero :
  (0 <= 0)%Q /\ (0 <= 5)%Q /\ (0 <= 0 <= 100)%Q /\
  calculateClassesToBunk #0 #5 #0 = NaN /\
  ~ classesToBunk_spec 0 5 0.
Proof.
  repeat split; try easy.
  intros [H _]. discriminate H.
Qed.

(** C4 (amended). For [attended >= 0], [total >= attended] and a threshold
    with [0 < threshold <= 100], [calculateClassesToBunk] returns the
    integer [k = max 0 (floor (attended * 100 / threshold - total))], which
    is [>= 0], and whenever [k > 0] then
    [attended * 100 / (total + k) >= threshold].  At the threshold 0 the
    quotient is a division by zero: the result is [NaN] when
    [attended = 0] and [+Infinity] when [attended > 0]. *)
Theorem classesToBunk_positive_threshold (a tot t : Q) :
  (0 <= a)%Q -> (a <= tot)%Q -> (0 <= t <= 100)%Q ->
  ((0 < t)%Q ->
     classesToBunk_spec a tot t /\
     calculateClassesToBunk (Fin a) (Fin tot) (Fin t)
       = #(Z.max 0 (Qfloor (a * 100 / t - tot)))) /\
  ((t == 0)%Q ->
     ((a == 0)%Q ->
        calculateClassesToBunk (Fin a) (Fin tot) (Fin t) = NaN) /\
     ((0 < a)%Q ->
        calculateClassesToBunk (Fin a) (Fin tot) (Fin t) = PosInf)).
Proof.
  intros Ha Hat Ht. split.
  - intros Hpos.
    assert (Hne : ~ (t == 0)%Q) by (intro; lra).
    pose proof (classesToBunk_finite a tot t Hne) as Hk.
    split; [|exact Hk].
    unfold classesToBunk_spec. rewrite Hk.
    set (f := Qfloor (a * 100 / t - tot)).
    split; [|split].
    + apply geb_Fin. apply (proj1 (inject_Z_le 0 _)). lia.
    + symmetry. exact Hk.
    + intros Hgt. apply gtb_Fin in Hgt.
      apply (proj2 (inject_Z_lt 0 _)) in Hgt.
      assert (Hkf : Z.max 0 f = f) by lia. rewrite Hkf.
      assert (Hf0 : (0 < inject_Z f)%Q)
        by (apply (proj1 (inject_Z_lt 0 f)); lia).
      pose proof (Qfloor_le (a * 100 / t - tot)) as Hfl. fold f in Hfl.
      simpl. destruct (Qeq_bool (tot + inject_Z f) 0) eqn:E.
      { apply Qeq_bool_eq in E. lra. }
      rewrite geb_Fin. change (inject_Z 100) with 100%Q.
      apply Qle_div_iff; [lra|].
      assert (Hq : (tot + inject_Z f <= a * 100 / t)%Q) by lra.
      apply Qle_div_iff in Hq; [|assumption]. lra.
  - intros Hz. unfold calculateClassesToBunk. simpl.
    assert (E : Qeq_bool t 0 = true) by now apply Qeq_bool_iff.
    rewrite E. change (inject_Z 100) with 100%Q. split.
    + intros Ha0.
      destruct (Qcompare_spec (a * 100) 0) as [_|Hlt|Hgt];
        [reflexivity|lra|lra].
    + intros Ha0.
      destruct (Qcompare_spec (a * 100) 0) as [Heq|Hlt|_];
        [lra|lra|reflexivity].
Qed.

(** 20 of 25 classes attended against a threshold of 75: one class may be
    missed, and [20 * 100 / 26 >= 75]. *)
Lemma classesToBunk_positive_threshold_witness :
  classesToBunk_spec 20 25 75 /\
  calculateClassesToBunk #20 #25 #75 = #1.
Proof.
  apply (proj1 (classesToBunk_positive_threshold 20 25 75
                  ltac:(easy) ltac:(easy) ltac:(easy))).
  reflexivity.
Defined.

(* ===================================================================== *)
(** * Sorting *)
(* ===================================================================== *)

Import Builtins Calendar VacationPlanner.

Section SortFacts.
Context {A : Type} (comparator : A -> A -> number).

Lemma sort_insert_perm (x : A) (l : list A) :
  sort_insert comparator x l ≡ₚ x :: l.
Proof.
  induction l as [|y ys IH]; simpl; [reflexivity|].
  destruct (comparator x y >? #0); [|reflexivity].
  rewrite IH. apply Permutation_swap.
Qed.

Lemma sort_perm (l : list A) : sort comparator l ≡ₚ l.
Proof.
  induction l as [|x xs IH]; simpl; [reflexivity|].
  unfold sort in IH. now rewrite sort_insert_perm, IH.
Qed.

Lemma elem_of_sort (x : A) (l : list A) : x ∈ sort comparator l <-> x ∈ l.
Proof. now rewrite sort_perm. Qed.

(** The comparator is a consistent ordering of the values in [P]. *)
Context (P : A -> Prop).
Hypothesis before_total :
  forall x y,
    P x -> P y -> (comparator x y >? #0) = true -> before comparator y x.
Hypothesis before_trans :
  forall x y z,
    P x -> P y -> P z ->
    before comparator x y -> before comparator y z -> before comparator x z.

Lemma sort_insert_sorted (x : A) (l : list A) :
  P x -> Forall P l ->
  StronglySorted (before comparator) l ->
  StronglySorted (before comparator) (sort_insert comparator x l).
Proof.
  intros Px. induction l as [|y ys IH]; intros HP Hs; simpl.
  - repeat constructor.
  - apply Forall_cons in HP as [Py HP].
    apply StronglySorted_inv in Hs as [Hs Hy].
    destruct (comparator x y >? #0) eqn:E.
    + constructor; [now apply IH|].
      rewrite sort_insert_perm. constructor; [|exact Hy].
      now apply before_total.
    + constructor; [now constructor|].
      constructor; [exact E|].
      rewrite Forall_forall in Hy, HP |- *. intros z Hz.
      apply before_trans with y; auto.
Qed.

Lemma sort_sorted (l : list A) :
  Forall P l -> StronglySorted (before comparator) (sort comparator l).
Proof.
  induction l as [|x xs IH]; intros HP; simpl; [constructor|].
  apply Forall_cons in HP as [Px HP].
  apply sort_insert_sorted; [assumption| |now apply IH].
  fold (sort comparator xs). now rewrite sort_perm.
Qed.
End SortFacts.

Lemma StronglySorted_lookup {A} (R : A -> A -> Prop) (l : list A) :
  StronglySorted R l ->
  forall i j x y, (i < j)%nat -> l !! i = Some x -> l !! j = Some y -> R x y.
Proof.
  induction 1 as [|a l Hs IH Ha]; intros i j x y Hij Hi Hj; [easy|].
  destruct j as [|j]; [lia|]. simpl in Hj.
  destruct i as [|i]; simpl in Hi.
  - injection Hi as <-. rewrite Forall_forall in Ha.
    apply Ha. eapply list_elem_of_lookup_2. exact Hj.
  - apply (IH i j); [lia|assumption|assumption].
Qed.

(* ===================================================================== *)
(** * The impact of a vacation range *)
(* ===================================================================== *)


Lemma impactOf_code gt st c n s : impactCode (impactOf gt st c n s) = c.
Proof. unfold impactOf. now destruct (total s === #0). Qed.

Section Impacts.
Context (subjectMap : gmap string Subject) (globalThreshold : number)
        (subjectThresholds : gmap string number).

Lemma pushImpact_known acc c n s :
  subjectMap !! c = Some s ->
  pushImpact subjectMap globalThreshold subjectThresholds acc (c, n)
    = acc ++ [impactOf globalThreshold subjectThresholds c n s].
Proof.
  intros H. unfold pushImpact, impactOf. rewrite H.
  now destruct (total s === #0).
Qed.

Lemma pushImpact_unknown acc c n :
  subjectMap !! c = None ->
  pushImpact subjectMap globalThreshold subjectThresholds acc (c, n) = acc.
Proof. intros H. unfold pushImpact. now rewrite H. Qed.

(** The impacts pushed are those of the entries with a subject. *)
Lemma elem_of_pushed (i : SubjectImpact) es acc :
  i ∈ foldl (pushImpact subjectMap globalThreshold subjectThresholds) acc es
  <-> i ∈ acc \/
      exists c n s, (c, n) ∈ es /\ subjectMap !! c = Some s /\
                    i = impactOf globalThreshold subjectThresholds c n s.
Proof.
  revert acc. induction es as [|[c n] es IH]; intros acc; cbn [foldl].
  - split; [now left|]. intros [H|(c & n & s & H & _)]; [easy|].
    now apply elem_of_nil in H.
  - rewrite IH. destruct (subjectMap !! c) as [s|] eqn:E.
    + rewrite (pushImpact_known _ _ _ _ E), elem_of_app, list_elem_of_singleton.
      split.
      * intros [[H|H]|(c' & n' & s' & H & Hs & Hi)].
        -- now left.
        -- right. exists c, n, s. split; [left|]; easy.
        -- right. exists c', n', s'. split; [now right|]; easy.
      * intros [H|(c' & n' & s' & H & Hs & Hi)]; [now left; left|].
        apply elem_of_cons in H as [H|H].
        -- injection H as -> ->. rewrite E in Hs. injection Hs as <-.
           left. now right.
        -- right. now exists c', n', s'.
    + rewrite (pushImpact_unknown _ _ _ E). split.
      * intros [H|(c' & n' & s' & H & Hs & Hi)]; [now left|].
        right. exists c', n', s'. split; [now right|]; easy.
      * intros [H|(c' & n' & s' & H & Hs & Hi)]; [now left|].
        apply elem_of_cons in H as [H|H].
        -- injection H as -> ->. now rewrite E in Hs.
        -- right. now exists c', n', s'.
Qed.

(** Every impact returned stems from a subject of the map, under the
    code it is filed under. *)
Lemma impact_has_subject days (timetable : Timetable) (i : SubjectImpact) :
  i ∈ impacts (calculateVacationImpact days timetable subjectMap
                 globalThreshold subjectThresholds) ->
  exists n s, subjectMap !! impactCode i = Some s /\
              i = impactOf globalThreshold subjectThresholds
                    (impactCode i) n s.
Proof.
  unfold calculateVacationImpact. simpl. rewrite elem_of_sort, elem_of_pushed.
  intros [H|(c & n & s & _ & Hs & ->)]; [now apply elem_of_nil in H|].
  rewrite impactOf_code. now exists n, s.
Qed.
End Impacts.

(** [Object.entries] lists every key once, whatever the order. *)
Lemma entries_perm {V} (o : list (string * V)) : entries o ≡ₚ o.
Proof.
  unfold entries. rewrite (Permutation_map snd (sort_perm _ _)).
  induction o as [|e o IH]; [reflexivity|].
  cbn [omap list_omap List.filter]. unfold index_entry at 1, is_named at 1.
  destruct (array_index e.1); cbn [map snd app].
  - now rewrite IH.
  - rewrite <- Permutation_middle. now rewrite IH.
Qed.

Lemma obj_set_keys {V} (key k : string) (v : V) (o : list (string * V)) :
  k ∈ (obj_set key v o).*1 <-> k = key \/ k ∈ o.*1.
Proof.
  induction o as [|[k' w] o IH]; simpl.
  - rewrite list_elem_of_singleton. split; [now left|].
    intros [H|H]; [exact H|now apply elem_of_nil in H].
  - destruct (decide (k' = key)) as [->|Hne]; simpl.
    + rewrite !elem_of_cons. tauto.
    + rewrite !elem_of_cons, IH. tauto.
Qed.

Lemma obj_get_key {V} (key : string) (v : V) (o : list (string * V)) :
  obj_get key o = Some v -> key ∈ o.*1.
Proof.
  induction o as [|[k w] o IH]; simpl; [discriminate|].
  destruct (decide (k = key)) as [->|Hne]; [now left|].
  intros H. right. now apply IH.
Qed.

(** One count: the code becomes a key of the tally, unless it is
    [__proto__]. *)
Lemma countCode_key (k c : string) (cc : list (string * Count)) :
  k ∈ (countCode cc c).*1
    <-> (k = c /\ ObjectPrototype.isProto c = false) \/ k ∈ cc.*1.
Proof.
  unfold countCode.
  destruct (obj_get c cc) as [[n|m ones]|] eqn:E.
  - apply obj_get_key in E. rewrite obj_set_keys.
    split; [intros [->|H]; now right|intros [[-> _]|H]; now right].
  - apply obj_get_key in E. rewrite obj_set_keys.
    split; [intros [->|H]; now right|intros [[-> _]|H]; now right].
  - destruct (ObjectPrototype.isProto c) eqn:Ep.
    + split; [now right|]. now intros [[_ H]|H].
    + destruct (ObjectPrototype.isMethod c); rewrite obj_set_keys;
        (split; [intros [->|H]; [now left|now right]
                |intros [[-> _]|H]; [now left|now right]]).
Qed.

Lemma countCode_keys (k : string) (codes : list string) :
  forall cc : list (string * Count),
    k ∈ (foldl countCode cc codes).*1
      <-> (k ∈ codes /\ ObjectPrototype.isProto k = false) \/ k ∈ cc.*1.
Proof.
  induction codes as [|c codes IH]; intros cc; cbn [foldl].
  - split; [now right|].
    intros [[H _]|H]; [now apply elem_of_nil in H|exact H].
  - rewrite IH, countCode_key, elem_of_cons. split.
    + intros [[H Hp]|[[-> Hp]|H]]; [left|left|now right].
      * split; [now right|exact Hp].
      * split; [now left|exact Hp].
    + intros [[[->|H] Hp]|H].
      * right. now left.
      * left. now split.
      * right. now right.
Qed.

Lemma tallyDay_keys (timetable : Timetable) (t : Tally) (day : VacationDay)
    (k : string) :
  k ∈ (codeCount (tallyDay timetable t day)).*1
    <-> (k ∈ scheduled timetable day /\ ObjectPrototype.isProto k = false)
        \/ k ∈ (codeCount t).*1.
Proof.
  unfold tallyDay, scheduled.
  destruct (isSunday day || isHoliday day).
  { split; [now right|].
    intros [[H _]|H]; [now apply elem_of_nil in H|exact H]. }
  destruct (default [] (timetable !! timetableDayIndex day)) as [|c codes].
  { split; [now right|].
    intros [[H _]|H]; [now apply elem_of_nil in H|exact H]. }
  cbn [length Nat.eqb codeCount]. apply countCode_keys.
Qed.

Lemma tally_keys (timetable : Timetable) (k : string)
    (days : list VacationDay) :
  forall t : Tally,
    k ∈ (codeCount (foldl (tallyDay timetable) t days)).*1
      <-> (tallied timetable days k /\ ObjectPrototype.isProto k = false)
          \/ k ∈ (codeCount t).*1.
Proof.
  unfold tallied.
  induction days as [|day days IH]; intros t; cbn [foldl].
  - split; [now right|]. intros [[(d & H & _) _]|H]; [|exact H].
    now apply elem_of_nil in H.
  - rewrite IH, tallyDay_keys. split.
    + intros [[(d & Hd & Hk) Hp]|[[H Hp]|H]].
      * left. split; [|exact Hp]. exists d. split; [now right|exact Hk].
      * left. split; [|exact Hp]. exists day. split; [now left|exact H].
      * now right.
    + intros [[(d & Hd & Hk) Hp]|H]; [|now right; right].
      apply elem_of_cons in Hd as [->|Hd]; [right; now left|].
      left. split; [now exists d|exact Hp].
Qed.

(** The codes of the impacts returned are the codes scheduled on a day of
    the range that have a subject in the map, [__proto__] apart, which is
    never tallied. *)
Lemma impact_codes
    (days : list VacationDay) (timetable : Timetable)
    (subjectMap : gmap string Subject) gt st (c : string) :
  c ∈ impactCode <$>
        impacts (calculateVacationImpact days timetable subjectMap gt st)
    <-> tallied timetable days c /\ ObjectPrototype.isProto c = false /\
        is_Some (subjectMap !! c).
Proof.
  rewrite list_elem_of_fmap. split.
  - intros (i & -> & Hi). pose proof Hi as Hi'.
    apply impact_has_subject in Hi' as (n & s & Hs & _).
    assert (Hgoal : forall P Q R : Prop, P /\ Q -> R -> P /\ Q /\ R) by tauto.
    apply Hgoal; [|now exists s].
    unfold calculateVacationImpact in Hi. cbn [impacts] in Hi.
    apply elem_of_sort, elem_of_pushed in Hi
      as [Hi|(c & n' & s' & Hin & _ & ->)]; [now apply elem_of_nil in Hi|].
    rewrite impactOf_code. rewrite entries_perm in Hin.
    assert (Hk : c ∈ (codeCount
                        (foldl (tallyDay timetable) (mkTally [] 0 0) days)).*1).
    { apply list_elem_of_fmap. now exists (c, n'). }
    apply tally_keys in Hk as [Hk|Hk]; [exact Hk|].
    now apply elem_of_nil in Hk.
  - intros (Ht & Hp & [s Hs]).
    assert (Hk : c ∈ (codeCount
                        (foldl (tallyDay timetable) (mkTally [] 0 0) days)).*1)
      by (apply tally_keys; now left).
    apply list_elem_of_fmap in Hk as ([c' n] & Hc & Hin). simpl in Hc.
    subst c'. exists (impactOf gt st c n s).
    split; [now rewrite impactOf_code|].
    unfold calculateVacationImpact. cbn [impacts].
    apply elem_of_sort, elem_of_pushed. right. exists c, n, s.
    split; [now rewrite entries_perm|]. easy.
Qed.

(** The scenario of the specification: the timetable schedules [CS101]
    and [CS102] on Monday, the range is one Monday without holidays, and
    [CS101] stands at 10 of 10 classes. *)
Example monday_scenario :
  let result :=
    calculateVacationImpact
      (getVacationDays Sample.monday Sample.monday ∅)
      {[ 0%Z := ["CS101"; "CS102"] ]} {[ "CS101" := Sample.algorithms ]}
      #75 ∅ in
  activeDays result = 1%nat /\ totalClasses result = 2%nat /\
  totalDays result = 1%nat /\
  exists i : SubjectImpact,
    impacts result = [i] /\ impactCode i = "CS101" /\
    classCount i = count_number 1 /\ isNoData i = false /\
    currentPct i ≈ #100 /\ projectedPct i ≈ Fin (Qmake 1000 11).
Proof.
  repeat split. eexists. split; [reflexivity|]. repeat split.
Qed.

Example monday_is_a_monday :
  formatDateStr Sample.monday = "2026-11-02" /\ getDay Sample.monday = 1%Z /\
  formatDateStr 0 = "1970-01-01" /\ getDay 0 = 4%Z.
Proof. repeat split. Qed.

(** C9. A code of the timetable that has no subject in the subject map
    yields no entry among the impacts; [calculateVacationImpact] is a total
    function and returns its result all the same. *)
Theorem unknown_code_has_no_impact
    (days : list VacationDay) (timetable : Timetable)
    (subjectMap : gmap string Subject) (globalThreshold : number)
    (subjectThresholds : gmap string number) (unknown : string) :
  subjectMap !! unknown = None ->
  forall i : SubjectImpact,
    i ∈ impacts (calculateVacationImpact days timetable subjectMap
                   globalThreshold subjectThresholds) ->
    impactCode i <> unknown.
Proof.
  intros Hnone i Hi Hc.
  destruct (impact_has_subject _ _ _ _ _ _ Hi) as (n & s & Hs & _).
  rewrite Hc, Hnone in Hs. discriminate Hs.
Qed.

(** The Monday of the sample data tallies [XX999], which has no subject. *)
Lemma unknown_code_has_no_impact_witness :
  Forall (fun i => impactCode i <> "XX999")
    (impacts (calculateVacationImpact
                (getVacationDays Sample.monday Sample.monday ∅)
                Sample.timetable Sample.subjects #75 ∅)).
Proof.
  apply Forall_forall.
  apply (unknown_code_has_no_impact _ Sample.timetable Sample.subjects).
  reflexivity.
Defined.

(* ===================================================================== *)
(** * The order of the impacts *)
(* ===================================================================== *)

Lemma gtb_Fin_false x y : (Fin x >? Fin y) = false <-> (x <= y)%Q.
Proof.
  destruct (Fin x >? Fin y) eqn:E.
  - apply gtb_Fin in E. split; [easy|lra].
  - split; [|easy]. intros _.
    destruct (Qlt_le_dec y x) as [H|H]; [|exact H].
    apply gtb_Fin in H. congruence.
Qed.

Lemma impactOf_finite_drop gt st c (n : nat) s :
  subject_ok s -> finite_drop (impactOf gt st c (count_number n) s).
Proof.
  intros (a & t & Ha & Ht & Hpos). unfold impactOf, finite_drop.
  destruct (total s === #0) eqn:E; [now eexists|].
  rewrite Ht in E.
  assert (Hne : ~ (t == 0)%Q).
  { intros H. apply (proj2 (eqb_Fin t (inject_Z 0))) in H.
    unfold of_Z in E. congruence. }
  assert (Hn : (0 <= inject_Z (Z.of_nat n))%Q)
    by (apply (proj1 (inject_Z_le 0 _)); lia).
  unfold dataImpact. simpl. rewrite Ha, Ht. simpl.
  destruct (Qeq_bool t 0) eqn:E1; [now apply Qeq_bool_eq in E1|].
  destruct (Qeq_bool (t + inject_Z (Z.of_nat n)) 0) eqn:E2.
  { apply Qeq_bool_eq in E2. lra. }
  now eexists.
Qed.



(** ** The tally holds numbers when the codes are plain *)

Lemma obj_get_In {V} (key : string) (v : V) (o : list (string * V)) :
  obj_get key o = Some v -> (key, v) ∈ o.
Proof.
  induction o as [|[k w] o IH]; simpl; [discriminate|].
  destruct (decide (k = key)) as [->|Hne].
  - intros H. injection H as ->. now left.
  - intros H. right. now apply IH.
Qed.

Lemma obj_set_Forall {V} (P : string * V -> Prop) key v
    (o : list (string * V)) :
  P (key, v) -> Forall P o -> Forall P (obj_set key v o).
Proof.
  intros Hv. induction 1 as [|[k w] o Hk Ho IH]; simpl.
  - now repeat constructor.
  - destruct (decide (k = key)) as [->|Hne]; now constructor.
Qed.

Lemma countCode_numbers (cc : list (string * Count)) (c : string) :
  ObjectPrototype.isMethod c = false ->
  Forall is_number cc -> Forall is_number (countCode cc c).
Proof.
  intros Hc Hcc. unfold countCode.
  destruct (obj_get c cc) as [[n|m ones]|] eqn:E.
  - apply obj_set_Forall; [now eexists|exact Hcc].
  - apply obj_get_In in E. rewrite Forall_forall in Hcc.
    destruct (Hcc _ E) as [n Hn]. discriminate Hn.
  - destruct (ObjectPrototype.isProto c); [exact Hcc|]. rewrite Hc.
    apply obj_set_Forall; [now eexists|exact Hcc].
Qed.

Lemma tallyDay_numbers (timetable : Timetable) (t : Tally)
    (day : VacationDay) :
  (forall c, c ∈ scheduled timetable day ->
             ObjectPrototype.isMethod c = false) ->
  Forall is_number (codeCount t) ->
  Forall is_number (codeCount (tallyDay timetable t day)).
Proof.
  unfold tallyDay, scheduled. intros Hplain Ht.
  destruct (isSunday day || isHoliday day); [exact Ht|].
  destruct (length _ =? 0)%nat; [exact Ht|]. cbn [codeCount].
  revert Hplain. generalize (codeCount t) Ht.
  induction (default [] (timetable !! timetableDayIndex day))
    as [|c codes IH]; intros cc Hcc Hplain; cbn [foldl]; [exact Hcc|].
  apply IH.
  - apply countCode_numbers; [|exact Hcc]. apply Hplain. now left.
  - intros c' Hc'. apply Hplain. now right.
Qed.

Lemma tally_numbers (timetable : Timetable) (days : list VacationDay) :
  plainCodes timetable days ->
  forall t : Tally,
    Forall is_number (codeCount t) ->
    Forall is_number (codeCount (foldl (tallyDay timetable) t days)).
Proof.
  unfold plainCodes, tallied.
  induction days as [|day days IH]; intros Hplain t Ht; cbn [foldl];
    [exact Ht|].
  apply IH.
  - intros c (d & Hd & Hc). apply Hplain. exists d. split; [now right|easy].
  - apply tallyDay_numbers; [|exact Ht].
    intros c Hc. apply Hplain. exists day. split; [now left|easy].
Qed.

Lemma impacts_finite_drop days (timetable : Timetable)
    (subjectMap : gmap string Subject) gt st :
  (forall k s, subjectMap !! k = Some s -> subject_ok s) ->
  plainCodes timetable days ->
  Forall finite_drop
    (impacts (calculateVacationImpact days timetable subjectMap gt st)).
Proof.
  intros Hok Hplain. apply Forall_forall. intros i Hi.
  unfold calculateVacationImpact in Hi. cbn [impacts] in Hi.
  apply elem_of_sort, elem_of_pushed in Hi
    as [Hi|(c & n & s & Hin & Hs & ->)]; [now apply elem_of_nil in Hi|].
  rewrite entries_perm in Hin.
  pose proof (tally_numbers timetable days Hplain (mkTally [] 0 0)
                ltac:(constructor)) as Hnum.
  rewrite Forall_forall in Hnum. destruct (Hnum _ Hin) as [m Hm].
  simpl in Hm. subst n. apply impactOf_finite_drop. now apply (Hok c).
Qed.





(* ===================================================================== *)
(** * The penalty of a window *)
(* ===================================================================== *)

#[global] Instance num_eq_equiv : Equivalence num_eq.
Proof.
  split.
  - intros [x| | |]; simpl; easy.
  - intros [x| | |] [y| | |]; simpl; easy.
  - intros [x| | |] [y| | |] [z| | |]; simpl; try easy.
    intros ->. easy.
Qed.

#[global] Instance add_proper : Proper (num_eq ==> num_eq ==> num_eq) add.
Proof.
  intros [x| | |] [x'| | |] Hx [y| | |] [y'| | |] Hy; simpl in *; try easy.
  now rewrite Hx, Hy.
Qed.

Lemma add_assoc (a b c : number) : (a + b) + c ≈ a + (b + c).
Proof.
  destruct a as [x| | |], b as [y| | |], c as [z| | |]; simpl; try easy.
  ring.
Qed.

Lemma add_0_l (a : number) : #0 + a ≈ a.
Proof. destruct a as [x| | |]; simpl; try easy. unfold inject_Z. ring. Qed.

Lemma add_0_r (a : number) : a + #0 ≈ a.
Proof. destruct a as [x| | |]; simpl; try easy. unfold inject_Z. ring. Qed.

(** The two wordings of the weight agree. *)
Lemma weightOf_spec (margin : number) : weightOf margin = weightSpec margin.
Proof.
  unfold weightOf, weightSpec.
  destruct (margin <? #0) eqn:E0; [reflexivity|].
  destruct (margin <? #5) eqn:E5; [|now rewrite andb_false_r].
  assert (H : (#0 <=? margin) = true); [|now rewrite H].
  destruct margin as [x| | |]; try easy.
  apply leb_Fin. apply ltb_Fin in E5.
  destruct (Qlt_le_dec x (inject_Z 0)) as [H|H]; [|exact H].
  apply ltb_Fin in H. unfold of_Z in E0. congruence.
Qed.

(** The scoring loop raises no error on impacts that stand for subjects of
    the map, and adds the specified penalty to the running one. *)
Lemma scoreImpacts_spec
    (subjectMap : gmap string Subject) gt st (l : list SubjectImpact) :
  (forall i, i ∈ l -> is_Some (subjectMap !! impactCode i)) ->
  forall p0 : number,
  exists p : number,
    scoreImpacts subjectMap gt st p0 l = Some p /\
    p ≈ p0 + penaltySpec subjectMap gt st l.
Proof.
  induction l as [|i l IH]; intros Hl p0.
  - exists p0. split; [reflexivity|]. unfold penaltySpec. simpl.
    now rewrite add_0_r.
  - assert (Hl' : forall i', i' ∈ l -> is_Some (subjectMap !! impactCode i'))
      by (intros i' Hi'; apply Hl; now right).
    destruct (Hl i ltac:(left)) as [s Hs].
    cbn [scoreImpacts]. unfold penaltySpec. cbn [List.filter].
    destruct (isNoData i) eqn:E; cbn [negb].
    + apply IH. exact Hl'.
    + rewrite Hs. cbn [foldr].
      destruct (IH Hl'
        (p0 + drop i * weightOf (currentPct i - getEffectiveThreshold s gt st)
                * countNumber (classCount i))) as (p & Hp & Heq).
      exists p. split; [exact Hp|].
      rewrite Heq, add_assoc. unfold penaltySpec.
      unfold penaltyTerm, thresholdOf. now rewrite Hs, weightOf_spec.
Qed.

(* ===================================================================== *)
(** * The scan for candidate windows *)
(* ===================================================================== *)

(** The loops leave within their budget: more fuel changes nothing. *)
Lemma getVacationDays_loop_stable (holidays : gset string) (end_ : Z) :
  forall (n fuel : nat) (current : Z),
    (Z.to_nat (end_ - current + 1) <= n)%nat -> (n <= fuel)%nat ->
    getVacationDays_loop fuel current end_ holidays
      = getVacationDays_loop n current end_ holidays.
Proof.
  induction n as [|n IH]; intros fuel current Hn Hfuel.
  - assert (E : (current <=? end_)%Z = false) by lia.
    destruct fuel; simpl; [reflexivity|now rewrite E].
  - destruct fuel as [|fuel]; [lia|]. simpl.
    destruct (current <=? end_)%Z eqn:E; [|reflexivity].
    f_equal. apply IH; lia.
Qed.

Lemma scanWindows_stable
    (timetable : Timetable) (subjectMap : gmap string Subject) gt st
    (size endScan : Z) :
  forall (n fuel : nat) (current : Z) (candidates : list VacationWindow),
    (Z.to_nat (endScan - (current + size - 1) + 1) <= n)%nat ->
    (n <= fuel)%nat ->
    scanWindows fuel timetable subjectMap gt st size endScan current candidates
      = scanWindows n timetable subjectMap gt st size endScan current
          candidates.
Proof.
  induction n as [|n IH]; intros fuel current candidates Hn Hfuel.
  - assert (E : (current + size - 1 >? endScan)%Z = true) by lia.
    destruct fuel; cbn [scanWindows]; [reflexivity|now rewrite E].
  - destruct fuel as [|fuel]; [lia|]. cbn [scanWindows].
    destruct (current + size - 1 >? endScan)%Z eqn:E; [reflexivity|].
    destruct (scoreImpacts _ _ _ _ _); [|reflexivity].
    apply IH; lia.
Qed.

(** The budget of [scanSizes] is the one of the lemma for the first
    window, which starts on [today + 1]. *)
Lemma scanBudget_enough (today endScan size : Z) :
  scanBudget today endScan size
    = Z.to_nat (endScan - ((today + 1) + size - 1) + 1).
Proof. unfold scanBudget. f_equal. lia. Qed.

Section Scan.
Context (timetable : Timetable) (subjectMap : gmap string Subject)
        (globalThreshold : number) (subjectThresholds : gmap string number).

Lemma scoreImpacts_window (current windowEnd : Z) :
  exists p : number,
    scoreImpacts subjectMap globalThreshold subjectThresholds #0
      (impacts (calculateVacationImpact (getVacationDays current windowEnd ∅)
                  timetable subjectMap globalThreshold subjectThresholds))
    = Some p.
Proof.
  destruct (scoreImpacts_spec subjectMap globalThreshold subjectThresholds
              (impacts (calculateVacationImpact
                          (getVacationDays current windowEnd ∅) timetable
                          subjectMap globalThreshold subjectThresholds)))
    with (p0 := #0) as (p & Hp & _); [|now exists p].
  intros i Hi.
  destruct (impact_has_subject _ _ _ _ _ _ Hi) as (n & s & Hs & _).
  now exists s.
Qed.

(** The scan raises no error, keeps the candidates it starts with, and
    every window it adds is scored on its own days. *)
Lemma scanWindows_scored (size endScan : Z) (fuel : nat) :
  forall (current : Z) (candidates : list VacationWindow),
  exists out : list VacationWindow,
    scanWindows fuel timetable subjectMap globalThreshold subjectThresholds
      size endScan current candidates = Some out /\
    forall w, w ∈ out ->
      w ∈ candidates \/
      scoredWindow timetable subjectMap globalThreshold subjectThresholds w.
Proof.
  induction fuel as [|fuel IH]; intros current candidates;
    cbn [scanWindows].
  - exists candidates. split; [reflexivity|]. now left.
  - destruct (current + size - 1 >? endScan)%Z.
    { exists candidates. split; [reflexivity|]. now left. }
    destruct (scoreImpacts_window current (current + size - 1)) as [p Hp].
    rewrite Hp.
    match goal with
    | |- context [scanWindows _ _ _ _ _ _ _ _ (candidates ++ [?w])] =>
        destruct (IH (current + 1)%Z (candidates ++ [w])) as (out & Ho & Hin)
    end.
    exists out. split; [exact Ho|].
    intros w Hw. destruct (Hin w Hw) as [H|H]; [|now right].
    apply elem_of_app in H as [H|H]; [now left|right].
    apply list_elem_of_singleton in H as ->. exact Hp.
Qed.

Lemma scanSizes_scored (today endScan : Z) (windowSizes : list Z) :
  forall candidates : list VacationWindow,
  exists out : list VacationWindow,
    scanSizes timetable subjectMap globalThreshold subjectThresholds today
      endScan windowSizes candidates = Some out /\
    forall w, w ∈ out ->
      w ∈ candidates \/
      scoredWindow timetable subjectMap globalThreshold subjectThresholds w.
Proof.
  induction windowSizes as [|size rest IH]; intros candidates;
    cbn [scanSizes].
  - exists candidates. split; [reflexivity|]. now left.
  - destruct (scanWindows_scored size endScan
                (scanBudget today endScan size) (today + 1)%Z candidates)
      as (mid & Hmid & Hin).
    rewrite Hmid. destruct (IH mid) as (out & Hout & Hin').
    exists out. split; [exact Hout|].
    intros w Hw. destruct (Hin' w Hw) as [H|H]; [|now right].
    now apply Hin.
Qed.

Lemma candidateWindows_scored (today : Z) windowSizes weeksAhead :
  exists candidates : list VacationWindow,
    candidateWindows today timetable subjectMap globalThreshold
      subjectThresholds windowSizes weeksAhead = Some candidates /\
    forall w, w ∈ candidates ->
      scoredWindow timetable subjectMap globalThreshold subjectThresholds w.
Proof.
  unfold candidateWindows.
  match goal with
  | |- context [scanSizes _ _ _ _ ?t ?e ?ws []] =>
      destruct (scanSizes_scored t e ws []) as (out & Hout & Hin)
  end.
  exists out. split; [exact Hout|].
  intros w Hw. destruct (Hin w Hw) as [H|H]; [|exact H].
  now apply elem_of_nil in H.
Qed.

End Scan.

(* ===================================================================== *)
(** * The selection of the windows *)
(* ===================================================================== *)

Lemma overlapsWith_overlap (c r : VacationWindow) :
  overlapsWith c r = true <-> overlap c r.
Proof. unfold overlapsWith, overlap. lia. Qed.

Lemma overlap_sym (a b : VacationWindow) : overlap a b <-> overlap b a.
Proof. unfold overlap. lia. Qed.

Lemma selectWindows_elem (w : VacationWindow) :
  forall candidates results,
    w ∈ selectWindows results candidates -> w ∈ results \/ w ∈ candidates.
Proof.
  induction candidates as [|c rest IH]; intros results; cbn [selectWindows].
  - now left.
  - destruct (existsb (overlapsWith c) results).
    + intros H. destruct (IH _ H); [now left|right; now right].
    + destruct (3 <=? length (results ++ [c]))%nat.
      * rewrite elem_of_app, list_elem_of_singleton.
        intros [H| ->]; [now left|right; now left].
      * intros H. destruct (IH _ H) as [H'|H']; [|right; now right].
        apply elem_of_app in H' as [H'|H']; [now left|].
        apply list_elem_of_singleton in H' as ->. right. now left.
Qed.

Lemma selectWindows_length :
  forall candidates results,
    (length results < 3)%nat ->
    (length (selectWindows results candidates) <= 3)%nat.
Proof.
  induction candidates as [|c rest IH]; intros results Hlen;
    cbn [selectWindows].
  - lia.
  - destruct (existsb (overlapsWith c) results); [now apply IH|].
    destruct (3 <=? length (results ++ [c]))%nat eqn:E.
    + rewrite length_app. simpl. lia.
    + apply IH. now apply Nat.leb_gt in E.
Qed.

(** No window overlaps one selected before it. *)
Lemma selectWindows_apart :
  forall candidates results,
    StronglySorted (fun a b => ~ overlap a b) results ->
    StronglySorted (fun a b => ~ overlap a b)
      (selectWindows results candidates).
Proof.
  induction candidates as [|c rest IH]; intros results Hs;
    cbn [selectWindows]; [exact Hs|].
  destruct (existsb (overlapsWith c) results) eqn:E; [now apply IH|].
  assert (Hs' : StronglySorted (fun a b => ~ overlap a b) (results ++ [c])).
  { apply StronglySorted_app_2; [|exact Hs|repeat constructor].
    intros a b Ha Hb. apply list_elem_of_singleton in Hb as ->.
    intros Hov. apply overlap_sym, overlapsWith_overlap in Hov.
    assert (existsb (overlapsWith c) results = true); [|congruence].
    apply existsb_exists. exists a. split; [|exact Hov].
    now apply list_elem_of_In. }
  destruct (3 <=? length (results ++ [c]))%nat; [exact Hs'|now apply IH].
Qed.

(** C5. Every candidate window that [findBestVacationWindows] scores, and
    so every window it returns, has as penalty the sum over the impacts
    with data of [drop * weight * classCount], where the margin is
    [currentPct] minus the effective threshold of the subject and the
    weight is 3 for a negative margin, 2 for a margin in [0, 5) and 1
    otherwise. *)
Theorem penalty_is_weighted_sum
    (today : Z) (timetable : Timetable) (subjectMap : gmap string Subject)
    (globalThreshold : number) (subjectThresholds : gmap string number)
    (windowSizes : option (list Z)) (weeksAhead : option Z) :
  exists candidates results : list VacationWindow,
    candidateWindows today timetable subjectMap globalThreshold
      subjectThresholds windowSizes weeksAhead = Some candidates /\
    findBestVacationWindows today timetable subjectMap globalThreshold
      subjectThresholds windowSizes weeksAhead = Some results /\
    Forall
      (fun w =>
         penalty w ≈
           penaltySpec subjectMap globalThreshold subjectThresholds
             (windowImpacts timetable subjectMap globalThreshold
                subjectThresholds w))
      candidates /\
    results ⊆ candidates.
Proof.
  destruct (candidateWindows_scored timetable subjectMap globalThreshold
              subjectThresholds today windowSizes weeksAhead)
    as (candidates & Hc & Hscored).
  exists candidates, (selectWindows [] (sort comparePenalty candidates)).
  split; [exact Hc|]. split.
  { unfold findBestVacationWindows. now rewrite Hc. }
  split.
  - apply Forall_forall. intros w Hw. specialize (Hscored w Hw).
    unfold scoredWindow in Hscored.
    destruct (scoreImpacts_spec subjectMap globalThreshold subjectThresholds
                (windowImpacts timetable subjectMap globalThreshold
                   subjectThresholds w)) with (p0 := #0)
      as (p & Hp & Heq).
    + intros i Hi.
      destruct (impact_has_subject _ _ _ _ _ _ Hi) as (n & s & Hs & _).
      now exists s.
    + rewrite Hscored in Hp. injection Hp as <-.
      now rewrite Heq, add_0_l.
  - intros w Hw. apply selectWindows_elem in Hw as [Hw|Hw].
    + now apply elem_of_nil in Hw.
    + now apply elem_of_sort in Hw.
Qed.

(** C1. [findBestVacationWindows] returns at most three windows, and no
    two of them overlap, where [a] and [b] overlap when
    [a.start <= b.end] and [a.end >= b.start]. *)
Theorem selected_windows_do_not_overlap
    (today : Z) (timetable : Timetable) (subjectMap : gmap string Subject)
    (globalThreshold : number) (subjectThresholds : gmap string number)
    (windowSizes : option (list Z)) (weeksAhead : option Z) :
  exists results : list VacationWindow,
    findBestVacationWindows today timetable subjectMap globalThreshold
      subjectThresholds windowSizes weeksAhead = Some results /\
    (length results <= 3)%nat /\
    forall (i j : nat) (a b : VacationWindow),
      i <> j -> results !! i = Some a -> results !! j = Some b ->
      ~ overlap a b.
Proof.
  destruct (candidateWindows_scored timetable subjectMap globalThreshold
              subjectThresholds today windowSizes weeksAhead)
    as (candidates & Hc & _).
  exists (selectWindows [] (sort comparePenalty candidates)).
  split; [|split].
  - unfold findBestVacationWindows. now rewrite Hc.
  - apply selectWindows_length. simpl. lia.
  - pose proof (selectWindows_apart (sort comparePenalty candidates) []
                  (SSorted_nil _)) as Hs.
    intros i j a b Hij Ha Hb.
    destruct (Nat.lt_ge_cases i j) as [Hlt|Hge].
    + exact (StronglySorted_lookup _ _ Hs i j a b Hlt Ha Hb).
    + rewrite overlap_sym.
      apply (StronglySorted_lookup _ _ Hs j i b a); [lia|assumption..].
Qed.

(* ===================================================================== *)
(** * A horizon too short for any window *)
(* ===================================================================== *)

(** A window of [size] days that starts tomorrow does not fit. *)
Lemma scanWindows_none_fits
    (timetable : Timetable) (subjectMap : gmap string Subject) gt st
    (fuel : nat) (today endScan size : Z) (candidates : list VacationWindow) :
  (endScan - today < size)%Z ->
  scanWindows fuel timetable subjectMap gt st size endScan (today + 1)
    candidates = Some candidates.
Proof.
  intros H. destruct fuel; cbn [scanWindows]; [reflexivity|].
  assert (E : (today + 1 + size - 1 >? endScan)%Z = true) by lia.
  now rewrite E.
Qed.

Lemma scanSizes_none_fits
    (timetable : Timetable) (subjectMap : gmap string Subject) gt st
    (today endScan : Z) (windowSizes : list Z)
    (candidates : list VacationWindow) :
  (forall size, size ∈ windowSizes -> (endScan - today < size)%Z) ->
  scanSizes timetable subjectMap gt st today endScan windowSizes candidates
    = Some candidates.
Proof.
  induction windowSizes as [|size rest IH]; intros H; cbn [scanSizes];
    [reflexivity|].
  rewrite scanWindows_none_fits by (apply H; now left).
  apply IH. intros s Hs. apply H. now right.
Qed.

(** C8, as stated, fails: with sizes 3 and 10 and a horizon of one week,
    [7 < 10] and yet windows of three days fit and are returned. *)
Lemma emptyBelowLargest_fails :
  maxSize [3; 10]%Z = Some 10%Z /\ (1 * 7 < 10)%Z /\
  findBestVacationWindows 20758 ∅ ∅ #75 ∅ (Some [3; 10]%Z) (Some 1%Z)
    = Some [ mkVacationWindow 20759 20761 3 0 0 #0;
             mkVacationWindow 20762 20764 3 0 0 #0 ] /\
  ~ emptyBelowLargest 20758 ∅ ∅ #75 ∅ [3; 10]%Z 1.
Proof.
  split; [reflexivity|]. split; [lia|].
  assert (H : findBestVacationWindows 20758 ∅ ∅ #75 ∅
                (Some [3; 10]%Z) (Some 1%Z)
              = Some [ mkVacationWindow 20759 20761 3 0 0 #0;
                       mkVacationWindow 20762 20764 3 0 0 #0 ])
    by (vm_compute; reflexivity).
  split; [exact H|].
  intros Hempty. specialize (Hempty 10%Z eq_refl ltac:(lia)).
  rewrite H in Hempty. discriminate Hempty.
Qed.

(** C8 (amended). When no window fits within the scan horizon, that is,
    whenever [weeksAhead * 7] is less than every one of the window sizes,
    [findBestVacationWindows] returns the empty list and raises no
    error. *)
Theorem no_window_fits
    (today : Z) (timetable : Timetable) (subjectMap : gmap string Subject)
    (globalThreshold : number) (subjectThresholds : gmap string number)
    (windowSizes : list Z) (weeksAhead : Z) :
  (forall size, size ∈ windowSizes -> (weeksAhead * 7 < size)%Z) ->
  findBestVacationWindows today timetable subjectMap globalThreshold
    subjectThresholds (Some windowSizes) (Some weeksAhead) = Some [].
Proof.
  intros H. unfold findBestVacationWindows, candidateWindows. simpl.
  rewrite scanSizes_none_fits; [reflexivity|].
  intros size Hs. specialize (H size Hs). lia.
Qed.

(** A horizon of one week and windows of 10 and 14 days. *)
Lemma no_window_fits_witness :
  findBestVacationWindows Sample.monday Sample.timetable Sample.subjects
    #75 ∅ (Some [10; 14]%Z) (Some 1%Z) = Some [].
Proof.
  apply (no_window_fits Sample.monday Sample.timetable Sample.subjects
           #75 ∅ [10; 14]%Z 1).
  intros size Hs.
  apply elem_of_cons in Hs as [->|Hs]; [lia|].
  apply list_elem_of_singleton in Hs as ->. lia.
Defined.

(* ===================================================================== *)
(** * The days of a range *)
(* ===================================================================== *)

Import Props2.

Lemma getVacationDays_loop_closed_form (holidays : gset string) (end_ : Z) :
  forall (fuel : nat) (current : Z),
    fuel = Z.to_nat (end_ - current + 1) ->
    getVacationDays_loop fuel current end_ holidays
      = (fun d => vacationDay d holidays) <$> seqZ current (end_ - current + 1).
Proof.
  induction fuel as [|fuel IH]; intros current Hfuel.
  - rewrite seqZ_nil by lia. reflexivity.
  - cbn [getVacationDays_loop].
    assert (E : (current <=? end_)%Z = true) by lia. rewrite E.
    rewrite seqZ_cons by lia. cbn [fmap list_fmap]. f_equal.
    rewrite IH by lia. do 2 f_equal; lia.
Qed.

(** The days of a range are the calendar days from [startDate] to
    [endDate], both included and in order, each classified on its own;
    there is none when [endDate] lies before [startDate]. *)
Theorem getVacationDays_closed_form (startDate endDate : Z)
    (holidays : gset string) :
  getVacationDays startDate endDate holidays
    = (fun d => vacationDay d holidays)
        <$> seqZ startDate (endDate - startDate + 1).
Proof.
  unfold getVacationDays.
  apply getVacationDays_loop_closed_form.
  reflexivity.
Qed.

Lemma isSunday_vacationDay (d : Z) (holidays : gset string) :
  isSunday (vacationDay d holidays) = ((d + 4) mod 7 =? 0)%Z.
Proof. reflexivity. Qed.

(** Seven consecutive days hold exactly one Sunday, wherever they start. *)
Theorem week_has_one_sunday (startDate : Z) (holidays : gset string) :
  length (List.filter isSunday
            (getVacationDays startDate (startDate + 6) holidays)) = 1%nat.
Proof.
  unfold getVacationDays.
  rewrite getVacationDays_loop_closed_form by reflexivity.
  replace (startDate + 6 - startDate + 1)%Z with 7%Z by lia.
  change (seqZ startDate 7)
    with [ (0 + startDate)%Z; (1 + startDate)%Z; (2 + startDate)%Z;
           (3 + startDate)%Z; (4 + startDate)%Z; (5 + startDate)%Z;
           (6 + startDate)%Z ].
  cbn [fmap list_fmap List.filter]. rewrite !isSunday_vacationDay.
  pose proof (Z.mod_pos_bound (startDate + 4) 7 ltac:(lia)) as Hr.
  assert (Hshift : forall i : Z,
            ((i + startDate + 4) mod 7
             = ((startDate + 4) mod 7 + i) mod 7)%Z).
  { intros i. rewrite Zplus_mod_idemp_l. f_equal. lia. }
  rewrite !Hshift.
  assert (Hcases : ((startDate + 4) mod 7 = 0 \/ (startDate + 4) mod 7 = 1 \/
                    (startDate + 4) mod 7 = 2 \/ (startDate + 4) mod 7 = 3 \/
                    (startDate + 4) mod 7 = 4 \/ (startDate + 4) mod 7 = 5 \/
                    (startDate + 4) mod 7 = 6)%Z) by lia.
  destruct Hcases as [E|[E|[E|[E|[E|[E|E]]]]]]; rewrite E; reflexivity.
Qed.

(* ===================================================================== *)
(** * The tallies of a range *)
(* ===================================================================== *)

(** A day adds its scheduled classes to the tallies, and nothing when it
    has none. *)
Lemma tallyDay_scheduled (timetable : Timetable) (t : Tally)
    (day : VacationDay) :
  tallyDay timetable t day =
    match scheduled timetable day with
    | [] => t
    | codes =>
        {| codeCount := foldl countCode (codeCount t) codes;
           tallyClasses := (tallyClasses t + length codes)%nat;
           tallyDays := (tallyDays t + 1)%nat |}
    end.
Proof.
  unfold tallyDay, scheduled.
  destruct (isSunday day || isHoliday day); [reflexivity|].
  now destruct (default [] (timetable !! timetableDayIndex day)).
Qed.

Lemma tally_totals (timetable : Timetable) (days : list VacationDay) :
  forall t : Tally,
    tallyClasses (foldl (tallyDay timetable) t days)
      = (tallyClasses t + length (missedClasses timetable days))%nat /\
    tallyDays (foldl (tallyDay timetable) t days)
      = (tallyDays t + length (List.filter (isActive timetable) days))%nat.
Proof.
  unfold missedClasses.
  induction days as [|day days IH]; intros t; cbn [foldl].
  - simpl. lia.
  - destruct (IH (tallyDay timetable t day)) as [Hc Hd].
    rewrite Hc, Hd, tallyDay_scheduled.
    cbn [fmap list_fmap concat List.filter]. unfold isActive.
    rewrite length_app.
    destruct (scheduled timetable day); cbn [tallyClasses tallyDays length];
      lia.
Qed.

Lemma active_days_have_classes (timetable : Timetable)
    (days : list VacationDay) :
  (length (List.filter (isActive timetable) days)
   <= length (missedClasses timetable days))%nat.
Proof.
  unfold missedClasses, isActive.
  induction days as [|day days IH]; [simpl; lia|].
  cbn [fmap list_fmap concat List.filter]. rewrite length_app.
  destruct (scheduled timetable day); simpl in *; lia.
Qed.

(** [totalDays] counts the calendar days of the range, [activeDays] the
    days with classes that are neither Sundays nor holidays, and
    [totalClasses] the classes scheduled on them; so there are at most as
    many active days as days, and at least one class per active day. *)
Theorem impact_totals
    (days : list VacationDay) (timetable : Timetable)
    (subjectMap : gmap string Subject) (globalThreshold : number)
    (subjectThresholds : gmap string number) :
  let result :=
    calculateVacationImpact days timetable subjectMap globalThreshold
      subjectThresholds in
  totalDays result = length days /\
  activeDays result = length (List.filter (isActive timetable) days) /\
  totalClasses result = length (missedClasses timetable days) /\
  (activeDays result <= totalDays result)%nat /\
  (activeDays result <= totalClasses result)%nat.
Proof.
  cbn zeta. unfold calculateVacationImpact.
  cbn [totalDays activeDays totalClasses].
  destruct (tally_totals timetable days (mkTally [] 0 0)) as [Hc Hd].
  rewrite Hc, Hd. cbn [tallyClasses tallyDays].
  split; [reflexivity|]. split; [lia|]. split; [lia|]. split.
  - rewrite Nat.add_0_l. apply List.filter_length_le.
  - rewrite !Nat.add_0_l. apply active_days_have_classes.
Qed.

(* ===================================================================== *)
(** * The class counts of the impacts *)
(* ===================================================================== *)

Lemma obj_get_set {V} (key k : string) (v : V) (o : list (string * V)) :
  obj_get k (obj_set key v o)
    = if decide (key = k) then Some v else obj_get k o.
Proof.
  induction o as [|[k' w] o IH]; simpl.
  - destruct (decide (key = k)); reflexivity.
  - destruct (decide (k' = key)) as [->|Hne]; simpl.
    + destruct (decide (key = k)); reflexivity.
    + rewrite IH. destruct (decide (k' = k)) as [->|Hk]; [|reflexivity].
      destruct (decide (key = k)); [congruence|reflexivity].
Qed.

Lemma elem_of_obj_set {V} (key : string) (v : V) (o : list (string * V))
    (e : string * V) :
  e ∈ obj_set key v o -> e = (key, v) \/ e ∈ o.
Proof.
  induction o as [|[k' w] o IH]; simpl.
  - rewrite list_elem_of_singleton. now left.
  - destruct (decide (k' = key)) as [->|Hne]; rewrite !elem_of_cons.
    + intros [H|H]; [now left|right; now right].
    + intros [H|H]; [right; now left|].
      destruct (IH H); [now left|right; now right].
Qed.

Lemma obj_set_NoDup {V} (key : string) (v : V) (o : list (string * V)) :
  NoDup o.*1 -> NoDup (obj_set key v o).*1.
Proof.
  induction o as [|[k' w] o IH]; simpl; intros Hnd.
  - repeat constructor. intros H. now apply elem_of_nil in H.
  - apply NoDup_cons in Hnd as [Hk Hnd].
    destruct (decide (k' = key)) as [->|Hne]; simpl.
    + now apply NoDup_cons.
    + apply NoDup_cons. split; [|now apply IH].
      rewrite obj_set_keys. intros [H|H]; [congruence|easy].
Qed.

Lemma obj_get_elem {V} (k : string) (v : V) (o : list (string * V)) :
  NoDup o.*1 -> (k, v) ∈ o -> obj_get k o = Some v.
Proof.
  induction o as [|[k' w] o IH]; simpl; intros Hnd Hin.
  - now apply elem_of_nil in Hin.
  - apply NoDup_cons in Hnd as [Hk Hnd].
    apply elem_of_cons in Hin as [Hin|Hin].
    + injection Hin as -> ->. now rewrite decide_True.
    + destruct (decide (k' = k)) as [->|Hne]; [|now apply IH].
      exfalso. apply Hk. apply list_elem_of_fmap. now exists (k, v).
Qed.

Lemma occurrences_app (k : string) (l1 l2 : list string) :
  occurrences k (l1 ++ l2) = (occurrences k l1 + occurrences k l2)%nat.
Proof.
  induction l1 as [|c l1 IH]; simpl; [reflexivity|].
  destruct (decide (c = k)); simpl; now rewrite IH.
Qed.

Lemma occurrences_pos (k : string) (l : list string) :
  (1 <= occurrences k l)%nat <-> k ∈ l.
Proof.
  induction l as [|c l IH]; simpl.
  - split; [lia|]. intros H. now apply elem_of_nil in H.
  - rewrite elem_of_cons. destruct (decide (c = k)) as [->|Hne].
    + split; [now left|lia].
    + rewrite IH. split; [now right|]. intros [H|H]; [congruence|exact H].
Qed.

Lemma countCode_NoDup (codes : list string) :
  forall cc : list (string * Count),
    NoDup cc.*1 -> NoDup (foldl countCode cc codes).*1.
Proof.
  induction codes as [|c codes IH]; intros cc Hnd; cbn [foldl];
    [exact Hnd|].
  apply IH. unfold countCode.
  destruct (obj_get c cc) as [[n|m ones]|]; try now apply obj_set_NoDup.
  destruct (ObjectPrototype.isProto c); [exact Hnd|].
  destruct (ObjectPrototype.isMethod c); now apply obj_set_NoDup.
Qed.

(** Under a key that is not inherited, and in a tally of numbers, the
    count is [(codeCount[code] || 0) + 1]. *)
Lemma countCode_own (cc : list (string * Count)) (c : string) :
  ObjectPrototype.inherits c = false -> Forall is_number cc ->
  countCode cc c = obj_set c (count_number (tallyOf cc c + 1)) cc.
Proof.
  unfold ObjectPrototype.inherits, countCode, tallyOf.
  intros Hc Hcc. apply orb_false_elim in Hc as [Hm Hp].
  destruct (obj_get c cc) as [[n|m ones]|] eqn:E; [reflexivity| |].
  - apply obj_get_In in E. rewrite Forall_forall in Hcc.
    destruct (Hcc _ E) as [n Hn]. discriminate Hn.
  - now rewrite Hp, Hm.
Qed.

Lemma countCode_own_numbers (cc : list (string * Count)) (c : string) :
  ObjectPrototype.inherits c = false -> Forall is_number cc ->
  Forall is_number (countCode cc c).
Proof.
  intros Hc. apply countCode_numbers.
  now apply orb_false_elim in Hc as [Hm _].
Qed.

Lemma countCode_tally (k : string) (codes : list string) :
  ownKeys codes ->
  forall cc : list (string * Count),
    Forall is_number cc ->
    Forall is_number (foldl countCode cc codes) /\
    tallyOf (foldl countCode cc codes) k
      = (tallyOf cc k + occurrences k codes)%nat.
Proof.
  induction codes as [|c codes IH]; intros Hown cc Hcc;
    cbn [foldl occurrences].
  - split; [exact Hcc|lia].
  - assert (Hc : ObjectPrototype.inherits c = false)
      by (apply Hown; now left).
    destruct (IH ltac:(intros c' Hc'; apply Hown; now right)
                (countCode cc c) (countCode_own_numbers _ _ Hc Hcc))
      as [Hnum Ht].
    split; [exact Hnum|]. rewrite Ht, (countCode_own _ _ Hc Hcc).
    unfold tallyOf at 1. rewrite obj_get_set.
    destruct (decide (c = k)) as [->|Hne]; simpl; [lia|].
    unfold tallyOf. lia.
Qed.

Lemma countCode_sum (codes : list string) :
  ownKeys codes ->
  forall cc : list (string * Count),
    Forall is_number cc ->
    sum_list_with (fun e => classesOf e.2) (foldl countCode cc codes)
      = (sum_list_with (fun e => classesOf e.2) cc + length codes)%nat.
Proof.
  assert (Hone : forall c (cc : list (string * Count)),
            sum_list_with (fun e => classesOf e.2)
              (obj_set c (count_number (tallyOf cc c + 1)) cc)
              = (sum_list_with (fun e => classesOf e.2) cc + 1)%nat).
  { intros c cc. unfold tallyOf.
    induction cc as [|[k' w] cc IH]; simpl; [reflexivity|].
    destruct (decide (k' = c)) as [->|Hne]; simpl; [lia|].
    rewrite IH. lia. }
  induction codes as [|c codes IH]; intros Hown cc Hcc; cbn [foldl length];
    [lia|].
  assert (Hc : ObjectPrototype.inherits c = false)
    by (apply Hown; now left).
  rewrite IH.
  - rewrite (countCode_own _ _ Hc Hcc), Hone. lia.
  - intros c' Hc'. apply Hown. now right.
  - now apply countCode_own_numbers.
Qed.

Lemma ownCodes_cons (timetable : Timetable) (day : VacationDay)
    (days : list VacationDay) :
  ownCodes timetable (day :: days) ->
  ownKeys (scheduled timetable day) /\ ownCodes timetable days.
Proof.
  intros H. split.
  - intros c Hc. apply H. exists day. split; [now left|exact Hc].
  - intros c (d & Hd & Hc). apply H. exists d. split; [now right|exact Hc].
Qed.

(** The tallies after the first loop, when no scheduled code is an
    inherited name: every key is tallied once, with a number, that of its
    occurrences, and the counts add up to the classes. *)
Lemma tally_counts (timetable : Timetable) (days : list VacationDay) :
  ownCodes timetable days ->
  forall t : Tally,
    NoDup (codeCount t).*1 -> Forall is_number (codeCount t) ->
    NoDup (codeCount (foldl (tallyDay timetable) t days)).*1 /\
    Forall is_number (codeCount (foldl (tallyDay timetable) t days)) /\
    (forall k,
       tallyOf (codeCount (foldl (tallyDay timetable) t days)) k
         = (tallyOf (codeCount t) k
            + occurrences k (missedClasses timetable days))%nat) /\
    sum_list_with (fun e => classesOf e.2)
      (codeCount (foldl (tallyDay timetable) t days))
      = (sum_list_with (fun e => classesOf e.2) (codeCount t)
         + length (missedClasses timetable days))%nat.
Proof.
  unfold missedClasses.
  induction days as [|day days IH]; intros Hown t Hnd Hnum; cbn [foldl].
  - simpl. repeat split; [exact Hnd|exact Hnum|intros; lia|lia].
  - apply ownCodes_cons in Hown as [Hday Hown].
    assert (Hstep :
      NoDup (codeCount (tallyDay timetable t day)).*1 /\
      Forall is_number (codeCount (tallyDay timetable t day)) /\
      (forall k, tallyOf (codeCount (tallyDay timetable t day)) k
                 = (tallyOf (codeCount t) k
                    + occurrences k (scheduled timetable day))%nat) /\
      sum_list_with (fun e => classesOf e.2)
        (codeCount (tallyDay timetable t day))
        = (sum_list_with (fun e => classesOf e.2) (codeCount t)
           + length (scheduled timetable day))%nat).
    { rewrite tallyDay_scheduled.
      destruct (scheduled timetable day) as [|c codes] eqn:E.
      - simpl. repeat split; [exact Hnd|exact Hnum|intros; lia|lia].
      - cbn [codeCount]. split; [now apply countCode_NoDup|].
        split; [now apply (countCode_tally c)|].
        split; [intros k; now apply countCode_tally|now apply countCode_sum]. }
    destruct Hstep as (Hnd' & Hnum' & Ht & Hs).
    destruct (IH Hown _ Hnd' Hnum') as (Hnd'' & Hnum'' & Ht' & Hs').
    split; [exact Hnd''|]. split; [exact Hnum''|].
    cbn [fmap list_fmap concat]. split.
    + intros k. rewrite Ht', Ht, occurrences_app. lia.
    + rewrite Hs', Hs, length_app. lia.
Qed.

(** The keys of the tally are distinct, whatever the codes. *)
Lemma tally_NoDup (timetable : Timetable) (days : list VacationDay) :
  forall t : Tally,
    NoDup (codeCount t).*1 ->
    NoDup (codeCount (foldl (tallyDay timetable) t days)).*1.
Proof.
  induction days as [|day days IH]; intros t Hnd; cbn [foldl]; [exact Hnd|].
  apply IH. rewrite tallyDay_scheduled.
  destruct (scheduled timetable day); [exact Hnd|].
  cbn [codeCount]. now apply countCode_NoDup.
Qed.

Lemma impactOf_classCount gt st c n s :
  classCount (impactOf gt st c n s) = n.
Proof. unfold impactOf. now destruct (total s === #0). Qed.

(** The impacts pushed, by code and by class count. *)
Lemma pushed_codes (subjectMap : gmap string Subject) gt st
    (es : list (string * Count)) :
  forall acc : list SubjectImpact,
    impactCode <$> foldl (pushImpact subjectMap gt st) acc es
      = (impactCode <$> acc) ++ List.filter (isKnown subjectMap) es.*1 /\
    sum_list_with (fun i => classesOf (classCount i))
      (foldl (pushImpact subjectMap gt st) acc es)
      = (sum_list_with (fun i => classesOf (classCount i)) acc
         + sum_list_with (fun e => classesOf e.2)
             (List.filter (fun e => isKnown subjectMap e.1) es))%nat.
Proof.
  induction es as [|[c n] es IH]; intros acc; cbn [foldl].
  - simpl. rewrite app_nil_r. split; [reflexivity|lia].
  - destruct (IH (pushImpact subjectMap gt st acc (c, n))) as [Hc Hs].
    rewrite Hc, Hs. cbn [fmap list_fmap List.filter fst].
    destruct (subjectMap !! c) as [s|] eqn:E.
    + assert (K : isKnown subjectMap c = true)
        by (unfold isKnown; now rewrite E).
      rewrite !K, (pushImpact_known _ _ _ _ _ _ _ E).
      rewrite fmap_app, sum_list_with_app. simpl.
      rewrite impactOf_code, impactOf_classCount, <- app_assoc.
      split; [reflexivity|lia].
    + assert (K : isKnown subjectMap c = false)
        by (unfold isKnown; now rewrite E).
      rewrite !K, (pushImpact_unknown _ _ _ _ _ _ E). split; reflexivity.
Qed.

Lemma tallied_occurs (timetable : Timetable) (days : list VacationDay)
    (c : string) :
  tallied timetable days c <->
  (1 <= occurrences c (missedClasses timetable days))%nat.
Proof.
  unfold tallied, missedClasses.
  induction days as [|d days IH]; cbn [fmap list_fmap concat].
  - simpl. split; [|lia]. intros (day & Hday & _).
    now apply elem_of_nil in Hday.
  - rewrite occurrences_app. split.
    + intros (day & Hday & Hc). apply elem_of_cons in Hday as [<-|Hday].
      * apply occurrences_pos in Hc. lia.
      * assert (H : (1 <= occurrences c
                            (concat (scheduled timetable <$> days)))%nat)
          by (apply IH; now exists day).
        lia.
    + intros H.
      destruct (occurrences c (scheduled timetable d)) as [|n] eqn:E.
      * destruct (proj2 IH ltac:(lia)) as (day & Hday & Hc).
        exists day. split; [now right|exact Hc].
      * exists d. split; [now left|]. apply occurrences_pos. lia.
Qed.

(** The impacts of a range and the tallies they come from, when no
    scheduled code is an inherited name. *)
Lemma impacts_from_tally
    (days : list VacationDay) (timetable : Timetable)
    (subjectMap : gmap string Subject) gt st (i : SubjectImpact) :
  ownCodes timetable days ->
  i ∈ impacts (calculateVacationImpact days timetable subjectMap gt st) ->
  exists (s : Subject) (n : nat),
    subjectMap !! impactCode i = Some s /\
    n = occurrences (impactCode i) (missedClasses timetable days) /\
    (1 <= n)%nat /\
    i = impactOf gt st (impactCode i) (count_number n) s.
Proof.
  intros Hown. unfold calculateVacationImpact. cbn [impacts].
  rewrite elem_of_sort, elem_of_pushed.
  intros [H|(c & n & s & Hin & Hs & ->)]; [now apply elem_of_nil in H|].
  rewrite impactOf_code.
  destruct (tally_counts timetable days Hown (mkTally [] 0 0))
    as (Hnd & Hnum & Ht & _); [constructor|constructor|].
  rewrite entries_perm in Hin.
  rewrite Forall_forall in Hnum. destruct (Hnum _ Hin) as [m Hm].
  simpl in Hm. subst n.
  assert (Hn : m = occurrences c (missedClasses timetable days)).
  { specialize (Ht c). unfold tallyOf in Ht.
    rewrite (obj_get_elem _ _ _ Hnd Hin) in Ht. exact Ht. }
  assert (Htal : tallied timetable days c).
  { assert (Hk : c ∈ (codeCount (foldl (tallyDay timetable)
                                   (mkTally [] 0 0) days)).*1)
      by (apply list_elem_of_fmap; now exists (c, count_number m)).
    apply tally_keys in Hk as [[Hk _]|Hk]; [exact Hk|].
    now apply elem_of_nil in Hk. }
  apply tallied_occurs in Htal.
  exists s, m. split; [exact Hs|]. split; [exact Hn|].
  split; [lia|reflexivity].
Qed.

Lemma elem_of_bool_filter {A} (f : A -> bool) (l : list A) (x : A) :
  x ∈ List.filter f l <-> x ∈ l /\ f x = true.
Proof. rewrite !list_elem_of_In. apply List.filter_In. Qed.

Lemma NoDup_bool_filter {A} (f : A -> bool) (l : list A) :
  NoDup l -> NoDup (List.filter f l).
Proof.
  induction 1 as [|x l Hx Hnd IH]; simpl; [constructor|].
  destruct (f x); [|exact IH].
  constructor; [|exact IH]. rewrite elem_of_bool_filter. tauto.
Qed.

Lemma impact_codes_NoDup
    (days : list VacationDay) (timetable : Timetable)
    (subjectMap : gmap string Subject) gt st :
  NoDup (impactCode
           <$> impacts (calculateVacationImpact days timetable subjectMap
                          gt st)).
Proof.
  unfold calculateVacationImpact. cbn [impacts]. rewrite sort_perm.
  rewrite (proj1 (pushed_codes _ _ _ _ [])). cbn [fmap list_fmap app].
  apply NoDup_bool_filter. rewrite entries_perm.
  apply tally_NoDup. constructor.
Qed.

(** No two impacts of a range stand for the same code.  When no scheduled
    code is a name that objects inherit, the [classCount] of each impact
    is a number: the number of times its code is scheduled on the days of
    the range that are neither Sundays nor holidays, which is at least
    once. *)
Theorem impact_class_counts
    (days : list VacationDay) (timetable : Timetable)
    (subjectMap : gmap string Subject) (globalThreshold : number)
    (subjectThresholds : gmap string number) :
  ownCodes timetable days ->
  let result :=
    calculateVacationImpact days timetable subjectMap globalThreshold
      subjectThresholds in
  NoDup (impactCode <$> impacts result) /\
  forall i, i ∈ impacts result ->
    classCount i
      = count_number
          (occurrences (impactCode i) (missedClasses timetable days)) /\
    (1 <= occurrences (impactCode i) (missedClasses timetable days))%nat.
Proof.
  intros Hown. cbn zeta. split; [apply impact_codes_NoDup|].
  intros i Hi.
  destruct (impacts_from_tally _ _ _ _ _ _ Hown Hi)
    as (s & n & _ & Hn & Hpos & Heq).
  rewrite Heq at 1. rewrite impactOf_classCount. subst n. now split.
Qed.

Lemma sample_week_own :
  ownCodes Sample.timetable
    (getVacationDays Sample.monday (Sample.monday + 2) ∅).
Proof.
  intros c (day & Hday & Hc).
  change (getVacationDays Sample.monday (Sample.monday + 2) ∅)
    with [ vacationDay Sample.monday ∅; vacationDay (Sample.monday + 1) ∅;
           vacationDay (Sample.monday + 2) ∅ ] in Hday.
  set_unfold in Hday. destruct_or!; subst day.
  - change (scheduled Sample.timetable (vacationDay Sample.monday ∅))
      with ["CS101"; "CS102"; "XX999"] in Hc.
    set_unfold in Hc. destruct_or!; subst c; reflexivity.
  - change (scheduled Sample.timetable (vacationDay (Sample.monday + 1) ∅))
      with (@nil string) in Hc.
    now apply elem_of_nil in Hc.
  - change (scheduled Sample.timetable (vacationDay (Sample.monday + 2) ∅))
      with ["CS102"; "CS103"] in Hc.
    set_unfold in Hc. destruct_or!; subst c; reflexivity.
Qed.

(** Monday to Wednesday of the sample data: [CS102] meets twice. *)
Lemma impact_class_counts_witness :
  let result :=
    calculateVacationImpact
      (getVacationDays Sample.monday (Sample.monday + 2) ∅)
      Sample.timetable Sample.subjects #75 ∅ in
  NoDup (impactCode <$> impacts result) /\
  forall i, i ∈ impacts result ->
    classCount i
      = count_number
          (occurrences (impactCode i)
             (missedClasses Sample.timetable
                (getVacationDays Sample.monday (Sample.monday + 2) ∅))) /\
    (1 <= occurrences (impactCode i)
            (missedClasses Sample.timetable
               (getVacationDays Sample.monday (Sample.monday + 2) ∅)))%nat.
Proof.
  apply (impact_class_counts
           (getVacationDays Sample.monday (Sample.monday + 2) ∅)
           Sample.timetable Sample.subjects #75 ∅).
  exact sample_week_own.
Defined.

Lemma impact_class_sum
    (days : list VacationDay) (timetable : Timetable)
    (subjectMap : gmap string Subject) (globalThreshold : number)
    (subjectThresholds : gmap string number) :
  ownCodes timetable days ->
  let result :=
    calculateVacationImpact days timetable subjectMap globalThreshold
      subjectThresholds in
  (sum_list_with (fun i => classesOf (classCount i)) (impacts result)
   <= totalClasses result)%nat /\
  ((forall c, c ∈ missedClasses timetable days ->
              is_Some (subjectMap !! c)) ->
   sum_list_with (fun i => classesOf (classCount i)) (impacts result)
   = totalClasses result).
Proof.
  intros Hown. cbn zeta. unfold calculateVacationImpact.
  cbn [impacts totalClasses].
  rewrite sort_perm, (proj2 (pushed_codes _ _ _ _ [])).
  cbn [sum_list_with]. rewrite Nat.add_0_l.
  destruct (tally_counts timetable days Hown (mkTally [] 0 0))
    as (Hnd & Hnum & Ht & Hs); [constructor|constructor|].
  destruct (tally_totals timetable days (mkTally [] 0 0)) as [Hc _].
  rewrite Hc. cbn [tallyClasses codeCount sum_list_with] in *.
  rewrite Nat.add_0_l in *. rewrite <- Hs.
  match goal with
  | |- context [entries ?cc] =>
      assert (Hsum : sum_list_with (fun e => classesOf e.2) (entries cc)
                     = sum_list_with (fun e => classesOf e.2) cc)
        by now rewrite entries_perm
  end.
  rewrite <- Hsum. set (es := entries _). split.
  - clearbody es. induction es as [|[c n] es IH]; [simpl; lia|].
    cbn [List.filter fst]. destruct (isKnown subjectMap c); simpl in *; lia.
  - intros Hknown.
    assert (Hall : forall e, e ∈ es -> isKnown subjectMap e.1 = true).
    { intros [c n] He. subst es. rewrite entries_perm in He.
      assert (Htal : tallied timetable days c).
      { assert (Hk' : c ∈ (codeCount (foldl (tallyDay timetable)
                                        (mkTally [] 0 0) days)).*1)
          by (apply list_elem_of_fmap; now exists (c, n)).
        apply tally_keys in Hk' as [[Hk' _]|Hk']; [exact Hk'|].
        now apply elem_of_nil in Hk'. }
      apply tallied_occurs, occurrences_pos, Hknown in Htal as [s Hsome].
      unfold isKnown. simpl. now rewrite Hsome. }
    clearbody es. induction es as [|[c n] es IH]; [reflexivity|].
    cbn [List.filter fst].
    pose proof (Hall (c, n) ltac:(now left)) as Hk. simpl in Hk. rewrite Hk.
    simpl. rewrite IH; [reflexivity|]. intros e He. apply Hall. now right.
Qed.

(** When no scheduled code is a name that objects inherit, the class
    counts of the impacts, which are numbers then, add up to at most
    [totalClasses], and to exactly [totalClasses] when every scheduled
    code has a subject: the classes of unknown codes are counted in the
    total only. *)
Theorem impact_classes_bounded
    (days : list VacationDay) (timetable : Timetable)
    (subjectMap : gmap string Subject) (globalThreshold : number)
    (subjectThresholds : gmap string number) :
  ownCodes timetable days ->
  let result :=
    calculateVacationImpact days timetable subjectMap globalThreshold
      subjectThresholds in
  (sum_list_with (fun i => classesOf (classCount i)) (impacts result)
   <= totalClasses result)%nat /\
  ((forall c, c ∈ missedClasses timetable days ->
              is_Some (subjectMap !! c)) ->
   sum_list_with (fun i => classesOf (classCount i)) (impacts result)
   = totalClasses result).
Proof.
  exact (impact_class_sum days timetable subjectMap globalThreshold
           subjectThresholds).
Qed.

Lemma sample_repeat_own :
  ownCodes {[ 0%Z := ["CS101"; "CS102"; "CS101"] ]}
    (getVacationDays Sample.monday Sample.monday ∅).
Proof.
  intros c (day & Hday & Hc).
  change (getVacationDays Sample.monday Sample.monday ∅)
    with [vacationDay Sample.monday ∅] in Hday.
  apply list_elem_of_singleton in Hday as ->.
  change (scheduled {[ 0%Z := ["CS101"; "CS102"; "CS101"] ]}
            (vacationDay Sample.monday ∅))
    with ["CS101"; "CS102"; "CS101"] in Hc.
  set_unfold in Hc. destruct_or!; subst c; reflexivity.
Qed.

(** A Monday on which only subjects of the map are scheduled. *)
Lemma impact_classes_bounded_witness :
  sum_list_with (fun i => classesOf (classCount i))
    (impacts (calculateVacationImpact
                (getVacationDays Sample.monday Sample.monday ∅)
                {[ 0%Z := ["CS101"; "CS102"; "CS101"] ]} Sample.subjects
                #75 ∅))
  = totalClasses (calculateVacationImpact
                    (getVacationDays Sample.monday Sample.monday ∅)
                    {[ 0%Z := ["CS101"; "CS102"; "CS101"] ]} Sample.subjects
                    #75 ∅).
Proof.
  apply (proj2 (impact_classes_bounded
                  (getVacationDays Sample.monday Sample.monday ∅)
                  {[ 0%Z := ["CS101"; "CS102"; "CS101"] ]} Sample.subjects
                  #75 ∅ sample_repeat_own)).
  intros c Hc. vm_compute in Hc.
  repeat (apply elem_of_cons in Hc as [->|Hc]; [now eexists|]).
  now apply elem_of_nil in Hc.
Defined.

(* ===================================================================== *)
(** * The figures of an impact *)
(* ===================================================================== *)

Lemma subject_valid_ok (s : Subject) : subject_valid s -> subject_ok s.
Proof.
  intros (a & t & Ha & Ht & H0 & Hat). exists a, t.
  repeat split; try assumption. lra.
Qed.

Lemma sample_subjects_valid :
  forall k s, Sample.subjects !! k = Some s -> subject_valid s.
Proof.
  intros k s. unfold Sample.subjects.
  rewrite !lookup_insert_Some, lookup_singleton_Some.
  intros [[_ <-]|[_ [[_ <-]|[_ [_ <-]]]]];
    eexists _, _; (split; [reflexivity|]; split; [reflexivity|easy]).
Qed.



Lemma Qfloor_unique (y : Q) (k : Z) :
  (inject_Z k <= y)%Q -> (y < inject_Z (k + 1))%Q -> Qfloor y = k.
Proof.
  intros Hle Hlt.
  pose proof (Qfloor_le y) as H1. pose proof (Qlt_floor y) as H2.
  assert (Ha : (inject_Z (Qfloor y) < inject_Z (k + 1))%Q)
    by (apply Qle_lt_trans with y; assumption).
  assert (Hb : (inject_Z k < inject_Z (Qfloor y + 1))%Q)
    by (apply Qle_lt_trans with y; assumption).
  apply (proj2 (inject_Z_lt _ _)) in Ha.
  apply (proj2 (inject_Z_lt _ _)) in Hb. lia.
Qed.

Lemma Qfloor_sub_Z (y : Q) (n : Z) :
  Qfloor (y - inject_Z n) = (Qfloor y - n)%Z.
Proof.
  pose proof (Qfloor_le y) as H1. pose proof (Qlt_floor y) as H2.
  apply Qfloor_unique.
  - unfold Z.sub. rewrite inject_Z_plus, inject_Z_opp. lra.
  - replace (Qfloor y - n + 1)%Z with ((Qfloor y + 1) + - n)%Z by lia.
    rewrite inject_Z_plus, inject_Z_opp. lra.
Qed.

Lemma Qfloor_lt_Z (y : Q) (n : Z) :
  (Qfloor y < n)%Z <-> (y < inject_Z n)%Q.
Proof.
  pose proof (Qfloor_le y) as H1. pose proof (Qlt_floor y) as H2. split.
  - intros H. apply Qlt_le_trans with (inject_Z (Qfloor y + 1));
      [exact H2|]. apply (proj1 (inject_Z_le _ _)). lia.
  - intros H. apply (proj2 (inject_Z_lt _ _)).
    apply Qle_lt_trans with y; assumption.
Qed.

(** The impact of missing [n] classes of a subject that has classes. *)
Lemma dataImpact_figures (c : string) (s : Subject) (n : nat) (a t th : Q) :
  attended s = Fin a -> total s = Fin t ->
  (0 <= a)%Q -> (a <= t)%Q -> (0 < t)%Q -> (0 < th)%Q ->
  let i := dataImpact c s (count_number n) (Fin th) in
  let f := Qfloor (a * 100 / th - t) in
  currentPct i = Fin (a / t * 100) /\
  projectedPct i = Fin (a / (t + inject_Z (Z.of_nat n)) * 100) /\
  drop i = Fin (a / t * 100 - a / (t + inject_Z (Z.of_nat n)) * 100) /\
  (0 <= a / (t + inject_Z (Z.of_nat n)) * 100)%Q /\
  (a / (t + inject_Z (Z.of_nat n)) * 100 <= a / t * 100)%Q /\
  (a / t * 100 <= 100)%Q /\
  currentBunkable i = #(Z.max 0 f) /\
  projectedBunkable i = #(Z.max 0 (f - Z.of_nat n)) /\
  (breachesThreshold i = true <-> (f < Z.of_nat n)%Z).
Proof.
  intros Ha Ht H0 Hat Htpos Hth. cbn zeta.
  assert (Hn : (0 <= inject_Z (Z.of_nat n))%Q)
    by (apply (proj1 (inject_Z_le 0 _)); lia).
  set (m := inject_Z (Z.of_nat n)) in *.
  assert (Hne : ~ (th == 0)%Q) by (intro; lra).
  unfold dataImpact. cbn [currentPct projectedPct drop currentBunkable
                            projectedBunkable breachesThreshold].
  rewrite Ha, Ht. cbn [plusCount of_nat of_Z add]. fold m.
  rewrite !classesToBunk_finite by assumption.
  assert (Ediv1 : Fin a / Fin t = Fin (a / t)).
  { simpl. destruct (Qeq_bool t 0) eqn:E; [|reflexivity].
    apply Qeq_bool_eq in E. lra. }
  assert (Ediv2 : Fin a / Fin (t + m) = Fin (a / (t + m))).
  { simpl. destruct (Qeq_bool (t + m) 0) eqn:E; [|reflexivity].
    apply Qeq_bool_eq in E. lra. }
  rewrite Ediv1, Ediv2. cbn [mul sub of_Z]. change (inject_Z 100) with 100%Q.
  assert (Hq : (0 <= a / t)%Q) by (apply Qle_div_iff; lra).
  assert (Hq1 : (a / t <= 1)%Q) by (apply Qdiv_le_iff; lra).
  assert (Hqt : (a / t * t == a)%Q) by (field; intro; lra).
  assert (Hp : (0 <= a / (t + m))%Q) by (apply Qle_div_iff; lra).
  assert (Hpq : (a / (t + m) <= a / t)%Q).
  { apply Qdiv_le_iff; [lra|].
    pose proof (Qmult_le_0_compat _ _ Hq Hn) as Hqm. lra. }
  assert (Efl : Qfloor (a * 100 / th - (t + m))
                = (Qfloor (a * 100 / th - t) - Z.of_nat n)%Z).
  { assert (E : (a * 100 / th - (t + m) == a * 100 / th - t - m)%Q) by ring.
    rewrite E. apply Qfloor_sub_Z. }
  rewrite Efl.
  repeat split; try reflexivity; try lra.
  - rewrite ltb_Fin. intros H. apply Qfloor_lt_Z. fold m.
    assert (H' : (a * 100 < th * (t + m))%Q).
    { apply Qnot_le_lt. intros Hle.
      apply (Qle_div_iff (a * 100) (t + m) th) in Hle; [|lra].
      assert (E : (a / (t + m) * 100 == a * 100 / (t + m))%Q)
        by (field; intro; lra).
      rewrite E in H. lra. }
    assert (H'' : (a * 100 / th < t + m)%Q).
    { apply Qnot_le_lt. intros Hle.
      apply (Qle_div_iff (a * 100) th (t + m)) in Hle; [|lra]. lra. }
    lra.
  - intros H. apply Qfloor_lt_Z in H. fold m in H. rewrite ltb_Fin.
    assert (H' : (a * 100 / th < t + m)%Q) by lra.
    assert (H'' : (a * 100 < (t + m) * th)%Q).
    { apply Qnot_le_lt. intros Hle.
      apply (Qle_div_iff (a * 100) th (t + m)) in Hle; [|lra]. lra. }
    assert (E : (a / (t + m) * 100 == a * 100 / (t + m))%Q)
      by (field; intro; lra).
    rewrite E. apply Qnot_le_lt. intros Hle.
    apply (Qle_div_iff (a * 100) (t + m) th) in Hle; [|lra]. lra.
Qed.

Lemma dataImpact_percentages (c : string) (s : Subject) (n : nat)
    (thr : number) (a t : Q) :
  attended s = Fin a -> total s = Fin t ->
  (0 <= a)%Q -> (a <= t)%Q -> (0 < t)%Q ->
  let i := dataImpact c s (count_number n) thr in
  exists cur proj : Q,
    currentPct i = Fin cur /\ projectedPct i = Fin proj /\
    drop i = Fin (cur - proj) /\
    (0 <= proj)%Q /\ (proj <= cur)%Q /\ (cur <= 100)%Q.
Proof.
  intros Ha Ht H0 Hat Htpos. cbn zeta.
  destruct (dataImpact_figures c s n a t 1 Ha Ht H0 Hat Htpos ltac:(easy))
    as (Hc & Hp & Hd & Hp0 & Hpc & Hc100 & _).
  exists (a / t * 100)%Q, (a / (t + inject_Z (Z.of_nat n)) * 100)%Q.
  repeat split; assumption.
Qed.

Lemma impact_figures_valid
    (days : list VacationDay) (timetable : Timetable)
    (subjectMap : gmap string Subject) (globalThreshold : number)
    (subjectThresholds : gmap string number) :
  (forall k s, subjectMap !! k = Some s -> subject_valid s) ->
  ownCodes timetable days ->
  forall i,
    i ∈ impacts (calculateVacationImpact days timetable subjectMap
                   globalThreshold subjectThresholds) ->
    (isNoData i = true ->
       currentPct i = #0 /\ projectedPct i = #0 /\ drop i = #0 /\
       breachesThreshold i = false) /\
    (isNoData i = false ->
       exists cur proj : Q,
         currentPct i = Fin cur /\ projectedPct i = Fin proj /\
         drop i = Fin (cur - proj) /\
         (0 <= proj)%Q /\ (proj <= cur)%Q /\ (cur <= 100)%Q).
Proof.
  intros Hvalid Hown i Hi.
  destruct (impacts_from_tally _ _ _ _ _ _ Hown Hi)
    as (s & n & Hs & _ & _ & ->).
  destruct (Hvalid _ _ Hs) as (a & t & Ha & Ht & H0 & Hat).
  unfold impactOf. destruct (total s === #0) eqn:E.
  - split; [now intros _|]. intros H. discriminate H.
  - split; [intros H; discriminate H|]. intros _.
    apply (dataImpact_percentages _ _ _ _ a t); try assumption.
    rewrite Ht in E.
    destruct (Qlt_le_dec 0 t) as [Hpos|Hle]; [exact Hpos|].
    assert (Hz : (t == 0)%Q) by lra.
    apply (proj2 (eqb_Fin t (inject_Z 0))) in Hz. unfold of_Z in E.
    congruence.
Qed.

(** For subjects whose counts satisfy [0 <= attended <= total], when no
    scheduled code is a name that objects inherit: an impact without data
    carries zeros and breaches nothing; an impact with data has
    [0 <= projectedPct <= currentPct <= 100], and its [drop] is their
    difference, which is not negative. *)
Theorem impact_percentages
    (days : list VacationDay) (timetable : Timetable)
    (subjectMap : gmap string Subject) (globalThreshold : number)
    (subjectThresholds : gmap string number) :
  (forall k s, subjectMap !! k = Some s -> subject_valid s) ->
  ownCodes timetable days ->
  forall i,
    i ∈ impacts (calculateVacationImpact days timetable subjectMap
                   globalThreshold subjectThresholds) ->
    (isNoData i = true ->
       currentPct i = #0 /\ projectedPct i = #0 /\ drop i = #0 /\
       breachesThreshold i = false) /\
    (isNoData i = false ->
       exists cur proj : Q,
         currentPct i = Fin cur /\ projectedPct i = Fin proj /\
         drop i = Fin (cur - proj) /\
         (0 <= proj)%Q /\ (proj <= cur)%Q /\ (cur <= 100)%Q).
Proof. exact (impact_figures_valid days timetable _ _ _). Qed.

(** Monday to Wednesday of the sample data. *)
Lemma impact_percentages_witness :
  Forall
    (fun i =>
       (isNoData i = true ->
          currentPct i = #0 /\ projectedPct i = #0 /\ drop i = #0 /\
          breachesThreshold i = false) /\
       (isNoData i = false ->
          exists cur proj : Q,
            currentPct i = Fin cur /\ projectedPct i = Fin proj /\
            drop i = Fin (cur - proj) /\
            (0 <= proj)%Q /\ (proj <= cur)%Q /\ (cur <= 100)%Q))
    (impacts (calculateVacationImpact
                (getVacationDays Sample.monday (Sample.monday + 2) ∅)
                Sample.timetable Sample.subjects #75 ∅)).
Proof.
  apply Forall_forall.
  apply (impact_percentages
           (getVacationDays Sample.monday (Sample.monday + 2) ∅)
           Sample.timetable Sample.subjects #75 ∅).
  - exact sample_subjects_valid.
  - exact sample_week_own.
Defined.



(* ===================================================================== *)
(** * The candidates of the search *)
(* ===================================================================== *)

Section Candidates.
Context (timetable : Timetable) (subjectMap : gmap string Subject)
        (globalThreshold : number) (subjectThresholds : gmap string number).

Lemma scanWindows_closed_form (size endScan : Z) :
  forall (fuel : nat) (current : Z) (candidates : list VacationWindow),
    fuel = Z.to_nat (endScan - (current + size - 1) + 1) ->
    scanWindows fuel timetable subjectMap globalThreshold subjectThresholds
      size endScan current candidates
    = Some (candidates ++
              (windowAt timetable subjectMap globalThreshold
                 subjectThresholds size
                 <$> seqZ current (endScan - (current + size - 1) + 1))).
Proof.
  induction fuel as [|fuel IH]; intros current candidates Hfuel;
    cbn [scanWindows].
  - rewrite seqZ_nil by lia. now rewrite app_nil_r.
  - assert (E : (current + size - 1 >? endScan)%Z = false) by lia.
    rewrite E.
    destruct (scoreImpacts_window timetable subjectMap globalThreshold
                subjectThresholds current (current + size - 1)) as [p Hp].
    rewrite Hp, IH by lia.
    rewrite (seqZ_cons current) by lia. cbn [fmap list_fmap].
    rewrite <- app_assoc. cbn [app]. do 3 f_equal.
    + unfold windowAt. cbn zeta. now rewrite Hp.
    + f_equal. f_equal; lia.
Qed.

Lemma scanSizes_closed_form (today endScan : Z) (windowSizes : list Z) :
  forall candidates : list VacationWindow,
    scanSizes timetable subjectMap globalThreshold subjectThresholds today
      endScan windowSizes candidates
    = Some (candidates ++
              allWindows timetable subjectMap globalThreshold
                subjectThresholds today endScan windowSizes).
Proof.
  unfold allWindows.
  induction windowSizes as [|size rest IH]; intros candidates;
    cbn [scanSizes fmap list_fmap concat].
  - now rewrite app_nil_r.
  - rewrite scanWindows_closed_form by (unfold scanBudget; f_equal; lia).
    rewrite IH, <- app_assoc. do 3 f_equal. unfold windowsOfSize.
    do 2 f_equal. lia.
Qed.

Lemma candidateWindows_closed_form (today : Z) windowSizes weeksAhead :
  candidateWindows today timetable subjectMap globalThreshold
    subjectThresholds windowSizes weeksAhead
  = Some (allWindows timetable subjectMap globalThreshold subjectThresholds
            today
            (today + default defaultWeeksAhead weeksAhead * 7)
            (default defaultWindowSizes windowSizes)).
Proof. unfold candidateWindows. now rewrite scanSizes_closed_form. Qed.

Lemma findBest_closed_form (today : Z) windowSizes weeksAhead :
  findBestVacationWindows today timetable subjectMap globalThreshold
    subjectThresholds windowSizes weeksAhead
  = Some (selectWindows []
            (sort comparePenalty
               (allWindows timetable subjectMap globalThreshold
                  subjectThresholds today
                  (today + default defaultWeeksAhead weeksAhead * 7)
                  (default defaultWindowSizes windowSizes)))).
Proof.
  unfold findBestVacationWindows. now rewrite candidateWindows_closed_form.
Qed.

Lemma elem_of_allWindows (today endScan : Z) (windowSizes : list Z)
    (w : VacationWindow) :
  w ∈ allWindows timetable subjectMap globalThreshold subjectThresholds
        today endScan windowSizes
  <-> exists size start,
        size ∈ windowSizes /\ (today < start)%Z /\
        (start + size - 1 <= endScan)%Z /\
        w = windowAt timetable subjectMap globalThreshold subjectThresholds
              size start.
Proof.
  unfold allWindows.
  induction windowSizes as [|size rest IH]; cbn [fmap list_fmap concat].
  - split; [intros H; now apply elem_of_nil in H|].
    intros (s & _ & H & _). now apply elem_of_nil in H.
  - rewrite elem_of_app, IH. unfold windowsOfSize.
    rewrite list_elem_of_fmap. split.
    + intros [(start & -> & Hs)|(s & start & Hs & H)].
      * apply elem_of_seqZ in Hs. exists size, start.
        split; [now left|]. split; [lia|]. split; [lia|reflexivity].
      * exists s, start. split; [now right|exact H].
    + intros (s & start & Hs & Hlo & Hhi & ->).
      apply elem_of_cons in Hs as [->|Hs].
      * left. exists start. split; [reflexivity|].
        apply elem_of_seqZ. lia.
      * right. now exists s, start.
Qed.

Lemma length_allWindows (today endScan : Z) (windowSizes : list Z) :
  length (allWindows timetable subjectMap globalThreshold subjectThresholds
            today endScan windowSizes)
  = sum_list_with (fun size => Z.to_nat (endScan - today - size + 1))
      windowSizes.
Proof.
  unfold allWindows.
  induction windowSizes as [|size rest IH]; cbn [fmap list_fmap concat];
    [reflexivity|].
  rewrite length_app, IH. unfold windowsOfSize.
  now rewrite length_fmap, length_seqZ.
Qed.

End Candidates.

(* ===================================================================== *)
(** * More on the selection *)
(* ===================================================================== *)

Lemma selectWindows_prefix :
  forall candidates results,
    exists more, selectWindows results candidates = results ++ more.
Proof.
  induction candidates as [|c rest IH]; intros results; cbn [selectWindows].
  - exists []. now rewrite app_nil_r.
  - destruct (existsb (overlapsWith c) results); [apply IH|].
    destruct (3 <=? length (results ++ [c]))%nat.
    + now exists [c].
    + destruct (IH (results ++ [c])) as [more ->].
      exists (c :: more). now rewrite <- app_assoc.
Qed.

Lemma selectWindows_first (c : VacationWindow) (rest : list VacationWindow) :
  exists more, selectWindows [] (c :: rest) = c :: more.
Proof.
  cbn [selectWindows existsb app length Nat.leb].
  destruct (selectWindows_prefix rest [c]) as [more ->]. now exists more.
Qed.

Lemma selectWindows_sorted (R : VacationWindow -> VacationWindow -> Prop) :
  forall candidates results,
    StronglySorted R (results ++ candidates) ->
    StronglySorted R (selectWindows results candidates).
Proof.
  induction candidates as [|c rest IH]; intros results Hs;
    cbn [selectWindows].
  - now rewrite app_nil_r in Hs.
  - destruct (existsb (overlapsWith c) results).
    + apply IH. apply StronglySorted_app in Hs as (Hx & Hr & Hc).
      apply StronglySorted_inv in Hc as [Hc _].
      apply StronglySorted_app_2; [|assumption..].
      intros x1 x2 H1 H2. apply Hx; [exact H1|now right].
    + assert (Hs' : StronglySorted R ((results ++ [c]) ++ rest))
        by now rewrite <- app_assoc.
      destruct (3 <=? length (results ++ [c]))%nat; [|now apply IH].
      now apply StronglySorted_app in Hs' as (_ & Hr & _).
Qed.

(** A candidate is left out only because three windows were found or
    because it overlaps a window selected before it. *)
Lemma selectWindows_maximal :
  forall candidates results c,
    c ∈ candidates ->
    c ∈ selectWindows results candidates \/
    (3 <= length (selectWindows results candidates))%nat \/
    exists r, r ∈ selectWindows results candidates /\ overlap c r.
Proof.
  induction candidates as [|c' rest IH]; intros results c Hc;
    [now apply elem_of_nil in Hc|].
  cbn [selectWindows].
  destruct (existsb (overlapsWith c') results) eqn:E.
  - apply elem_of_cons in Hc as [->|Hc]; [|now apply IH].
    right. right. apply existsb_exists in E as (r & Hr & Hov).
    exists r. split; [|now apply overlapsWith_overlap].
    destruct (selectWindows_prefix rest results) as [more ->].
    apply elem_of_app. left. now apply list_elem_of_In.
  - destruct (3 <=? length (results ++ [c']))%nat eqn:E3.
    + right. left. now apply Nat.leb_le in E3.
    + apply elem_of_cons in Hc as [->|Hc]; [|now apply IH].
      left. destruct (selectWindows_prefix rest (results ++ [c']))
        as [more ->].
      rewrite !elem_of_app, list_elem_of_singleton. tauto.
Qed.

(* ===================================================================== *)
(** * What the search returns *)
(* ===================================================================== *)

(** Every window returned starts after today, ends within the scan
    horizon, lasts one of the window sizes, and carries the class count and
    the at-risk count of its own days, no day of which is taken as a
    holiday. *)
Theorem returned_windows_in_horizon
    (today : Z) (timetable : Timetable) (subjectMap : gmap string Subject)
    (globalThreshold : number) (subjectThresholds : gmap string number)
    (windowSizes : option (list Z)) (weeksAhead : option Z) :
  exists results : list VacationWindow,
    findBestVacationWindows today timetable subjectMap globalThreshold
      subjectThresholds windowSizes weeksAhead = Some results /\
    Forall
      (fun w =>
         duration w ∈ default defaultWindowSizes windowSizes /\
         (today < startDate w)%Z /\
         (endDate w <= today + default defaultWeeksAhead weeksAhead * 7)%Z /\
         endDate w = (startDate w + duration w - 1)%Z /\
         windowClasses w
           = totalClasses
               (calculateVacationImpact
                  (getVacationDays (startDate w) (endDate w) ∅) timetable
                  subjectMap globalThreshold subjectThresholds) /\
         atRiskCount w
           = length (List.filter isAtRisk
                       (windowImpacts timetable subjectMap globalThreshold
                          subjectThresholds w)))
      results.
Proof.
  eexists. split; [apply findBest_closed_form|].
  apply Forall_forall. intros w Hw.
  apply selectWindows_elem in Hw as [Hw|Hw]; [now apply elem_of_nil in Hw|].
  apply elem_of_sort, elem_of_allWindows in Hw
    as (size & start & Hs & Hlo & Hhi & ->).
  unfold windowAt, windowImpacts. cbn.
  repeat split; try assumption; lia.
Qed.

(** The search scores, for each window size, one candidate per first day
    from tomorrow on for which the window ends within the horizon:
    [weeksAhead * 7 - size + 1] candidates when that is positive. *)
Theorem candidates_count
    (today : Z) (timetable : Timetable) (subjectMap : gmap string Subject)
    (globalThreshold : number) (subjectThresholds : gmap string number)
    (windowSizes : option (list Z)) (weeksAhead : option Z) :
  exists candidates : list VacationWindow,
    candidateWindows today timetable subjectMap globalThreshold
      subjectThresholds windowSizes weeksAhead = Some candidates /\
    length candidates
      = sum_list_with
          (fun size =>
             Z.to_nat (default defaultWeeksAhead weeksAhead * 7 - size + 1))
          (default defaultWindowSizes windowSizes).
Proof.
  eexists. split; [apply candidateWindows_closed_form|].
  rewrite length_allWindows.
  induction (default defaultWindowSizes windowSizes) as [|size rest IH];
    [reflexivity|].
  cbn [sum_list_with]. rewrite IH. f_equal. f_equal. lia.
Qed.

(** When a window of some size fits within the horizon, the search returns
    at least one window. *)
Theorem some_window_is_returned
    (today : Z) (timetable : Timetable) (subjectMap : gmap string Subject)
    (globalThreshold : number) (subjectThresholds : gmap string number)
    (windowSizes : list Z) (weeksAhead : Z) :
  (exists size, size ∈ windowSizes /\ (size <= weeksAhead * 7)%Z) ->
  exists w rest,
    findBestVacationWindows today timetable subjectMap globalThreshold
      subjectThresholds (Some windowSizes) (Some weeksAhead)
    = Some (w :: rest).
Proof.
  intros (size & Hs & Hfit). rewrite findBest_closed_form.
  cbn [from_option id].
  set (all := allWindows _ _ _ _ _ _ _).
  assert (Hin : windowAt timetable subjectMap globalThreshold
                  subjectThresholds size (today + 1) ∈ all).
  { apply elem_of_allWindows. exists size, (today + 1)%Z.
    split; [exact Hs|]. split; [lia|]. split; [lia|reflexivity]. }
  apply (elem_of_sort comparePenalty) in Hin.
  destruct (sort comparePenalty all) as [|c cs]; [now apply elem_of_nil in Hin|].
  destruct (selectWindows_first c cs) as [more ->]. now exists c, more.
Qed.

(** The default search, three weeks ahead with windows of 3, 5 and 7
    days. *)
Lemma some_window_is_returned_witness :
  exists w rest,
    findBestVacationWindows Sample.monday Sample.timetable Sample.subjects
      #75 ∅ (Some [3; 5; 7]%Z) (Some 3%Z) = Some (w :: rest).
Proof.
  apply (some_window_is_returned Sample.monday Sample.timetable
           Sample.subjects #75 ∅ [3; 5; 7]%Z 3).
  exists 3%Z. split; [now left|lia].
Defined.

(** A candidate that is not returned overlaps a returned window, unless
    three windows are returned. *)
Theorem selection_is_maximal
    (today : Z) (timetable : Timetable) (subjectMap : gmap string Subject)
    (globalThreshold : number) (subjectThresholds : gmap string number)
    (windowSizes : option (list Z)) (weeksAhead : option Z) :
  exists candidates results : list VacationWindow,
    candidateWindows today timetable subjectMap globalThreshold
      subjectThresholds windowSizes weeksAhead = Some candidates /\
    findBestVacationWindows today timetable subjectMap globalThreshold
      subjectThresholds windowSizes weeksAhead = Some results /\
    forall c, c ∈ candidates ->
      c ∈ results \/ length results = 3%nat \/
      exists r, r ∈ results /\ overlap c r.
Proof.
  eexists _, _. split; [apply candidateWindows_closed_form|].
  split; [apply findBest_closed_form|].
  intros c Hc. apply (elem_of_sort comparePenalty) in Hc.
  destruct (selectWindows_maximal _ [] c Hc) as [H|[H|H]].
  - now left.
  - right. left.
    pose proof (selectWindows_length
                  (sort comparePenalty
                     (allWindows timetable subjectMap globalThreshold
                        subjectThresholds today
                        (today + default defaultWeeksAhead weeksAhead * 7)
                        (default defaultWindowSizes windowSizes)))
                  [] ltac:(simpl; lia)) as Hle.
    lia.
  - now right; right.
Qed.

(** A window of at most seven days cannot reach two of three windows
    that lie nine days apart. *)
Lemma overlap_one_of_three (r f g : VacationWindow) :
  (endDate r - startDate r <= 6)%Z ->
  (endDate f + 7 <= startDate g)%Z ->
  overlap f r -> overlap g r -> False.
Proof. unfold overlap. lia. Qed.

(** With its default sizes and horizon the search returns exactly three
    windows, whatever the timetable, the subjects and the thresholds:
    three candidates of three days, nine days apart, fit within the three
    weeks, and a window selected reaches at most one of them. *)
Theorem default_search_returns_three
    (today : Z) (timetable : Timetable) (subjectMap : gmap string Subject)
    (globalThreshold : number) (subjectThresholds : gmap string number) :
  exists w1 w2 w3 : VacationWindow,
    findBestVacationWindows today timetable subjectMap globalThreshold
      subjectThresholds None None = Some [w1; w2; w3].
Proof.
  rewrite findBest_closed_form. cbn [from_option id].
  unfold defaultWeeksAhead, defaultWindowSizes.
  set (all := allWindows _ _ _ _ _ _ _).
  set (results := selectWindows [] (sort comparePenalty all)).
  assert (Hle : (length results <= 3)%nat)
    by (apply selectWindows_length; simpl; lia).
  assert (Hshort : forall r, r ∈ results ->
            (startDate r <= endDate r)%Z /\
            (endDate r - startDate r <= 6)%Z).
  { intros r Hr.
    apply selectWindows_elem in Hr as [Hr|Hr]; [now apply elem_of_nil in Hr|].
    apply elem_of_sort, elem_of_allWindows in Hr
      as (size & start & Hs & _ & _ & ->).
    unfold windowAt. cbn [startDate endDate].
    set_unfold in Hs. destruct_or!; subst size; lia. }
  pose (fixed := fun start : Z =>
          windowAt timetable subjectMap globalThreshold subjectThresholds
            3 start).
  assert (Hfixed : forall start,
            (today < start)%Z -> (start + 2 <= today + 21)%Z ->
            (3 <= length results)%nat \/
            exists r, r ∈ results /\ overlap (fixed start) r).
  { intros start Hlo Hhi.
    assert (Hin : fixed start ∈ sort comparePenalty all).
    { apply elem_of_sort, elem_of_allWindows. exists 3%Z, start.
      split; [now left|]. split; [exact Hlo|]. split; [lia|reflexivity]. }
    destruct (selectWindows_maximal _ [] _ Hin) as [H|[H|H]].
    - right. exists (fixed start). split; [exact H|].
      unfold overlap, fixed, windowAt. cbn [startDate endDate]. lia.
    - now left.
    - now right. }
  assert (Hthree : (3 <= length results)%nat).
  { destruct (Hfixed (today + 1)%Z ltac:(lia) ltac:(lia))
      as [H|(r1 & Hr1 & Ho1)]; [exact H|].
    destruct (Hfixed (today + 10)%Z ltac:(lia) ltac:(lia))
      as [H|(r2 & Hr2 & Ho2)]; [exact H|].
    destruct (Hfixed (today + 19)%Z ltac:(lia) ltac:(lia))
      as [H|(r3 & Hr3 & Ho3)]; [exact H|].
    assert (Hnd : NoDup [r1; r2; r3]).
    { repeat constructor; set_unfold; intros H; destruct_or?;
        try subst r1; try subst r2; try assumption.
      - apply (overlap_one_of_three r2 (fixed (today + 1)%Z)
                 (fixed (today + 10)%Z)); try assumption.
        + now apply Hshort.
        + unfold fixed, windowAt. cbn [startDate endDate]. lia.
      - apply (overlap_one_of_three r3 (fixed (today + 1)%Z)
                 (fixed (today + 19)%Z)); try assumption.
        + now apply Hshort.
        + unfold fixed, windowAt. cbn [startDate endDate]. lia.
      - apply (overlap_one_of_three r3 (fixed (today + 10)%Z)
                 (fixed (today + 19)%Z)); try assumption.
        + now apply Hshort.
        + unfold fixed, windowAt. cbn [startDate endDate]. lia. }
    assert (Hsub : [r1; r2; r3] ⊆+ results).
    { apply NoDup_submseteq; [exact Hnd|].
      intros x Hx. set_unfold in Hx. destruct_or!; now subst x. }
    apply submseteq_length in Hsub. simpl in Hsub. lia. }
  destruct results as [|w1 [|w2 [|w3 [|w4 rest]]]]; simpl in Hle, Hthree;
    try lia.
  now exists w1, w2, w3.
Qed.

(* ===================================================================== *)
(** * The penalties of the candidates *)
(* ===================================================================== *)

Lemma weightOf_cases (margin : number) :
  weightOf margin = #1 \/ weightOf margin = #2 \/ weightOf margin = #3.
Proof.
  unfold weightOf. destruct (margin <? #0); [now right; right|].
  destruct (margin <? #5); [right|]; now left.
Qed.

(** The scoring loop keeps a finite penalty finite when the drops are
    finite, and a non-negative one non-negative when the drops are. *)
Lemma scoreImpacts_finite (subjectMap : gmap string Subject) gt st
    (l : list SubjectImpact) :
  Forall finite_drop l -> Forall numbered l ->
  forall (q0 : Q) (p : number),
    scoreImpacts subjectMap gt st (Fin q0) l = Some p ->
    exists q : Q,
      p = Fin q /\
      ((0 <= q0)%Q ->
       Forall (fun i => exists d, drop i = Fin d /\ (0 <= d)%Q) l ->
       (0 <= q)%Q).
Proof.
  induction l as [|i l IH]; intros Hfin Hnum q0 p; cbn [scoreImpacts].
  - intros H. injection H as <-. now exists q0.
  - apply Forall_cons in Hfin as [[d Hd] Hfin].
    apply Forall_cons in Hnum as [[n Hn'] Hnum].
    specialize (IH Hfin Hnum).
    destruct (isNoData i).
    { intros Hp. destruct (IH _ _ Hp) as (q & -> & Hq).
      exists q. split; [reflexivity|]. intros H0 Hall.
      apply Forall_cons in Hall as [_ Hall]. now apply Hq. }
    destruct (subjectMap !! impactCode i) as [s|]; [|discriminate].
    rewrite Hd, Hn'. cbn [countNumber].
    assert (Hterm : exists w : Q,
              (0 <= w)%Q /\
              Fin q0 + Fin d
                * weightOf (currentPct i - getEffectiveThreshold s gt st)
                * of_nat n
              = Fin (q0 + d * w * inject_Z (Z.of_nat n))).
    { destruct (weightOf_cases
                  (currentPct i - getEffectiveThreshold s gt st))
        as [-> | [-> | ->]]; eexists; (split; [|reflexivity]); easy. }
    destruct Hterm as (w & Hw & ->).
    intros Hp. destruct (IH _ _ Hp) as (q & -> & Hq).
    exists q. split; [reflexivity|]. intros H0 Hall.
    apply Forall_cons in Hall as [(d' & Hd' & Hdpos) Hall].
    apply Hq; [|exact Hall].
    rewrite Hd in Hd'. injection Hd' as <-.
    assert (Hn : (0 <= inject_Z (Z.of_nat n))%Q)
      by (apply (proj1 (inject_Z_le 0 _)); lia).
    pose proof (Qmult_le_0_compat _ _ Hdpos Hw) as H1.
    pose proof (Qmult_le_0_compat _ _ H1 Hn) as H2. lra.
Qed.

Lemma ownTimetable_codes (timetable : Timetable) (days : list VacationDay) :
  ownTimetable timetable -> ownCodes timetable days.
Proof.
  intros Hown c (day & _ & Hc). unfold scheduled in Hc.
  destruct (isSunday day || isHoliday day); [now apply elem_of_nil in Hc|].
  destruct (timetable !! timetableDayIndex day) as [codes|] eqn:E;
    simpl in Hc; [|now apply elem_of_nil in Hc].
  exact (Hown _ _ E c Hc).
Qed.

Lemma ownCodes_plain (timetable : Timetable) (days : list VacationDay) :
  ownCodes timetable days -> plainCodes timetable days.
Proof.
  intros Hown c Hc. specialize (Hown c Hc).
  now apply orb_false_elim in Hown as [Hm _].
Qed.

Lemma impacts_numbered
    (days : list VacationDay) (timetable : Timetable)
    (subjectMap : gmap string Subject) gt st :
  ownCodes timetable days ->
  Forall numbered
    (impacts (calculateVacationImpact days timetable subjectMap gt st)).
Proof.
  intros Hown. apply Forall_forall. intros i Hi.
  destruct (impacts_from_tally _ _ _ _ _ _ Hown Hi)
    as (s & n & _ & _ & _ & ->).
  exists n. apply impactOf_classCount.
Qed.

(** The penalty of a candidate is a number when no code of the timetable
    is an inherited name, and not a negative one when the counts of the
    subjects satisfy [0 <= attended <= total]. *)
Lemma windowAt_penalty (timetable : Timetable)
    (subjectMap : gmap string Subject) gt st (size start : Z) :
  (forall k s, subjectMap !! k = Some s -> subject_ok s) ->
  ownTimetable timetable ->
  exists q : Q,
    penalty (windowAt timetable subjectMap gt st size start) = Fin q /\
    ((forall k s, subjectMap !! k = Some s -> subject_valid s) ->
     (0 <= q)%Q).
Proof.
  intros Hok Htt. unfold windowAt. cbn [penalty].
  pose proof (ownTimetable_codes timetable
                (getVacationDays start (start + size - 1) ∅) Htt) as Hown.
  destruct (scoreImpacts_window timetable subjectMap gt st start
              (start + size - 1)) as [p Hp].
  rewrite Hp. cbn [from_option id].
  pose proof (impacts_finite_drop
                (getVacationDays start (start + size - 1) ∅) timetable
                subjectMap gt st Hok (ownCodes_plain _ _ Hown)) as Hfin.
  destruct (scoreImpacts_finite _ _ _ _ Hfin
              (impacts_numbered _ _ _ gt st Hown) (inject_Z 0) p Hp)
    as (q & -> & Hq).
  exists q. split; [reflexivity|]. intros Hvalid. apply Hq; [easy|].
  apply Forall_forall. intros i Hi.
  destruct (impact_figures_valid _ _ _ gt st Hvalid Hown i Hi) as [Hnd Hd].
  destruct (isNoData i) eqn:E.
  - destruct (Hnd eq_refl) as (_ & _ & -> & _). now eexists.
  - destruct (Hd eq_refl) as (cur & proj & _ & _ & -> & _ & Hle & _).
    eexists. split; [reflexivity|]. lra.
Qed.

(** On windows with a finite penalty the comparator of the sort is a
    consistent ordering, and standing before means costing no more. *)
Lemma comparePenalty_total (a b : VacationWindow) :
  finite_penalty a -> finite_penalty b ->
  (comparePenalty a b >? #0) = true -> before comparePenalty b a.
Proof.
  intros [x Hx] [y Hy]. unfold before, comparePenalty. rewrite Hx, Hy.
  cbn [JS.sub]. unfold of_Z. rewrite gtb_Fin, gtb_Fin_false.
  unfold inject_Z. lra.
Qed.

Lemma comparePenalty_trans (a b c : VacationWindow) :
  finite_penalty a -> finite_penalty b -> finite_penalty c ->
  before comparePenalty a b -> before comparePenalty b c ->
  before comparePenalty a c.
Proof.
  intros [x Hx] [y Hy] [z Hz]. unfold before, comparePenalty.
  rewrite Hx, Hy, Hz. cbn [JS.sub]. unfold of_Z.
  rewrite !gtb_Fin_false. unfold inject_Z. lra.
Qed.

Lemma before_cheaper (a b : VacationWindow) :
  finite_penalty a -> finite_penalty b ->
  before comparePenalty a b -> cheaper a b.
Proof.
  intros [x Hx] [y Hy]. unfold before, comparePenalty, cheaper.
  rewrite Hx, Hy. cbn [JS.sub]. unfold of_Z.
  rewrite gtb_Fin_false, leb_Fin. unfold inject_Z. lra.
Qed.

Lemma StronglySorted_impl {A} (R R' : A -> A -> Prop) (P : A -> Prop)
    (l : list A) :
  (forall x y, P x -> P y -> R x y -> R' x y) ->
  Forall P l -> StronglySorted R l -> StronglySorted R' l.
Proof.
  intros Himpl HP Hs. induction Hs as [|x l Hs IH Hx]; [constructor|].
  apply Forall_cons in HP as [Px HP]. constructor; [now apply IH|].
  rewrite Forall_forall in Hx, HP |- *. intros y Hy.
  apply Himpl; auto.
Qed.

Lemma allWindows_finite (timetable : Timetable)
    (subjectMap : gmap string Subject) gt st (today endScan : Z)
    (windowSizes : list Z) :
  (forall k s, subjectMap !! k = Some s -> subject_ok s) ->
  ownTimetable timetable ->
  Forall finite_penalty
    (allWindows timetable subjectMap gt st today endScan windowSizes).
Proof.
  intros Hok Htt. apply Forall_forall. intros w Hw.
  apply elem_of_allWindows in Hw as (size & start & _ & _ & _ & ->).
  destruct (windowAt_penalty timetable subjectMap gt st size start Hok Htt)
    as (q & Hq & _).
  now exists q.
Qed.

(** For subjects whose counts are numbers with a total that is not
    negative, and a timetable none of whose codes is a name that objects
    inherit, the windows are returned by ascending penalty, and the first
    one costs no more than any candidate of the search. *)
Theorem cheapest_window_first
    (today : Z) (timetable : Timetable) (subjectMap : gmap string Subject)
    (globalThreshold : number) (subjectThresholds : gmap string number)
    (windowSizes : option (list Z)) (weeksAhead : option Z) :
  (forall k s, subjectMap !! k = Some s -> subject_ok s) ->
  ownTimetable timetable ->
  exists candidates results : list VacationWindow,
    candidateWindows today timetable subjectMap globalThreshold
      subjectThresholds windowSizes weeksAhead = Some candidates /\
    findBestVacationWindows today timetable subjectMap globalThreshold
      subjectThresholds windowSizes weeksAhead = Some results /\
    StronglySorted cheaper results /\
    forall w rest, results = w :: rest ->
      forall c, c ∈ candidates -> cheaper w c.
Proof.
  intros Hok Htt. eexists _, _.
  split; [apply candidateWindows_closed_form|].
  split; [apply findBest_closed_form|].
  set (all := allWindows _ _ _ _ _ _ _).
  pose proof (allWindows_finite timetable subjectMap globalThreshold
                subjectThresholds today
                (today + default defaultWeeksAhead weeksAhead * 7)
                (default defaultWindowSizes windowSizes) Hok Htt) as Hfin.
  fold all in Hfin.
  assert (Hfin' : Forall finite_penalty (sort comparePenalty all)).
  { rewrite Forall_forall in Hfin |- *. intros x Hx.
    apply Hfin. now apply elem_of_sort in Hx. }
  assert (Hsorted : StronglySorted cheaper (sort comparePenalty all)).
  { apply (StronglySorted_impl (before comparePenalty) cheaper
             finite_penalty); [exact before_cheaper|exact Hfin'|].
    apply (sort_sorted comparePenalty finite_penalty);
      [exact comparePenalty_total|exact comparePenalty_trans|exact Hfin]. }
  split; [now apply selectWindows_sorted|].
  intros w rest Hres c Hc. apply (elem_of_sort comparePenalty) in Hc.
  destruct (sort comparePenalty all) as [|c0 cs] eqn:Es;
    [now apply elem_of_nil in Hc|].
  destruct (selectWindows_first c0 cs) as [more Hsel].
  rewrite Hsel in Hres. injection Hres as <- _.
  apply StronglySorted_inv in Hsorted as [_ Hc0].
  apply elem_of_cons in Hc as [->|Hc].
  - apply Forall_cons in Hfin' as [[q Hq] _]. unfold cheaper.
    rewrite Hq. apply leb_Fin. lra.
  - rewrite Forall_forall in Hc0. now apply Hc0.
Qed.

Lemma sample_timetable_own : ownTimetable Sample.timetable.
Proof.
  intros d codes. unfold Sample.timetable.
  rewrite lookup_insert_Some, lookup_singleton_Some.
  intros [[_ <-]|[_ [_ <-]]] c Hc;
    set_unfold in Hc; destruct_or!; subst c; reflexivity.
Qed.

(** The default search on the sample data. *)
Lemma cheapest_window_first_witness :
  exists candidates results : list VacationWindow,
    candidateWindows Sample.monday Sample.timetable Sample.subjects #75 ∅
      None None = Some candidates /\
    findBestVacationWindows Sample.monday Sample.timetable Sample.subjects
      #75 ∅ None None = Some results /\
    StronglySorted cheaper results /\
    forall w rest, results = w :: rest ->
      forall c, c ∈ candidates -> cheaper w c.
Proof.
  apply (cheapest_window_first Sample.monday Sample.timetable
           Sample.subjects #75 ∅ None None).
  - intros k s H. apply subject_valid_ok. exact (sample_subjects_valid k s H).
  - exact sample_timetable_own.
Defined.

(** For subjects with [0 <= attended <= total] and a timetable none of
    whose codes is a name that objects inherit, no candidate has a
    negative penalty, and a candidate without classes has penalty 0. *)
Theorem penalties_not_negative
    (today : Z) (timetable : Timetable) (subjectMap : gmap string Subject)
    (globalThreshold : number) (subjectThresholds : gmap string number)
    (windowSizes : option (list Z)) (weeksAhead : option Z) :
  (forall k s, subjectMap !! k = Some s -> subject_valid s) ->
  ownTimetable timetable ->
  exists candidates : list VacationWindow,
    candidateWindows today timetable subjectMap globalThreshold
      subjectThresholds windowSizes weeksAhead = Some candidates /\
    Forall
      (fun w =>
         (penalty w >=? #0) = true /\
         (windowClasses w = 0%nat -> penalty w = #0))
      candidates.
Proof.
  intros Hvalid Htt. eexists. split; [apply candidateWindows_closed_form|].
  apply Forall_forall. intros w Hw.
  apply elem_of_allWindows in Hw as (size & start & _ & _ & _ & ->).
  pose proof (ownTimetable_codes timetable
                (getVacationDays start (start + size - 1) ∅) Htt) as Hown.
  split.
  - destruct (windowAt_penalty timetable subjectMap globalThreshold
                subjectThresholds size start) as (q & -> & Hq).
    { intros k s H. apply subject_valid_ok. exact (Hvalid k s H). }
    { exact Htt. }
    apply geb_Fin. now apply Hq.
  - unfold windowAt. cbn [windowClasses penalty]. intros Hzero.
    set (r := calculateVacationImpact _ _ _ _ _) in *.
    assert (Hnil : impacts r = []).
    { destruct (impacts r) as [|i l] eqn:E; [reflexivity|]. exfalso.
      pose proof (proj1 (impact_class_sum
                          (getVacationDays start (start + size - 1) ∅)
                          timetable subjectMap globalThreshold
                          subjectThresholds Hown)) as Hsum.
      fold r in Hsum. rewrite E, Hzero in Hsum. cbn [sum_list_with] in Hsum.
      assert (Hi : i ∈ impacts r) by (rewrite E; now left).
      destruct (impacts_from_tally _ _ _ _ _ _ Hown Hi)
        as (s & n & _ & _ & Hpos & Heq).
      rewrite Heq, impactOf_classCount in Hsum. simpl in Hsum. lia. }
    now rewrite Hnil.
Qed.

(** The default search on the sample data. *)
Lemma penalties_not_negative_witness :
  exists candidates : list VacationWindow,
    candidateWindows Sample.monday Sample.timetable Sample.subjects #75 ∅
      None None = Some candidates /\
    Forall
      (fun w =>
         (penalty w >=? #0) = true /\
         (windowClasses w = 0%nat -> penalty w = #0))
      candidates.
Proof.
  apply (penalties_not_negative Sample.monday Sample.timetable
           Sample.subjects #75 ∅ None None).
  - exact sample_subjects_valid.
  - exact sample_timetable_own.
Defined.

(* ===================================================================== *)
(** * More on the classes to bunk and to attend *)
(* ===================================================================== *)

Lemma stays_iff (a tot th : Q) (j : Z) :
  (0 < tot)%Q -> (0 < th)%Q -> (0 <= j)%Z ->
  stays a tot th j = true
    <-> (j <= Qfloor (a * 100 / th - tot))%Z.
Proof.
  intros Htot Hth Hj.
  assert (Hj' : (0 <= inject_Z j)%Q) by now apply (proj1 (inject_Z_le 0 j)).
  unfold stays. simpl.
  destruct (Qeq_bool (tot + inject_Z j) 0) eqn:E.
  { apply Qeq_bool_eq in E. lra. }
  rewrite geb_Fin. change (inject_Z 100) with 100%Q.
  rewrite Qle_div_iff by lra.
  assert (Hiff : (th * (tot + inject_Z j) <= a * 100
                  <-> inject_Z j <= a * 100 / th - tot)%Q).
  { split; intros H.
    - assert (H' : (tot + inject_Z j <= a * 100 / th)%Q)
        by (apply Qle_div_iff; lra).
      lra.
    - assert (H' : (tot + inject_Z j <= a * 100 / th)%Q) by lra.
      apply Qle_div_iff in H'; lra. }
  rewrite Hiff. split.
  - intros H. destruct (Z_le_gt_dec j (Qfloor (a * 100 / th - tot)))
      as [Hle|Hgt]; [exact Hle|].
    assert (Hlt : (Qfloor (a * 100 / th - tot) < j)%Z) by lia.
    apply Qfloor_lt_Z in Hlt. lra.
  - intros H. apply Qle_trans with (inject_Z (Qfloor (a * 100 / th - tot)));
      [now apply (proj1 (inject_Z_le _ _))|apply Qfloor_le].
Qed.

(** For a subject with classes and a positive threshold,
    [calculateClassesToBunk] is exact: writing [f] for the floor it
    clamps, missing [j >= 0] more classes keeps
    [attended * 100 / (total + j) >= threshold] exactly when [j <= f].  So
    a positive result is the largest number of classes that may be missed,
    and the result is 0 when the subject is below the threshold already. *)
Theorem classesToBunk_is_the_most (a tot th : Q) :
  (0 <= a)%Q -> (0 < tot)%Q -> (0 < th)%Q ->
  exists f : Z,
    calculateClassesToBunk (Fin a) (Fin tot) (Fin th) = #(Z.max 0 f) /\
    (forall j : Z, (0 <= j)%Z -> (stays a tot th j = true <-> (j <= f)%Z)) /\
    ((0 <= f)%Z ->
       stays a tot th (Z.max 0 f) = true /\
       stays a tot th (Z.max 0 f + 1) = false) /\
    ((f < 0)%Z -> stays a tot th 0 = false).
Proof.
  intros Ha Htot Hth. exists (Qfloor (a * 100 / th - tot)).
  split; [apply classesToBunk_finite; intro; lra|].
  split; [intros j Hj; now apply stays_iff|].
  split.
  - intros Hf. split.
    + apply stays_iff; [assumption..|lia|lia].
    + destruct (stays a tot th (Z.max 0 (Qfloor (a * 100 / th - tot)) + 1))
        eqn:E; [|reflexivity].
      apply stays_iff in E; [lia|assumption..|lia].
  - intros Hf. destruct (stays a tot th 0) eqn:E; [|reflexivity].
    apply stays_iff in E; [lia|assumption..|lia].
Qed.

(** 20 of 25 classes against 75: one class may be missed, not two. *)
Lemma classesToBunk_is_the_most_witness :
  exists f : Z,
    calculateClassesToBunk #20 #25 #75 = #(Z.max 0 f) /\
    (forall j : Z, (0 <= j)%Z -> (stays 20 25 75 j = true <-> (j <= f)%Z)) /\
    ((0 <= f)%Z ->
       stays 20 25 75 (Z.max 0 f) = true /\
       stays 20 25 75 (Z.max 0 f + 1) = false) /\
    ((f < 0)%Z -> stays 20 25 75 0 = false).
Proof.
  apply (classesToBunk_is_the_most 20 25 75); easy.
Defined.

(** With classes held and a threshold strictly between 0 and 100, a
    subject never has both classes to bunk and classes to attend: when one
    of the two counts is positive the other is 0. *)
Theorem bunk_and_attend_exclude (a tot th : Q) :
  (0 <= a)%Q -> (0 < tot)%Q -> (0 < th)%Q -> (th < 100)%Q ->
  ((calculateClassesToBunk (Fin a) (Fin tot) (Fin th) >? #0) = true ->
     calculateClassesToAttend (Fin a) (Fin tot) (Fin th) = #0) /\
  ((calculateClassesToAttend (Fin a) (Fin tot) (Fin th) >? #0) = true ->
     calculateClassesToBunk (Fin a) (Fin tot) (Fin th) = #0).
Proof.
  intros Ha Htot Hth Hth100.
  rewrite (classesToAttend_finite _ _ _ Hth100).
  rewrite classesToBunk_finite by (intro; lra).
  set (x := ((tot * th - a * 100) / (100 - th))%Q).
  set (y := (a * 100 / th - tot)%Q).
  pose proof (Qle_ceiling x) as Hc1. pose proof (Qceiling_lt x) as Hc2.
  pose proof (Qfloor_le y) as Hf1. pose proof (Qlt_floor y) as Hf2.
  assert (Hxy : (0 < x)%Q -> (y < 0)%Q).
  { unfold x, y. intros H.
    assert (H1 : (a * 100 < tot * th)%Q).
    { apply Qnot_le_lt. intros Hle.
      assert (H3 : ((tot * th - a * 100) / (100 - th) <= 0)%Q)
        by (apply Qdiv_le_iff; lra).
      lra. }
    apply Qnot_le_lt. intros Hle.
    assert (H2 : (tot <= a * 100 / th)%Q) by lra.
    apply Qle_div_iff in H2; lra. }
  unfold of_Z. rewrite !gtb_Fin. split.
  - intros Hb. apply (proj2 (inject_Z_lt 0 _)) in Hb.
    assert (Hy : (0 <= y)%Q).
    { apply Qle_trans with (inject_Z (Qfloor y)); [|exact Hf1].
      apply (proj1 (inject_Z_le 0 _)). lia. }
    assert (Hc : (Qceiling x <= 0)%Z).
    { destruct (Z_le_gt_dec (Qceiling x) 0) as [H|H]; [exact H|].
      assert (H' : (0 < x)%Q).
      { apply Qle_lt_trans with (inject_Z (Qceiling x - 1)); [|exact Hc2].
        apply (proj1 (inject_Z_le 0 _)). lia. }
      apply Hxy in H'. lra. }
    do 2 f_equal. lia.
  - intros Hn. apply (proj2 (inject_Z_lt 0 _)) in Hn.
    assert (Hx : (0 < x)%Q).
    { apply Qle_lt_trans with (inject_Z (Qceiling x - 1)); [|exact Hc2].
      apply (proj1 (inject_Z_le 0 _)). lia. }
    apply Hxy in Hx.
    assert (Hf : (Qfloor y < 0)%Z).
    { apply (proj2 (inject_Z_lt _ 0)).
      apply Qle_lt_trans with y; assumption. }
    do 2 f_equal. lia.
Qed.

(** 18 of 25 classes against 75: three classes must be attended and none
    can be bunked. *)
Lemma bunk_and_attend_exclude_witness :
  calculateClassesToBunk (Fin 18) (Fin 25) (Fin 75) = #0.
Proof.
  apply (bunk_and_attend_exclude 18 25 75); easy.
Defined.

(* ===================================================================== *)
(** * More on the verdict *)
(* ===================================================================== *)

Lemma getVerdict_skip (subject : Subject) (threshold : number) :
  getVerdict subject threshold = skip ->
  calculateStatus (percentage subject) threshold (Some (total subject))
    = safe /\
  (calculateClassesToBunk (attended subject) (total subject) threshold
     >? #0) = true.
Proof.
  unfold getVerdict.
  destruct (calculateStatus (percentage subject) threshold
              (Some (total subject))); cbn [is_no_data is_safe is_low];
    try discriminate.
  destruct (calculateClassesToBunk (attended subject) (total subject)
              threshold >? #0); [easy|discriminate].
Qed.

(** The verdict [skip] is sound: for a subject with counts that are not
    negative and a positive threshold, it is given only when missing the
    next class leaves [attended * 100 / (total + 1) >= threshold]. *)
Theorem skip_verdict_is_sound (subject : Subject) (a t th : Q) :
  attended subject = Fin a -> total subject = Fin t ->
  (0 <= a)%Q -> (0 <= t)%Q -> (0 < th)%Q ->
  getVerdict subject (Fin th) = skip ->
  stays a t th 1 = true.
Proof.
  intros Ha Ht H0 Ht0 Hth Hskip.
  apply getVerdict_skip in Hskip as [Hsafe Hbunk].
  rewrite Ha, Ht in Hbunk. rewrite Ht in Hsafe.
  assert (Htpos : (0 < t)%Q).
  { destruct (Qlt_le_dec 0 t) as [H|H]; [exact H|].
    assert (Hz : (t == 0)%Q) by lra.
    apply (proj2 (eqb_Fin t (inject_Z 0))) in Hz.
    rewrite (calculateStatus_zero _ _ _ Hz) in Hsafe. discriminate. }
  rewrite classesToBunk_finite in Hbunk by (intro; lra).
  unfold of_Z in Hbunk. apply gtb_Fin in Hbunk.
  apply (proj2 (inject_Z_lt 0 _)) in Hbunk.
  apply stays_iff; [assumption..|lia|lia].
Qed.

(** 20 of 25 classes, shown as 80 %, against a threshold of 75. *)
Lemma skip_verdict_is_sound_witness : stays 20 25 75 1 = true.
Proof.
  apply (skip_verdict_is_sound
           (mkSubject "Algorithms" "CS101" (Fin 20) (Fin 25) (Fin 80))
           20 25 75); easy.
Defined.

(* ===================================================================== *)
(** * Threshold overrides and the subject map *)
(* ===================================================================== *)

Import App Dashboard.

(** For a subject whose key is no name that objects inherit: setting its
    override makes it the effective threshold of the subject, resetting
    it gives the global threshold back, the subject counts as customised
    in between only, and none of this touches a subject with another
    key. *)
Theorem threshold_override_round_trip
    (s s' : Subject) (g v : number) (st : gmap string number)
    (value : option number) :
  own_subject s ->
  getEffectiveThreshold s g
    (handleSubjectThresholdChange (getSubjectKey s) (Some v) st) = v /\
  getEffectiveThreshold s g
    (handleSubjectThresholdChange (getSubjectKey s) None st) = g /\
  hasCustomThreshold
    (handleSubjectThresholdChange (getSubjectKey s) (Some v) st) s = true /\
  hasCustomThreshold
    (handleSubjectThresholdChange (getSubjectKey s) None st) s = false /\
  (getSubjectKey s' <> getSubjectKey s ->
   getEffectiveThreshold s' g
     (handleSubjectThresholdChange (getSubjectKey s) value st)
   = getEffectiveThreshold s' g st).
Proof.
  unfold own_subject, getEffectiveThreshold, hasCustomThreshold,
    handleSubjectThresholdChange.
  intros Hown. rewrite Hown.
  assert (Hp : ObjectPrototype.isProto (getSubjectKey s) = false)
    by (unfold ObjectPrototype.inherits in Hown;
        now apply orb_false_elim in Hown as [_ Hp]).
  rewrite Hp. cbn [andb].
  rewrite lookup_insert_eq, lookup_delete_eq.
  split; [reflexivity|]. split; [reflexivity|]. split; [|split].
  - rewrite orb_false_r. apply bool_decide_eq_true. now eexists.
  - rewrite orb_false_r. apply bool_decide_eq_false.
    intros [x Hx]. discriminate Hx.
  - intros Hne. destruct value.
    + now rewrite lookup_insert_ne.
    + now rewrite lookup_delete_ne.
Qed.

(** An override of 80 for [CS101] leaves [CS102] at the global 75. *)
Lemma threshold_override_round_trip_witness :
  getEffectiveThreshold Sample.biology #75
    (handleSubjectThresholdChange (getSubjectKey Sample.algorithms)
       (Some #80) ∅)
  = getEffectiveThreshold Sample.biology #75 ∅.
Proof.
  apply (threshold_override_round_trip Sample.algorithms Sample.biology
           #75 #80 ∅ (Some #80)); [reflexivity|easy].
Defined.

Lemma subjectMap_snoc (subjects : list Subject) (s : Subject) :
  subjectMap (subjects ++ [s])
    = <[getSubjectKey s := s]> (subjectMap subjects).
Proof. unfold subjectMap. now rewrite foldl_app. Qed.

Lemma subjectMap_sound (subjects : list Subject) (k : string) (s : Subject) :
  subjectMap subjects !! k = Some s -> s ∈ subjects /\ getSubjectKey s = k.
Proof.
  induction subjects as [|x l IH] using rev_ind.
  - unfold subjectMap. simpl. now rewrite lookup_empty.
  - rewrite subjectMap_snoc, lookup_insert_Some, elem_of_app,
      list_elem_of_singleton.
    intros [[<- <-]|[_ H]]; [now split; [right|]|].
    destruct (IH H). now split; [left|].
Qed.

(** In the map the dashboard builds from the list of subjects, every
    subject is stored under its own key and every subject of the list has
    its key in the map; when no two subjects share a key, looking up the
    key of a subject gives the subject back. *)
Theorem subjectMap_round_trip (subjects : list Subject) :
  (forall k s, subjectMap subjects !! k = Some s ->
               s ∈ subjects /\ getSubjectKey s = k) /\
  (forall s, s ∈ subjects ->
             is_Some (subjectMap subjects !! getSubjectKey s)) /\
  (NoDup (getSubjectKey <$> subjects) ->
   forall s, s ∈ subjects ->
             subjectMap subjects !! getSubjectKey s = Some s).
Proof.
  split; [intros k s; apply subjectMap_sound|]. split.
  - induction subjects as [|x l IH] using rev_ind;
      intros s Hs; [now apply elem_of_nil in Hs|].
    rewrite subjectMap_snoc.
    destruct (decide (getSubjectKey x = getSubjectKey s)) as [E|E].
    + rewrite E, lookup_insert_eq. now eexists.
    + rewrite lookup_insert_ne by exact E.
      apply elem_of_app in Hs as [Hs|Hs]; [now apply IH|].
      apply list_elem_of_singleton in Hs. congruence.
  - induction subjects as [|x l IH] using rev_ind;
      intros Hnd s Hs; [now apply elem_of_nil in Hs|].
    rewrite subjectMap_snoc. rewrite fmap_app in Hnd.
    apply NoDup_app in Hnd as (Hl & Hx & _).
    apply elem_of_app in Hs as [Hs|Hs].
    + rewrite lookup_insert_ne; [now apply IH|].
      intros E. apply (Hx (getSubjectKey s)).
      * now apply list_elem_of_fmap_2.
      * rewrite <- E. simpl. now left.
    + apply list_elem_of_singleton in Hs as ->. apply lookup_insert_eq.
Qed.

(** The three subjects of the sample data have three keys. *)
Lemma subjectMap_round_trip_witness :
  subjectMap [Sample.algorithms; Sample.biology; Sample.chemistry]
    !! getSubjectKey Sample.biology = Some Sample.biology.
Proof.
  apply (proj2 (proj2 (subjectMap_round_trip
                         [Sample.algorithms; Sample.biology;
                          Sample.chemistry]))).
  - cbn. repeat (constructor; [rewrite ?elem_of_cons; intros H;
      repeat (destruct H as [H|H]; [discriminate H|]);
      now apply elem_of_nil in H|]). constructor.
  - right. now left.
Defined.

(** With the map of the dashboard, every impact of a range stands for a
    subject of the list: its code is the key of that subject and its name
    the name of that subject. *)
Theorem impacts_stand_for_subjects
    (days : list VacationDay) (timetable : Timetable)
    (subjects : list Subject) (globalThreshold : number)
    (subjectThresholds : gmap string number) :
  Forall
    (fun i =>
       exists s, s ∈ subjects /\ getSubjectKey s = impactCode i /\
                 impactName i = name s /\
                 (isNoData i = true <-> (total s === #0) = true))
    (impacts (calculateVacationImpact days timetable (subjectMap subjects)
                globalThreshold subjectThresholds)).
Proof.
  apply Forall_forall. intros i Hi.
  destruct (impact_has_subject _ _ _ _ _ _ Hi) as (n & s & Hs & Heq).
  apply subjectMap_sound in Hs as [Hin Hkey].
  exists s. split; [exact Hin|]. split; [exact Hkey|].
  rewrite Heq. unfold impactOf.
  destruct (total s === #0); cbn; split; easy.
Qed.

(* ===================================================================== *)
(** * The counts of the dashboard *)
(* ===================================================================== *)

Lemma status_eqb_eq (a b : Status) : status_eqb a b = true <-> a = b.
Proof. destruct a, b; simpl; split; easy. Qed.

Lemma statusCounts_fold (g : number) (st : gmap string number)
    (subjects : list Subject) :
  forall (acc : StatusCounts) (f : Status),
    StatusFilter.getCount
      (foldl (fun acc subject =>
                countStatus acc (getSubjectStatus g st subject))
         acc subjects)
      (filter_status f)
    = (StatusFilter.getCount acc (filter_status f)
       + length (filteredSubjects g st (filter_status f) subjects))%nat.
Proof.
  induction subjects as [|s l IH]; intros acc f; cbn [foldl].
  - simpl. lia.
  - rewrite IH. cbn [filteredSubjects List.filter].
    destruct (getSubjectStatus g st s), f, acc; simpl; lia.
Qed.

Lemma statusCounts_getCount (g : number) (st : gmap string number)
    (subjects : list Subject) (f : Status) :
  StatusFilter.getCount (statusCounts g st subjects) (filter_status f)
    = length (filteredSubjects g st (filter_status f) subjects).
Proof.
  unfold statusCounts. rewrite statusCounts_fold. destruct f; simpl; lia.
Qed.

Lemma filteredSubjects_split (g : number) (st : gmap string number)
    (subjects : list Subject) :
  (length (filteredSubjects g st (filter_status safe) subjects)
   + length (filteredSubjects g st (filter_status critical) subjects)
   + length (filteredSubjects g st (filter_status low) subjects)
   + length (filteredSubjects g st (filter_status no_data) subjects)
   = length subjects)%nat.
Proof.
  cbn [filteredSubjects].
  induction subjects as [|s l IH]; [reflexivity|].
  cbn [List.filter length].
  destruct (getSubjectStatus g st s); simpl; lia.
Qed.

(** The counts on the chips of the status filter: each status chip counts
    the subjects it shows when selected, the four statuses split the
    subjects, and the chip [All] counts them all. *)
Theorem status_counts_partition
    (threshold : number) (subjectThresholds : gmap string number)
    (subjects : list Subject) :
  let counts := statusCounts threshold subjectThresholds subjects in
  (forall key,
     StatusFilter.getCount counts key
       = length (filteredSubjects threshold subjectThresholds key subjects)) /\
  StatusFilter.totalCount counts = length subjects /\
  (forall s, s ∈ subjects ->
     exists f, s ∈ filteredSubjects threshold subjectThresholds
                     (filter_status f) subjects).
Proof.
  cbn zeta.
  pose proof (statusCounts_getCount threshold subjectThresholds subjects)
    as Hc.
  assert (Ht : StatusFilter.totalCount
                 (statusCounts threshold subjectThresholds subjects)
               = length subjects).
  { unfold StatusFilter.totalCount.
    pose proof (Hc safe) as H1. pose proof (Hc critical) as H2.
    pose proof (Hc low) as H3. pose proof (Hc no_data) as H4.
    cbn [StatusFilter.getCount] in H1, H2, H3, H4.
    rewrite H1, H2, H3, H4. apply filteredSubjects_split. }
  split; [|split].
  - intros [|f]; [exact Ht|apply Hc].
  - exact Ht.
  - intros s Hs. exists (getSubjectStatus threshold subjectThresholds s).
    cbn [filteredSubjects]. apply elem_of_bool_filter.
    split; [exact Hs|]. now apply status_eqb_eq.
Qed.

(* ===================================================================== *)
(** * The overall statistics *)
(* ===================================================================== *)

Import OverallStatsCard JSMath.

Lemma gtb_zero_not_eqb (t : number) : (t >? #0) = true -> (t === #0) = false.
Proof. unfold gtb, eqb. destruct (compare t #0) as [[]|]; easy. Qed.

Lemma addSubject_counts (g : number) (st : gmap string number)
    (l : list Subject) :
  Forall (fun s => (total s >? #0) = true) l ->
  forall acc : Totals,
    accSafe (foldl (addSubject g st) acc l)
      = (accSafe acc
         + length (filteredSubjects g st (filter_status safe) l))%nat /\
    accCritical (foldl (addSubject g st) acc l)
      = (accCritical acc
         + length (filteredSubjects g st (filter_status critical) l))%nat /\
    accLow (foldl (addSubject g st) acc l)
      = (accLow acc
         + length (filteredSubjects g st (filter_status low) l))%nat /\
    length (filteredSubjects g st (filter_status no_data) l) = 0%nat.
Proof.
  induction 1 as [|s l Hs Hl IH]; intros acc; cbn [foldl].
  - simpl. lia.
  - destruct (IH (addSubject g st acc s)) as (H1 & H2 & H3 & H4).
    rewrite H1, H2, H3. cbn [filteredSubjects List.filter] in *.
    unfold addSubject. cbn [accSafe accCritical accLow].
    assert (Hn : getSubjectStatus g st s <> no_data).
    { unfold getSubjectStatus.
      rewrite (calculateStatus_nonzero _ _ _ (gtb_zero_not_eqb _ Hs)).
      apply standing_not_no_data. }
    change (calculateStatus (percentage s) (getEffectiveThreshold s g st)
              (Some (total s))) with (getSubjectStatus g st s).
    destruct (getSubjectStatus g st s); try congruence; simpl; lia.
Qed.

(** The statistics card counts the subjects with classes: each of them is
    safe, critical or low, so the three counts add up to their number, and
    each count is the number of such subjects the dashboard shows under
    that status. *)
Theorem stats_counts_partition
    (subjects : list Subject) (globalThreshold : number)
    (subjectThresholds : gmap string number) :
  let s := stats subjects globalThreshold subjectThresholds in
  let active := List.filter (fun s => total s >? #0) subjects in
  (safeCount s + criticalCount s + lowCount s = length active)%nat /\
  safeCount s
    = length (filteredSubjects globalThreshold subjectThresholds
                (filter_status safe) active) /\
  criticalCount s
    = length (filteredSubjects globalThreshold subjectThresholds
                (filter_status critical) active) /\
  lowCount s
    = length (filteredSubjects globalThreshold subjectThresholds
                (filter_status low) active).
Proof.
  cbn zeta. unfold stats. cbn [safeCount criticalCount lowCount].
  set (active := List.filter (fun s => total s >? #0) subjects).
  assert (Hact : Forall (fun s => (total s >? #0) = true) active).
  { apply Forall_forall. intros s Hs.
    now apply elem_of_bool_filter in Hs as [_ Hs]. }
  destruct (addSubject_counts globalThreshold subjectThresholds active Hact
              (mkTotals #0 #0 0 0 0)) as (H1 & H2 & H3 & H4).
  rewrite H1, H2, H3. cbn [accSafe accCritical accLow].
  split; [|repeat split; lia].
  pose proof (filteredSubjects_split globalThreshold subjectThresholds
                active) as Hsplit.
  lia.
Qed.

Lemma stats_sums (l : list Subject) :
  Forall (fun s => subject_valid s /\ (total s >? #0) = true) l ->
  forall a0 t0 : Q,
    (0 <= a0)%Q -> (a0 <= t0)%Q ->
    exists A T : Q,
      foldl (fun sum s => sum + attended s) (Fin a0) l = Fin A /\
      foldl (fun sum s => sum + total s) (Fin t0) l = Fin T /\
      (0 <= A)%Q /\ (A <= T)%Q /\ (t0 <= T)%Q /\ (l <> [] -> (t0 < T)%Q).
Proof.
  induction 1 as [|s l [(a & t & Ha & Ht & H0 & Hat) Hpos] Hl IH];
    intros a0 t0 Ha0 Hat0; cbn [foldl].
  - exists a0, t0. repeat split; try assumption; try lra. congruence.
  - rewrite Ha, Ht. cbn [add]. rewrite Ht in Hpos.
    unfold of_Z in Hpos. apply gtb_Fin in Hpos. unfold inject_Z in Hpos.
    destruct (IH (a0 + a)%Q (t0 + t)%Q ltac:(lra) ltac:(lra))
      as (A & T & HA & HT & HA0 & HAT & HtT & _).
    exists A, T. repeat split; try assumption; lra.
Qed.

Lemma round_percent (x : Q) :
  (0 <= x)%Q -> (x <= 1)%Q ->
  round (Fin x * Fin (inject_Z 100))
    = Fin (inject_Z (Qfloor (x * 100 + Qmake 1 2))) /\
  (0 <= Qfloor (x * 100 + Qmake 1 2) <= 100)%Z.
Proof.
  intros H0 H1. split; [reflexivity|].
  split.
  - change 0%Z with (Qfloor (Qmake 1 2)). apply Qfloor_resp_le. lra.
  - change (Qfloor (x * 100 + Qmake 1 2) <= Qfloor (1 * 100 + Qmake 1 2))%Z.
    apply Qfloor_resp_le. lra.
Qed.

Lemma round_percent_mono (x y : Q) :
  (x <= y)%Q ->
  (Qfloor (x * 100 + Qmake 1 2) <= Qfloor (y * 100 + Qmake 1 2))%Z.
Proof. intros H. apply Qfloor_resp_le. lra. Qed.

Lemma Fin_div (x y : Q) : (0 < y)%Q -> Fin x / Fin y = Fin (x / y).
Proof.
  intros Hy. simpl. destruct (Qeq_bool y 0) eqn:E; [|reflexivity].
  apply Qeq_bool_eq in E. lra.
Qed.

(** For subjects with [0 <= attended <= total], the three percentages of
    the statistics card are whole numbers with
    [0 <= afterSkipAll <= overallPercentage <= afterAttendAll <= 100]. *)
Theorem stats_percentages_ordered
    (subjects : list Subject) (globalThreshold : number)
    (subjectThresholds : gmap string number) :
  Forall subject_valid subjects ->
  let s := stats subjects globalThreshold subjectThresholds in
  exists down p up : Z,
    afterSkipAll s = #down /\ overallPercentage s = #p /\
    afterAttendAll s = #up /\
    (0 <= down)%Z /\ (down <= p)%Z /\ (p <= up)%Z /\ (up <= 100)%Z.
Proof.
  intros Hvalid. cbn zeta. unfold stats.
  cbn [afterSkipAll overallPercentage afterAttendAll].
  set (active := List.filter (fun s => total s >? #0) subjects).
  assert (Hact : Forall (fun s => subject_valid s /\ (total s >? #0) = true)
                   active).
  { apply Forall_forall. intros s Hs.
    apply elem_of_bool_filter in Hs as [Hin Hs].
    rewrite Forall_forall in Hvalid. split; [now apply Hvalid|exact Hs]. }
  destruct (stats_sums active Hact 0 0 ltac:(lra) ltac:(lra))
    as (A & T & HA & HT & HA0 & HAT & HT0 & HTpos).
  change (Fin 0) with #0 in HA, HT. rewrite HA, HT.
  destruct active as [|s0 rest] eqn:Eact.
  - cbn [foldl] in HA, HT. injection HA as <-. injection HT as <-.
    exists 0%Z, 0%Z, 0%Z. repeat split; try reflexivity; lia.
  - specialize (HTpos ltac:(discriminate)).
    set (n := length (s0 :: rest)).
    assert (Hn : (0 <= inject_Z (Z.of_nat n))%Q)
      by (apply (proj1 (inject_Z_le 0 _)); lia).
    cbn [of_nat of_Z add]. set (N := inject_Z (Z.of_nat n)) in *.
    assert (E1 : (Fin T >? #0) = true)
      by (apply gtb_Fin; unfold inject_Z; lra).
    assert (E2 : (Fin (T + N) >? #0) = true)
      by (apply gtb_Fin; unfold inject_Z; lra).
    unfold of_Z in E1, E2 |- *. rewrite E1, E2.
    rewrite !Fin_div by lra.
    assert (Hq0 : (0 <= A / T)%Q) by (apply Qle_div_iff; lra).
    assert (Hq1 : (A / T <= 1)%Q) by (apply Qdiv_le_iff; lra).
    assert (HqT : (A / T * T == A)%Q) by (field; intro; lra).
    pose proof (Qmult_le_0_compat _ _ Hq0 Hn) as HqN.
    assert (HqN1 : (A / T * N <= N)%Q).
    { assert (H : (A / T * N <= 1 * N)%Q)
        by (apply Qmult_le_compat_r; assumption).
      lra. }
    assert (Hd0 : (0 <= A / (T + N))%Q) by (apply Qle_div_iff; lra).
    assert (Hdq : (A / (T + N) <= A / T)%Q) by (apply Qdiv_le_iff; lra).
    assert (Hqu : (A / T <= (A + N) / (T + N))%Q)
      by (apply Qle_div_iff; lra).
    assert (Hu1 : ((A + N) / (T + N) <= 1)%Q) by (apply Qdiv_le_iff; lra).
    destruct (round_percent (A / (T + N)) Hd0 ltac:(lra)) as [-> Hb1].
    destruct (round_percent (A / T) Hq0 Hq1) as [-> Hb2].
    destruct (round_percent ((A + N) / (T + N)) ltac:(lra) Hu1) as [-> Hb3].
    pose proof (round_percent_mono _ _ Hdq) as Hm1.
    pose proof (round_percent_mono _ _ Hqu) as Hm2.
    eexists _, _, _. repeat split; try reflexivity; lia.
Qed.

(** The three subjects of the sample data. *)
Lemma stats_percentages_ordered_witness :
  exists down p up : Z,
    afterSkipAll
      (stats [Sample.algorithms; Sample.biology; Sample.chemistry] #75 ∅)
      = #down /\
    overallPercentage
      (stats [Sample.algorithms; Sample.biology; Sample.chemistry] #75 ∅)
      = #p /\
    afterAttendAll
      (stats [Sample.algorithms; Sample.biology; Sample.chemistry] #75 ∅)
      = #up /\
    (0 <= down)%Z /\ (down <= p)%Z /\ (p <= up)%Z /\ (up <= 100)%Z.
Proof.
  apply (stats_percentages_ordered
           [Sample.algorithms; Sample.biology; Sample.chemistry] #75 ∅).
  repeat constructor;
    eexists _, _; (split; [reflexivity|]; split; [reflexivity|easy]).
Defined.

(* ===================================================================== *)
(** * The screen of the vacation planner *)
(* ===================================================================== *)

Lemma found_windows
    (today : Z) (timetable : Timetable) (subjectMap : gmap string Subject)
    (globalThreshold : number) (subjectThresholds : gmap string number) :
  exists results : list VacationWindow,
    findBestVacationWindows today timetable subjectMap globalThreshold
      subjectThresholds None None = Some results /\
    Forall
      (fun w =>
         exists size start : Z,
           (3 <= size)%Z /\ (today < start)%Z /\
           w = windowAt timetable subjectMap globalThreshold
                 subjectThresholds size start)
      results.
Proof.
  eexists. split; [apply findBest_closed_form|].
  apply Forall_forall. intros w Hw.
  apply selectWindows_elem in Hw as [Hw|Hw]; [now apply elem_of_nil in Hw|].
  apply elem_of_sort, elem_of_allWindows in Hw
    as (size & start & Hs & Hlo & _ & ->).
  exists size, start. split; [|now split].
  cbn [from_option id] in Hs. unfold defaultWindowSizes in Hs.
  set_unfold in Hs. destruct_or!; subst size; lia.
Qed.

Lemma elem_of_weekdaysInRange (st : PlannerScreen.State) (day : VacationDay) :
  day ∈ PlannerScreen.weekdaysInRange st ->
  exists s e d,
    PlannerScreen.startDate st = Some s /\
    PlannerScreen.endDate st = Some e /\
    (s <= d <= e)%Z /\ getDay d <> 0%Z /\ dateStr day = formatDateStr d.
Proof.
  unfold PlannerScreen.weekdaysInRange, PlannerScreen.vacationDays.
  intros H. apply elem_of_bool_filter in H as [Hin Hsun].
  destruct (PlannerScreen.startDate st) as [s|];
    [|now apply elem_of_nil in Hin].
  destruct (PlannerScreen.endDate st) as [e|];
    [|now apply elem_of_nil in Hin].
  unfold getVacationDays in Hin.
  rewrite getVacationDays_loop_closed_form in Hin by reflexivity.
  apply list_elem_of_fmap in Hin as (d & -> & Hd).
  apply elem_of_seqZ in Hd.
  exists s, e, d. split; [reflexivity|]. split; [reflexivity|].
  split; [lia|]. split; [|reflexivity].
  rewrite isSunday_vacationDay in Hsun. unfold getDay. lia.
Qed.

(** The parts of [screen_ok] for a state with a fresh selection. *)
Ltac fresh_selection :=
  repeat split; cbn; try easy; try (intros; simplify_eq; lia);
  try (intros ? ?; set_solver).

Section Screen.
Context (timetable : Timetable) (subjectMap : gmap string Subject)
        (globalThreshold : number) (subjectThresholds : gmap string number)
        (today : Z).

Lemma step_screen_ok (st st' : PlannerScreen.State) (e : PlannerScreen.Event) :
  screen_ok today st ->
  PlannerScreen.step timetable subjectMap globalThreshold subjectThresholds
    today st e = Some st' ->
  screen_ok today st'.
Proof.
  intros (Hend & Hstart & Hord & Hhol & Hsug).
  destruct e as [| |date|idx|now|idx]; cbn [PlannerScreen.step].
  - intros H. injection H as <-. now repeat split.
  - destruct (bool_decide _); [|discriminate].
    intros H. injection H as <-. fresh_selection.
  - destruct (PlannerScreen.showCalendar st); [|discriminate].
    destruct (CalendarPicker.disabled date today) eqn:Ed; [discriminate|].
    unfold CalendarPicker.disabled in Ed.
    apply orb_false_elim in Ed as [Esun Epast].
    cbn [andb negb]. unfold CalendarPicker.handleTapDate,
      CalendarPicker.tapCount.
    destruct (PlannerScreen.startDate st) as [s|] eqn:Es.
    + destruct (PlannerScreen.endDate st) as [e|] eqn:Ee; cbn.
      * intros H. injection H as <-. fresh_selection.
      * specialize (Hstart s eq_refl).
        destruct (date <? s)%Z eqn:El; intros H; injection H as <-;
          fresh_selection.
    + cbn. intros H. injection H as <-. fresh_selection.
  - destruct (PlannerScreen.startDate st) as [s|] eqn:Es; [|discriminate].
    destruct (PlannerScreen.endDate st) as [e|] eqn:Ee; [|discriminate].
    destruct (PlannerScreen.weekdaysInRange st !! idx) as [day|] eqn:Ei;
      [|discriminate].
    intros H. injection H as <-.
    apply list_elem_of_lookup_2, elem_of_weekdaysInRange in Ei
      as (s0 & e0 & d & Hs0 & He0 & Hd & Hsun & Hstr).
    unfold PlannerScreen.handleToggleHoliday.
    split; [|split; [|split; [|split]]];
      cbn [PlannerScreen.startDate PlannerScreen.endDate
           PlannerScreen.holidays PlannerScreen.suggestions];
      rewrite ?Es, ?Ee; try assumption.
    intros h Hh.
    assert (Hcases : h ∈ PlannerScreen.holidays st \/ h = dateStr day).
    { revert Hh. destruct (bool_decide _).
      - rewrite elem_of_difference. intros [H _]. now left.
      - rewrite elem_of_union, elem_of_singleton. tauto. }
    destruct Hcases as [Hold| ->]; [now apply Hhol|].
    rewrite Es in Hs0. rewrite Ee in He0. exists s0, e0, d.
    now repeat split.
  - destruct (today <=? now)%Z eqn:En; [|discriminate].
    unfold PlannerScreen.handleFindBest.
    destruct (found_windows now timetable subjectMap globalThreshold
                subjectThresholds) as (ws & -> & Hws).
    intros H. injection H as <-.
    split; [|split; [|split; [|split]]];
      cbn [PlannerScreen.startDate PlannerScreen.endDate
           PlannerScreen.holidays PlannerScreen.suggestions];
      try assumption.
    intros ws' H. injection H as <-.
    rewrite Forall_forall in Hws |- *. intros w Hw.
    destruct (Hws w Hw) as (size & start & Hsize & Hlo & ->).
    unfold windowAt. cbn [startDate endDate]. lia.
  - destruct (PlannerScreen.showSuggestions st); [|discriminate].
    destruct (PlannerScreen.suggestions st) as [ws|] eqn:Ews; [|discriminate].
    destruct (ws !! idx) as [w|] eqn:Ew; [|discriminate].
    intros H. injection H as <-.
    specialize (Hsug ws eq_refl). rewrite Forall_forall in Hsug.
    destruct (Hsug w (list_elem_of_lookup_2 _ _ _ Ew)) as [Hlo Hle].
    destruct w as [ws0 we0 dur cls risk pen]. cbn in Hlo, Hle.
    fresh_selection.
Qed.

Lemma run_screen_ok (events : list PlannerScreen.Event) :
  forall st st' : PlannerScreen.State,
    screen_ok today st ->
    PlannerScreen.run timetable subjectMap globalThreshold subjectThresholds
      today st events = Some st' ->
    screen_ok today st'.
Proof.
  induction events as [|e events IH]; intros st st' Hok;
    cbn [PlannerScreen.run].
  - intros H. now injection H as <-.
  - destruct (PlannerScreen.step _ _ _ _ today st e) as [st1|] eqn:E;
      [|discriminate].
    apply IH. exact (step_screen_ok _ _ _ Hok E).
Qed.

End Screen.

(** Whatever the user does on the planner screen, from the state it is
    mounted in: an end date is set only with a start date, the range
    starts on the day the screen was mounted or later and its dates are in
    order, every day marked as a holiday is a day of the range that is not
    a Sunday, and the suggestions shown are windows in the future.  With
    both dates set, the range holds [end - start + 1] days and an impact
    result is shown. *)
Theorem planner_screen_invariant
    (timetable : Timetable) (subjectMap : gmap string Subject)
    (globalThreshold : number) (subjectThresholds : gmap string number)
    (today : Z) (events : list PlannerScreen.Event)
    (st : PlannerScreen.State) :
  PlannerScreen.run timetable subjectMap globalThreshold subjectThresholds
    today PlannerScreen.initial events = Some st ->
  screen_ok today st /\
  forall s e,
    PlannerScreen.startDate st = Some s ->
    PlannerScreen.endDate st = Some e ->
    length (PlannerScreen.vacationDays st) = Z.to_nat (e - s + 1) /\
    is_Some (PlannerScreen.impactResult timetable subjectMap
               globalThreshold subjectThresholds st).
Proof.
  intros Hrun.
  assert (Hok : screen_ok today st).
  { apply (run_screen_ok timetable subjectMap globalThreshold
             subjectThresholds today events PlannerScreen.initial);
      [|exact Hrun].
    fresh_selection. }
  split; [exact Hok|]. intros s e Hs He.
  destruct Hok as (_ & _ & Hord & _). specialize (Hord s e Hs He).
  assert (Hlen : length (PlannerScreen.vacationDays st)
                 = Z.to_nat (e - s + 1)).
  { unfold PlannerScreen.vacationDays. rewrite Hs, He.
    unfold getVacationDays.
    rewrite getVacationDays_loop_closed_form by reflexivity.
    now rewrite length_fmap, length_seqZ. }
  split; [exact Hlen|]. unfold PlannerScreen.impactResult.
  destruct (length (PlannerScreen.vacationDays st) =? 0)%nat eqn:E;
    [|now eexists].
  apply Nat.eqb_eq in E. lia.
Qed.

(** The screen is opened on the Monday of the sample data: the calendar
    is shown, Thursday and then Tuesday are tapped, Tuesday is marked as
    a holiday, the search is run the day after and its second suggestion
    is applied. *)
Lemma planner_screen_invariant_witness :
  exists st : PlannerScreen.State,
    PlannerScreen.run Sample.timetable Sample.subjects #75 ∅ Sample.monday
      PlannerScreen.initial
      [ PlannerScreen.press_dates;
        PlannerScreen.tap_date (Sample.monday + 3);
        PlannerScreen.tap_date (Sample.monday + 1);
        PlannerScreen.toggle_holiday 0;
        PlannerScreen.press_find_best (Sample.monday + 1);
        PlannerScreen.press_suggestion 1 ] = Some st /\
    screen_ok Sample.monday st.
Proof.
  eexists. split; [vm_compute; reflexivity|].
  apply (planner_screen_invariant Sample.timetable Sample.subjects #75 ∅
           Sample.monday
           [ PlannerScreen.press_dates;
             PlannerScreen.tap_date (Sample.monday + 3);
             PlannerScreen.tap_date (Sample.monday + 1);
             PlannerScreen.toggle_holiday 0;
             PlannerScreen.press_find_best (Sample.monday + 1);
             PlannerScreen.press_suggestion 1 ]).
  vm_compute. reflexivity.
Defined.

(** Applying a suggestion of the search selects its dates without
    holidays, and the impact then shown for the range has the class count
    and the count of subjects at risk that the suggestion announced. *)
Theorem applied_suggestion_keeps_its_numbers
    (timetable : Timetable) (subjectMap : gmap string Subject)
    (globalThreshold : number) (subjectThresholds : gmap string number)
    (now : Z) (st : PlannerScreen.State) :
  exists suggestions : list VacationWindow,
    findBestVacationWindows now timetable subjectMap globalThreshold
      subjectThresholds None None = Some suggestions /\
    Forall
      (fun w =>
         let st' := PlannerScreen.handleApplySuggestion w st in
         PlannerScreen.startDate st' = Some (startDate w) /\
         PlannerScreen.endDate st' = Some (endDate w) /\
         PlannerScreen.holidays st' = ∅ /\
         exists result : VacationImpactResult,
           PlannerScreen.impactResult timetable subjectMap globalThreshold
             subjectThresholds st' = Some result /\
           totalClasses result = windowClasses w /\
           PlannerScreen.atRiskCount timetable subjectMap globalThreshold
             subjectThresholds st' = atRiskCount w)
      suggestions.
Proof.
  destruct (found_windows now timetable subjectMap globalThreshold
              subjectThresholds) as (ws & Hws & Hall).
  exists ws. split; [exact Hws|].
  rewrite Forall_forall in Hall |- *. intros w Hw.
  destruct (Hall w Hw) as (size & start & Hsize & _ & ->).
  cbn zeta. unfold windowAt. cbn [PlannerScreen.handleApplySuggestion
    PlannerScreen.startDate PlannerScreen.endDate PlannerScreen.holidays
    startDate endDate windowClasses atRiskCount].
  split; [reflexivity|]. split; [reflexivity|]. split; [reflexivity|].
  assert (Hlen : length (getVacationDays start (start + size - 1) ∅)
                 = Z.to_nat size).
  { unfold getVacationDays.
    rewrite getVacationDays_loop_closed_form by reflexivity.
    rewrite length_fmap, length_seqZ. f_equal. lia. }
  unfold PlannerScreen.atRiskCount, PlannerScreen.impactResult,
    PlannerScreen.vacationDays.
  cbn [PlannerScreen.startDate PlannerScreen.endDate PlannerScreen.holidays].
  rewrite Hlen.
  destruct (Z.to_nat size =? 0)%nat eqn:E; [apply Nat.eqb_eq in E; lia|].
  eexists. split; [reflexivity|]. split; reflexivity.
Qed.

(* ===================================================================== *)
(** * The editors of the thresholds *)
(* ===================================================================== *)

Lemma max_Fin (x y : Q) :
  max (Fin x) (Fin y) = Fin (if Qlt_le_dec x y then y else x).
Proof.
  unfold max, compare.
  destruct (Qcompare_spec x y), (Qlt_le_dec x y); try reflexivity; lra.
Qed.

Lemma min_Fin (x y : Q) :
  min (Fin x) (Fin y) = Fin (if Qlt_le_dec y x then y else x).
Proof.
  unfold min, compare.
  destruct (Qcompare_spec x y), (Qlt_le_dec y x); try reflexivity; lra.
Qed.

Lemma whole_in_finite (lo hi : Z) (v : number) :
  whole_in lo hi v -> exists q : Q, v = Fin q.
Proof. intros (z & Hz & _). destruct v; try easy. now eexists. Qed.

(** [Math.max] and [Math.min] of whole numbers. *)
Lemma max_whole (a b : number) (za zb : Z) :
  a ≈ #za -> b ≈ #zb -> max a b ≈ #(Z.max za zb).
Proof.
  destruct a as [x| | |], b as [y| | |]; try easy. unfold of_Z. simpl.
  intros Hx Hy. rewrite max_Fin. simpl.
  destruct (Qlt_le_dec x y) as [H|H]; rewrite Hx, Hy in H.
  - apply inject_Z_lt in H. rewrite Z.max_r by lia. exact Hy.
  - apply inject_Z_le in H. rewrite Z.max_l by lia. exact Hx.
Qed.

Lemma min_whole (a b : number) (za zb : Z) :
  a ≈ #za -> b ≈ #zb -> min a b ≈ #(Z.min za zb).
Proof.
  destruct a as [x| | |], b as [y| | |]; try easy. unfold of_Z. simpl.
  intros Hx Hy. rewrite min_Fin. simpl.
  destruct (Qlt_le_dec y x) as [H|H]; rewrite Hx, Hy in H.
  - apply inject_Z_lt in H. rewrite Z.min_r by lia. exact Hy.
  - apply inject_Z_le in H. rewrite Z.min_l by lia. exact Hx.
Qed.

Lemma add_whole (a : number) (za k : Z) : a ≈ #za -> a + #k ≈ #(za + k).
Proof.
  destruct a as [x| | |]; try easy. unfold of_Z. simpl.
  intros ->. now rewrite inject_Z_plus.
Qed.

Lemma sub_whole (a : number) (za k : Z) : a ≈ #za -> a - #k ≈ #(za - k).
Proof.
  destruct a as [x| | |]; try easy. unfold of_Z. simpl.
  intros ->. unfold Z.sub. now rewrite inject_Z_plus, inject_Z_opp.
Qed.

Lemma whole_refl (z : Z) : #z ≈ #z.
Proof. reflexivity. Qed.

Lemma signedDigits_cases (sign : Z) (s : string) :
  Parse.signedDigits sign s = NaN
  \/ exists z : Z, Parse.signedDigits sign s = #z.
Proof.
  destruct s as [|c r]; [now left|]. unfold Parse.signedDigits.
  destruct (Parse.isDigit c); [right; now eexists|now left].
Qed.

Lemma parseInt10_cases (s : string) :
  Parse.parseInt10 s = NaN \/ exists z : Z, Parse.parseInt10 s = #z.
Proof.
  unfold Parse.parseInt10.
  destruct (Parse.trimStart s) as [|[[] [] [] [] [] [] [] []] r];
    apply signedDigits_cases.
Qed.

(** The value of the slider after a gesture at a ratio between 0 and 1. *)
Lemma slider_value_of_ratio (r : Q) :
  (0 <= r)%Q -> (r <= 1)%Q ->
  whole_in 50 95
    (round (AttendanceCard.SLIDER_MIN
            + Fin r * (AttendanceCard.SLIDER_MAX - AttendanceCard.SLIDER_MIN))).
Proof.
  intros H0 H1. unfold AttendanceCard.SLIDER_MIN, AttendanceCard.SLIDER_MAX.
  cbn [of_Z sub mul add round].
  eexists. split; [reflexivity|].
  change (inject_Z 50) with 50%Q. change (inject_Z 95) with 95%Q. split.
  - match goal with
    | |- (_ <= Qfloor ?X)%Z =>
        change (Qfloor (50 + Qmake 1 2) <= Qfloor X)%Z
    end.
    apply Qfloor_resp_le. lra.
  - match goal with
    | |- (Qfloor ?X <= _)%Z =>
        change (Qfloor X <= Qfloor (95 + Qmake 1 2))%Z
    end.
    apply Qfloor_resp_le. lra.
Qed.

Lemma clamp_ratio (v : number) :
  v <> NaN ->
  exists r : Q,
    AttendanceCard.clamp v #0 #1 = Fin r /\ (0 <= r)%Q /\ (r <= 1)%Q.
Proof.
  unfold AttendanceCard.clamp, of_Z.
  change (inject_Z 0) with 0%Q. change (inject_Z 1) with 1%Q.
  destruct v as [q| | |]; [| | |congruence]; intros _.
  - rewrite max_Fin. destruct (Qlt_le_dec q 0) as [Hlo|Hlo];
      rewrite min_Fin; destruct (Qlt_le_dec 1 _) as [Hhi|Hhi];
      eexists; (split; [reflexivity|]); lra.
  - exists 1%Q. repeat split; lra.
  - exists 0%Q. repeat split; lra.
Qed.

Lemma handleSliderGesture_range (w x : Q) :
  ~ ((w == 0)%Q /\ (x == 0)%Q) ->
  whole_in 50 95 (AttendanceCard.handleSliderGesture (Fin w) (Fin x)).
Proof.
  intros Hwx. unfold AttendanceCard.handleSliderGesture. cbn zeta.
  destruct (clamp_ratio (Fin x / Fin w)) as (r & -> & H0 & H1).
  - cbn [div]. destruct (Qeq_bool w 0) eqn:E; [|discriminate].
    apply Qeq_bool_eq in E.
    destruct (Qcompare_spec x 0) as [Hx|Hx|Hx]; cbn; try discriminate.
    exfalso. apply Hwx. now split.
  - now apply slider_value_of_ratio.
Qed.

Lemma setSliderValue_range (v : number) (e : AttendanceCard.EditorEvent) :
  whole_in 50 95 v -> gesture_defined e ->
  whole_in 50 95 (AttendanceCard.setSliderValue v e).
Proof.
  intros Hv He. pose proof Hv as (z & Hz & Hrange).
  destruct e as [| |text|sliderWidth locationX];
    cbn [AttendanceCard.setSliderValue].
  - exists (Z.max 50 (z - 1)). split; [|lia].
    apply max_whole; [apply whole_refl|now apply sub_whole].
  - exists (Z.min 95 (z + 1)). split; [|lia].
    apply min_whole; [apply whole_refl|now apply add_whole].
  - unfold AttendanceCard.onChangeText.
    destruct (parseInt10_cases (Parse.keepDigits text)) as [->|[n ->]].
    + cbn [isNaN negb]. destruct (String.eqb text ""); [|exact Hv].
      exists 50%Z. split; [reflexivity|lia].
    + cbn [isNaN negb of_Z]. unfold AttendanceCard.clamp.
      exists (Z.min (Z.max n 50) 95). split; [|lia].
      apply min_whole; [|apply whole_refl].
      apply max_whole; apply whole_refl.
  - destruct He as (w & x & -> & -> & Hwx).
    now apply handleSliderGesture_range.
Qed.

(** The value of the threshold editor of a subject stays a whole number
    from 50 to 95 under the step buttons, the text field and the slider,
    once it is one: the text field clamps what is typed and falls back to
    50 on an empty text, and a gesture gives such a value whatever the
    value before. *)
Theorem threshold_editor_keeps_range
    (sliderValue : number) (events : list AttendanceCard.EditorEvent) :
  whole_in 50 95 sliderValue ->
  Forall gesture_defined events ->
  whole_in 50 95 (foldl AttendanceCard.setSliderValue sliderValue events).
Proof.
  revert sliderValue.
  induction events as [|e events IH]; intros v Hv Hall; cbn [foldl];
    [exact Hv|].
  apply Forall_cons in Hall as [He Hall].
  apply IH; [|exact Hall]. now apply setSliderValue_range.
Qed.

(** From 75: two steps down, the text [9a9], a step up, and a gesture at a
    third of the slider. *)
Lemma threshold_editor_keeps_range_witness :
  whole_in 50 95
    (foldl AttendanceCard.setSliderValue #75
       [ AttendanceCard.step_down; AttendanceCard.step_down;
         AttendanceCard.change_text "9a9"; AttendanceCard.step_up;
         AttendanceCard.gesture #300 #100 ]).
Proof.
  apply (threshold_editor_keeps_range #75
           [ AttendanceCard.step_down; AttendanceCard.step_down;
             AttendanceCard.change_text "9a9"; AttendanceCard.step_up;
             AttendanceCard.gesture #300 #100 ]).
  - exists 75%Z. split; [reflexivity|lia].
  - repeat constructor. exists 300%Q, 100%Q.
    split; [reflexivity|]. split; [reflexivity|]. intros [H _]. discriminate H.
Defined.

Lemma presets_in_range (value : number) :
  value ∈ ThresholdModal.PRESETS -> whole_in 50 95 value.
Proof.
  unfold ThresholdModal.PRESETS. intros H. set_unfold in H.
  destruct_or!; subst value; eexists; (split; [apply whole_refl|lia]).
Qed.

Lemma setThreshold_range (threshold : number) (p : ThresholdModal.Press) :
  whole_in 50 95 threshold -> preset_shown p ->
  whole_in 50 95 (ThresholdModal.setThreshold threshold p).
Proof.
  intros (z & Hz & Hrange) Hp.
  destruct p as [| |value]; cbn [ThresholdModal.setThreshold].
  - exists (Z.min (z + 1) 95). split; [|lia].
    apply min_whole; [now apply add_whole|apply whole_refl].
  - exists (Z.max (z - 1) 50). split; [|lia].
    apply max_whole; [now apply sub_whole|apply whole_refl].
  - now apply presets_in_range.
Qed.

(** The dialog of the global threshold, opened at a whole number from 50
    to 95, saves such a number, whatever is pressed before: the step
    buttons stop at the two bounds and every preset lies between them. *)
Theorem threshold_modal_keeps_range
    (currentThreshold : number) (presses : list ThresholdModal.Press) :
  whole_in 50 95 currentThreshold ->
  Forall preset_shown presses ->
  whole_in 50 95 (ThresholdModal.handleSave currentThreshold presses).
Proof.
  unfold ThresholdModal.handleSave. revert currentThreshold.
  induction presses as [|p presses IH]; intros v Hv Hall; cbn [foldl];
    [exact Hv|].
  apply Forall_cons in Hall as [Hp Hall].
  apply IH; [|exact Hall]. now apply setThreshold_range.
Qed.

(** From the initial 75: the preset 95, two steps up and a step down. *)
Lemma threshold_modal_keeps_range_witness :
  whole_in 50 95
    (ThresholdModal.handleSave #75
       [ ThresholdModal.press_preset #95; ThresholdModal.press_increment;
         ThresholdModal.press_increment; ThresholdModal.press_decrement ]).
Proof.
  apply (threshold_modal_keeps_range #75
           [ ThresholdModal.press_preset #95; ThresholdModal.press_increment;
             ThresholdModal.press_increment;
             ThresholdModal.press_decrement ]).
  - exists 75%Z. split; [reflexivity|lia].
  - repeat constructor.
Defined.

(* ===================================================================== *)
(** * The projections of the attendance card *)
(* ===================================================================== *)

Lemma Qabs_nonneg_eq (x : Q) : (0 <= x)%Q -> Qabs x = x.
Proof.
  destruct x as [n d]. unfold Qle, Qabs. simpl. intros H.
  f_equal. apply Z.abs_eq. lia.
Qed.

(** [toFixed(1)] of a percentage: the nearest tenth. *)
Lemma toFixed1_percent (x : Q) :
  (0 <= x)%Q -> (x <= 100)%Q ->
  toFixed1 (Fin x)
    = Fin (inject_Z (Qfloor (x * inject_Z 10 + Qmake 1 2)) / inject_Z 10) /\
  (0 <= Qfloor (x * inject_Z 10 + Qmake 1 2) <= 1000)%Z.
Proof.
  intros H0 H100. unfold toFixed1. rewrite (Qabs_nonneg_eq x H0).
  assert (E1 : Qle_bool (inject_Z (10 ^ 21)) x = false).
  { destruct (Qle_bool (inject_Z (10 ^ 21)) x) eqn:E; [|reflexivity].
    apply Qle_bool_iff in E.
    assert (Hbig : (100 < inject_Z (10 ^ 21))%Q) by reflexivity. lra. }
  assert (E2 : Qle_bool 0 x = true) by now apply Qle_bool_iff.
  rewrite E1, E2. split; [reflexivity|].
  change (inject_Z 10) with 10%Q. split.
  - match goal with
    | |- (_ <= Qfloor ?X)%Z => change (Qfloor (Qmake 1 2) <= Qfloor X)%Z
    end.
    apply Qfloor_resp_le. lra.
  - match goal with
    | |- (Qfloor ?X <= _)%Z =>
        change (Qfloor X <= Qfloor (100 * 10 + Qmake 1 2))%Z
    end.
    apply Qfloor_resp_le. lra.
Qed.

Lemma tenths_mono (x y : Q) :
  (x <= y)%Q ->
  (Qfloor (x * inject_Z 10 + Qmake 1 2)
   <= Qfloor (y * inject_Z 10 + Qmake 1 2))%Z.
Proof.
  intros H. apply Qfloor_resp_le. change (inject_Z 10) with 10%Q. lra.
Qed.

(** For a subject with [0 <= attended <= total], the two projections of
    the card are tenths [m / 10] and [k / 10] with
    [0 <= m <= k <= 1000]: skipping the next class gives no more than
    attending it, and both stay percentages.  With classes held, the
    rounded percentage of now lies between the two. *)
Theorem next_class_projections (subject : Subject) :
  subject_valid subject ->
  exists m k : Z,
    AttendanceCard.skipNext subject ≈ Fin (inject_Z m / inject_Z 10) /\
    AttendanceCard.attendNext subject ≈ Fin (inject_Z k / inject_Z 10) /\
    (0 <= m)%Z /\ (m <= k)%Z /\ (k <= 1000)%Z /\
    ((total subject >? #0) = true ->
     exists p : Z,
       toFixed1 (attended subject / total subject * #100)
         = Fin (inject_Z p / inject_Z 10) /\
       (m <= p)%Z /\ (p <= k)%Z).
Proof.
  intros (a & t & Ha & Ht & H0 & Hat).
  unfold AttendanceCard.skipNext, AttendanceCard.attendNext.
  rewrite Ha, Ht.
  destruct (Fin t >? #0) eqn:E.
  - unfold of_Z in E. apply gtb_Fin in E. unfold inject_Z in E.
    cbn [add of_Z]. change (inject_Z 1) with 1%Q.
    rewrite !Fin_div by lra. unfold of_Z. cbn [mul].
    change (inject_Z 100) with 100%Q.
    assert (Hq0 : (0 <= a / t)%Q) by (apply Qle_div_iff; lra).
    assert (Hq1 : (a / t <= 1)%Q) by (apply Qdiv_le_iff; lra).
    assert (HqT : (a / t * t == a)%Q) by (field; intro; lra).
    assert (Hd0 : (0 <= a / (t + 1))%Q) by (apply Qle_div_iff; lra).
    assert (Hdq : (a / (t + 1) <= a / t)%Q) by (apply Qdiv_le_iff; lra).
    assert (Hqu : (a / t <= (a + 1) / (t + 1))%Q)
      by (apply Qle_div_iff; lra).
    assert (Hu1 : ((a + 1) / (t + 1) <= 1)%Q) by (apply Qdiv_le_iff; lra).
    destruct (toFixed1_percent (a / (t + 1) * 100) ltac:(lra) ltac:(lra))
      as [-> Hb1].
    destruct (toFixed1_percent ((a + 1) / (t + 1) * 100)
                ltac:(lra) ltac:(lra)) as [-> Hb3].
    destruct (toFixed1_percent (a / t * 100) ltac:(lra) ltac:(lra))
      as [Hcur Hb2].
    pose proof (tenths_mono (a / (t + 1) * 100) (a / t * 100) ltac:(lra))
      as Hm1.
    pose proof (tenths_mono (a / t * 100) ((a + 1) / (t + 1) * 100)
                  ltac:(lra)) as Hm2.
    eexists _, _. split; [reflexivity|]. split; [reflexivity|].
    split; [lia|]. split; [lia|]. split; [lia|]. intros _.
    eexists. split; [exact Hcur|]. lia.
  - exists 0%Z, 1000%Z. split; [reflexivity|]. split; [reflexivity|].
    split; [lia|]. split; [lia|]. split; [lia|]. discriminate.
Qed.

(** 18 of 25 classes: 69.2 after skipping the next class, 72 now, and 73.1
    after attending it. *)
Lemma next_class_projections_witness :
  exists m k : Z,
    AttendanceCard.skipNext Sample.biology
      ≈ Fin (inject_Z m / inject_Z 10) /\
    AttendanceCard.attendNext Sample.biology
      ≈ Fin (inject_Z k / inject_Z 10) /\
    (0 <= m)%Z /\ (m <= k)%Z /\ (k <= 1000)%Z /\
    ((total Sample.biology >? #0) = true ->
     exists p : Z,
       toFixed1 (attended Sample.biology / total Sample.biology * #100)
         = Fin (inject_Z p / inject_Z 10) /\
       (m <= p)%Z /\ (p <= k)%Z).
Proof.
  apply (next_class_projections Sample.biology).
  eexists _, _. split; [reflexivity|]. split; [reflexivity|]. easy.
Defined.

(* ===================================================================== *)
(** * The card of the day and the planner *)
(* ===================================================================== *)


Lemma occurrences_filter_ne (k c : string) (l : list string) :
  occurrences k (List.filter (fun x => negb (String.eqb x c)) l)
  = if decide (k = c) then 0%nat else occurrences k l.
Proof.
  induction l as [|x l IH]; simpl; [now destruct (decide (k = c))|].
  destruct (String.eqb x c) eqn:E; cbn [negb].
  - apply String.eqb_eq in E as ->. rewrite IH.
    destruct (decide (k = c)) as [->|Hne]; [reflexivity|].
    destruct (decide (c = k)); [congruence|reflexivity].
  - apply String.eqb_neq in E. simpl. rewrite IH.
    destruct (decide (k = c)) as [->|Hne]; [|reflexivity].
    destruct (decide (x = c)); [congruence|reflexivity].
Qed.







(* ===================================================================== *)
(** * The timetable editor *)
(* ===================================================================== *)

Lemma filter_ne_absent (k : string) (l : list string) :
  k ∉ l -> List.filter (fun c => negb (String.eqb c k)) l = l.
Proof.
  induction l as [|c l IH]; intros Hout; [reflexivity|].
  cbn [List.filter].
  assert (Hc : String.eqb c k = false).
  { apply String.eqb_neq. intros ->. apply Hout. now left. }
  rewrite Hc. cbn [negb]. f_equal. apply IH.
  intros H. apply Hout. now right.
Qed.

(** Toggling a subject for the active day flips whether the day holds it,
    keeps the other subjects of the day as often as they were, and leaves
    the other days alone; toggling a subject on and off again restores
    the codes of the day. *)
Theorem toggle_subject_for_day
    (activeDay otherDay : Z) (subjectKey otherKey : string)
    (prev : Timetable) :
  let codes := fun t : Timetable => default [] (t !! activeDay) in
  let next := TimetableSetup.toggleSubjectForDay activeDay subjectKey prev in
  (subjectKey ∈ codes next <-> subjectKey ∉ codes prev) /\
  (otherKey <> subjectKey ->
   occurrences otherKey (codes next) = occurrences otherKey (codes prev)) /\
  (otherDay <> activeDay -> next !! otherDay = prev !! otherDay) /\
  (subjectKey ∉ codes prev ->
   codes (TimetableSetup.toggleSubjectForDay activeDay subjectKey next)
   = codes prev).
Proof.
  cbn zeta. unfold TimetableSetup.toggleSubjectForDay.
  set (dayCodes := default [] (prev !! activeDay)).
  rewrite lookup_insert_eq. cbn [from_option id].
  assert (Hgone : subjectKey
                  ∉ List.filter (fun c => negb (String.eqb c subjectKey))
                      dayCodes).
  { rewrite elem_of_bool_filter. intros [_ H].
    now rewrite String.eqb_refl in H. }
  assert (Hoff : List.filter (fun c => negb (String.eqb c subjectKey))
                   (dayCodes ++ [subjectKey]) = dayCodes
                 \/ subjectKey ∈ dayCodes).
  { destruct (decide (subjectKey ∈ dayCodes)) as [Hin|Hout];
      [now right|left].
    rewrite List.filter_app. cbn [List.filter].
    rewrite String.eqb_refl. cbn [negb]. rewrite app_nil_r.
    now apply filter_ne_absent. }
  destruct (bool_decide (subjectKey ∈ dayCodes)) eqn:E.
  - apply bool_decide_eq_true in E. split; [tauto|]. split; [|split].
    + intros Hne. rewrite occurrences_filter_ne. now rewrite decide_False.
    + intros Hne. now rewrite lookup_insert_ne.
    + tauto.
  - apply bool_decide_eq_false in E. split; [|split; [|split]].
    + rewrite elem_of_app, list_elem_of_singleton. tauto.
    + intros Hne. rewrite occurrences_app. simpl.
      rewrite decide_False by congruence. lia.
    + intros Hne. now rewrite lookup_insert_ne.
    + intros _. rewrite ?lookup_insert_eq. cbn [from_option id].
      assert (Hon : bool_decide (subjectKey ∈ dayCodes ++ [subjectKey])
                    = true).
      { apply bool_decide_eq_true. rewrite elem_of_app.
        right. now left. }
      rewrite Hon. rewrite ?lookup_insert_eq. cbn [from_option id].
      destruct Hoff as [Hoff|Hin]; [exact Hoff|contradiction].
Qed.
